(** * literary-circle: the real-time synchronisation core

    A shallow embedding of [js/features/realtime.js] (class
    [RealtimeManager]) together with the parts of [js/core/state.js]
    ([AppState]), [js/core/user.js] ([UserManager]) and
    [js/config/supabase.js] ([SupabaseManager]) that it calls into.

    The JavaScript objects are singletons with mutable fields; here they are
    the fields of one record [State] that every handler takes and returns.
    What the handlers do to their collaborators (toasts, DOM refreshes,
    storage calls, channel creation, [setTimeout]) is recorded in the state:
    pending timers in [timers], everything else in [trace]. The timers a
    toast uses for its own animation are left out.

    The handlers are [async], but every [await] that comes before one of
    their state changes is on a call that does no I/O, so no other callback
    runs in between: a handler is one atomic step. What
    [storageManager.loadData()] later puts into the store is store content
    like that of any local edit ([EvLocalEdit] below). *)

From stdpp Require Import gmap strings list fin_maps.
From Stdlib Require Import ZArith Lia.

Local Open Scope string_scope.
Local Open Scope Z_scope.
Local Open Scope list_scope.

(** ** JavaScript values used by the code *)

Module JS.

(** A nullable string-valued property: a column of a row, a field of a club.
    [JUndef] is a missing property, [JNull] an SQL NULL or an explicit null. *)
Inductive jsval : Type :=
  | JUndef
  | JNull
  | JStr (s : string).

#[global] Instance jsval_eq_dec : EqDecision jsval.
Proof. solve_decision. Defined.

#[global] Instance jsval_countable : Countable jsval.
Proof.
  refine (inj_countable'
            (fun v => match v with
                      | JUndef => inl false
                      | JNull => inl true
                      | JStr s => inr s
                      end)
            (fun x => match x with
                      | inl false => JUndef
                      | inl true => JNull
                      | inr s => JStr s
                      end) _).
  intros []; reflexivity.
Defined.

(** ToBoolean: the empty string, null and undefined are falsy. *)
Definition truthy (v : jsval) : bool :=
  match v with
  | JStr s => negb (String.eqb s "")
  | _ => false
  end.

(** [a === b] *)
Definition strict_eq (a b : jsval) : bool := bool_decide (a = b).

(** [a || b] *)
Definition or (a b : jsval) : jsval := if truthy a then a else b.

(** ToPropertyKey, for [obj[v]] on a plain object. *)
Definition to_key (v : jsval) : string :=
  match v with
  | JUndef => "undefined"
  | JNull => "null"
  | JStr s => s
  end.

(** A [Set] of strings, as the list of its values in insertion order. *)
Definition set_add (s : list string) (x : string) : list string :=
  if bool_decide (x ∈ s) then s else s ++ [x].

(** [new Set(l)] *)
Definition new_Set (l : list string) : list string := foldl set_add [] l.

(** [s.has(x)], also [array.includes(x)] *)
Definition has (s : list string) (x : string) : bool := bool_decide (x ∈ s).

(** [Math.pow(2, n)] for a natural exponent *)
Definition pow2 (n : nat) : Z := 2 ^ Z.of_nat n.

End JS.

Import JS.

(** ** Data model *)

(** A club as [AppState.bookClubs] holds it. *)
Record Club : Type := mkClub {
  c_id : jsval;
  c_name : jsval;
  c_books : list string;
  c_currentSelection : jsval;
  c_createdAt : jsval;
  c_userId : jsval;
  c_isOwner : bool;
  c_isShared : bool
}.

(** A row of table [book_clubs] as a change notification carries it.
    [r_books] and [r_shared_users] are [None] when the column is null or
    missing. [r_updated_at] is the time value of
    [new Date(row.updated_at)] in milliseconds, [None] for an Invalid Date. *)
Record Row : Type := mkRow {
  r_id : jsval;
  r_name : jsval;
  r_books : option (list string);
  r_current_selection : jsval;
  r_created_at : jsval;
  r_updated_at : option Z;
  r_user_id : jsval;
  r_shared_users : option (list string)
}.

Inductive EventType : Type := INSERT | UPDATE | DELETE | OtherEvent.

(** The payload of a [postgres_changes] notification; [None] is null. *)
Record Payload : Type := mkPayload {
  eventType : EventType;
  p_new : option Row;
  p_old : option Row
}.

(** Status strings: ['connecting'] is set by [subscribeToBookClub], the
    others arrive in the channel's status callback. *)
Inductive Status : Type :=
  | connecting
  | SUBSCRIBED
  | CHANNEL_ERROR
  | TIMED_OUT
  | CLOSED.

Record Subscription : Type := mkSubscription {
  sub_channel : string;
  sub_clubId : string;
  sub_subscribedAt : Z;
  sub_status : Status
}.

Inductive ConnectionState : Type :=
  | cs_disconnected
  | cs_connected
  | cs_error
  | cs_timeout
  | cs_unhealthy
  | cs_offline.

Inductive ConflictType : Type := concurrent_modification | book_list_conflict.

(** The object [detectConflict] returns; [localOnly] and [remoteOnly] are
    empty for a concurrent modification, which does not set them. *)
Record Conflict : Type := mkConflict {
  type : ConflictType;
  localClub : Club;
  remoteRecord : Row;
  localOnly : list string;
  remoteOnly : list string;
  conflictTime : Z
}.

(** ** Effects on the collaborators *)

Inductive Notice : Type :=
  | ClubUpdatedByMember
  | ClubDeletedByOwner
  | ChangesMerged
  | BooksMerged (addedCount : nat)
  | MemberJoined
  | SyncUnavailable
  | UnableToReconnect
  | ConnectionRestored
  | WorkingOffline
  | SyncError.

Inductive StatusShown : Type := shown_connected | shown_disconnected | shown_offline.

Inductive Effect : Type :=
  | Notify (n : Notice)                      (* showRealtimeNotification *)
  | ShowConnectionStatus (s : StatusShown)   (* showConnectionStatus *)
  | ChannelSubscribe (name : string)         (* supabase.channel(name)...subscribe(cb) *)
  | ChannelUnsubscribe (name : string)       (* channel.unsubscribe() *)
  | EmitClubAdded (key : string)             (* appState.emit('clubAdded', ..) *)
  | EmitClubUpdated (key : string)
  | EmitClubRemoved (key : string)
  | EmitCurrentClubChanged (oldClubId newClubId : jsval)
  | UpdateBookClubView                       (* uiComponents.updateBookClubView() *)
  | UpdateBookClubsList                      (* uiComponents.updateBookClubsList() *)
  | SaveToLocalStorage                       (* storageManager.saveToLocalStorage() *)
  | SaveData                                 (* storageManager.saveData() *)
  | LoadData                                 (* storageManager.loadData() *)
  | WindowShowHome.                          (* window.showHome() *)

(** What a pending [setTimeout] will run. *)
Inductive TimerTask : Type :=
  | Reconnect (clubId : string)   (* attemptReconnect: subscribeToBookClub(clubId) *)
  | ShowHome                      (* handleClubDelete: window.showHome() *)
  | Recover.                      (* handleUpdateError: loadData, updateBookClubView *)

Record Timer : Type := mkTimer {
  task : TimerTask;
  delay : Z
}.

(** ** The state of the singletons *)

Record State : Type := mkState {
  (* appState *)
  bookClubs : gmap string Club;
  currentClubId : jsval;
  (* userManager.getCurrentUserId() *)
  currentUserId : string;
  (* supabaseManager.isCollaborativeMode() *)
  collaborative : bool;
  (* realtimeManager *)
  subscriptions : gmap string Subscription;
  presenceChannels : gmap string string;
  connectionState : ConnectionState;
  reconnectAttempts : nat;
  lastUpdate : gmap jsval Z;
  (* the event loop and the collaborators *)
  timers : list Timer;
  trace : list Effect
}.

Definition with_bookClubs (f : gmap string Club → gmap string Club) (st : State) : State :=
  mkState (f (bookClubs st)) (currentClubId st) (currentUserId st) (collaborative st)
          (subscriptions st) (presenceChannels st) (connectionState st)
          (reconnectAttempts st) (lastUpdate st) (timers st) (trace st).

Definition with_currentClubId (v : jsval) (st : State) : State :=
  mkState (bookClubs st) v (currentUserId st) (collaborative st)
          (subscriptions st) (presenceChannels st) (connectionState st)
          (reconnectAttempts st) (lastUpdate st) (timers st) (trace st).

Definition with_currentUserId (uid : string) (st : State) : State :=
  mkState (bookClubs st) (currentClubId st) uid (collaborative st)
          (subscriptions st) (presenceChannels st) (connectionState st)
          (reconnectAttempts st) (lastUpdate st) (timers st) (trace st).

Definition with_collaborative (b : bool) (st : State) : State :=
  mkState (bookClubs st) (currentClubId st) (currentUserId st) b
          (subscriptions st) (presenceChannels st) (connectionState st)
          (reconnectAttempts st) (lastUpdate st) (timers st) (trace st).

Definition with_subscriptions
    (f : gmap string Subscription → gmap string Subscription) (st : State) : State :=
  mkState (bookClubs st) (currentClubId st) (currentUserId st) (collaborative st)
          (f (subscriptions st)) (presenceChannels st) (connectionState st)
          (reconnectAttempts st) (lastUpdate st) (timers st) (trace st).

Definition with_presenceChannels
    (f : gmap string string → gmap string string) (st : State) : State :=
  mkState (bookClubs st) (currentClubId st) (currentUserId st) (collaborative st)
          (subscriptions st) (f (presenceChannels st)) (connectionState st)
          (reconnectAttempts st) (lastUpdate st) (timers st) (trace st).

Definition with_connectionState (c : ConnectionState) (st : State) : State :=
  mkState (bookClubs st) (currentClubId st) (currentUserId st) (collaborative st)
          (subscriptions st) (presenceChannels st) c
          (reconnectAttempts st) (lastUpdate st) (timers st) (trace st).

Definition with_reconnectAttempts (n : nat) (st : State) : State :=
  mkState (bookClubs st) (currentClubId st) (currentUserId st) (collaborative st)
          (subscriptions st) (presenceChannels st) (connectionState st)
          n (lastUpdate st) (timers st) (trace st).

Definition with_lastUpdate (f : gmap jsval Z → gmap jsval Z) (st : State) : State :=
  mkState (bookClubs st) (currentClubId st) (currentUserId st) (collaborative st)
          (subscriptions st) (presenceChannels st) (connectionState st)
          (reconnectAttempts st) (f (lastUpdate st)) (timers st) (trace st).

Definition with_timers (f : list Timer → list Timer) (st : State) : State :=
  mkState (bookClubs st) (currentClubId st) (currentUserId st) (collaborative st)
          (subscriptions st) (presenceChannels st) (connectionState st)
          (reconnectAttempts st) (lastUpdate st) (f (timers st)) (trace st).

(** Perform an effect: append it to the trace. *)
Definition emit (e : Effect) (st : State) : State :=
  mkState (bookClubs st) (currentClubId st) (currentUserId st) (collaborative st)
          (subscriptions st) (presenceChannels st) (connectionState st)
          (reconnectAttempts st) (lastUpdate st) (timers st) (trace st ++ [e]).

(** [setTimeout(task, delay)] *)
Definition setTimeout (t : TimerTask) (d : Z) (st : State) : State :=
  with_timers (fun ts => ts ++ [mkTimer t d]) st.

(** The state after the constructors have run, for a given user id. *)
Definition initial (uid : string) : State :=
  mkState ∅ JNull uid false ∅ ∅ cs_disconnected 0%nat ∅ [] [].

(** ** [UserManager] (js/core/user.js) *)

Module UserManager.

(** [isOwner(club)]: [club.userId === this.getCurrentUserId() || club.isOwner === true] *)
Definition isOwner (st : State) (club : Club) : bool :=
  strict_eq (c_userId club) (JStr (currentUserId st)) || c_isOwner club.

(** [isSharedWithUser(club)]:
    [club.isShared === true || (club.userId !== this.getCurrentUserId() && club.userId)],
    read as a condition. *)
Definition isSharedWithUser (st : State) (club : Club) : bool :=
  c_isShared club
  || (negb (strict_eq (c_userId club) (JStr (currentUserId st))) && truthy (c_userId club)).

(** [hasAccess(club)] *)
Definition hasAccess (st : State) (club : Club) : bool :=
  isOwner st club || isSharedWithUser st club.

(** [setUserId(userId)] *)
Definition setUserId (userId : string) (st : State) : State :=
  with_currentUserId userId st.

End UserManager.

(** ** [SupabaseManager] (js/config/supabase.js) *)

Module SupabaseManager.

(** [initialize()]: [created] tells whether [createClient] returned a client;
    the configuration is enabled. *)
Definition initialize (created : bool) (st : State) : State :=
  if created then with_collaborative true st else st.

Definition isCollaborativeMode (st : State) : bool := collaborative st.

End SupabaseManager.

(** ** [AppState] (js/core/state.js) *)

Module AppState.

(** [getBookClub(clubId)] *)
Definition getBookClub (st : State) (clubId : jsval) : option Club :=
  match bookClubs st !! to_key clubId with
  | Some club => if UserManager.hasAccess st club then Some club else None
  | None => None
  end.

(** [setCurrentClubId(clubId)] *)
Definition setCurrentClubId (clubId : jsval) (st : State) : State :=
  let oldClubId := currentClubId st in
  emit (EmitCurrentClubChanged oldClubId clubId) (with_currentClubId clubId st).

(** The object [setBookClub] stores: [clubData] with the ownership fields
    recomputed. *)
Definition enhancedClubData (st : State) (clubData : Club) : Club :=
  let userId := JStr (currentUserId st) in
  mkClub (c_id clubData) (c_name clubData) (c_books clubData)
         (c_currentSelection clubData) (c_createdAt clubData)
         (JS.or (c_userId clubData) userId)
         (strict_eq (c_userId clubData) userId || c_isOwner clubData)
         (negb (strict_eq (c_userId clubData) userId)
          && negb (strict_eq (c_userId clubData) JUndef)).

(** [this.bookClubs] is a plain object, so [this.bookClubs[key]] also finds
    what the object inherits. These are the names every object inherits from
    [Object.prototype]; their values are functions, and the prototype itself
    for ['__proto__']: all truthy. *)
Definition objectPrototypeNames : list string :=
  ["constructor"; "__defineGetter__"; "__defineSetter__"; "hasOwnProperty";
   "__lookupGetter__"; "__lookupSetter__"; "isPrototypeOf"; "propertyIsEnumerable";
   "toString"; "valueOf"; "__proto__"; "toLocaleString"].

(** Whether [club[name]] is truthy; [books] is an array. *)
Definition truthy_field (club : Club) (name : string) : bool :=
  if decide (name = "id") then truthy (c_id club)
  else if decide (name = "name") then truthy (c_name club)
  else if decide (name = "books") then true
  else if decide (name = "currentSelection") then truthy (c_currentSelection club)
  else if decide (name = "createdAt") then truthy (c_createdAt club)
  else if decide (name = "userId") then truthy (c_userId club)
  else if decide (name = "isOwner") then c_isOwner club
  else if decide (name = "isShared") then c_isShared club
  else false.

(** Whether [this.bookClubs[key]] is truthy: an own entry is a club; the club
    stored under ['__proto__'] is the prototype of the object (the assignment
    [this.bookClubs['__proto__'] = club] sets it), so its fields are inherited
    under their names; the rest comes from [Object.prototype]. *)
Definition truthy_entry (st : State) (key : string) : bool :=
  bool_decide (is_Some (bookClubs st !! key))
  || bool_decide (key ∈ objectPrototypeNames)
  || match bookClubs st !! "__proto__" with
     | Some prototype => truthy_field prototype key
     | None => false
     end.

(** [setBookClub(clubId, clubData)] *)
Definition setBookClub (clubId : jsval) (clubData : Club) (st : State) : State :=
  let key := to_key clubId in
  let isNew := negb (truthy_entry st key) in
  let st1 := with_bookClubs (fun m => <[key := enhancedClubData st clubData]> m) st in
  if isNew then emit (EmitClubAdded key) st1 else emit (EmitClubUpdated key) st1.

(** [removeBookClub(clubId)], with its boolean result. A club stored under
    ['__proto__'] is the prototype of the plain object [this.bookClubs], no
    own property: [delete this.bookClubs['__proto__']] removes nothing. *)
Definition removeBookClub (clubId : jsval) (st : State) : bool * State :=
  let key := to_key clubId in
  match bookClubs st !! key with
  | Some club =>
      if negb (UserManager.isOwner st club) then (false, st)
      else
        let st1 := with_bookClubs
                     (fun m => if decide (key = "__proto__") then m else delete key m) st in
        let st2 := emit (EmitClubRemoved key) st1 in
        let st3 := if strict_eq (currentClubId st2) clubId
                   then setCurrentClubId JNull st2 else st2 in
        (true, st3)
  | None => (false, st)
  end.

(** [addBookToClub(clubId, bookTitle)]: the local write path for one item. *)
Definition addBookToClub (clubId : jsval) (bookTitle : string) (st : State) : bool * State :=
  match getBookClub st clubId with
  | Some club =>
      if negb (JS.has (c_books club) bookTitle) then
        let club' := mkClub (c_id club) (c_name club) (c_books club ++ [bookTitle])
                            (c_currentSelection club) (c_createdAt club)
                            (c_userId club) (c_isOwner club) (c_isShared club) in
        (true, with_bookClubs (fun m => <[to_key clubId := club']> m) st)
      else (false, st)
  | None => (false, st)
  end.

End AppState.

(** ** [RealtimeManager] (js/features/realtime.js) *)

(** What the environment decides during one call: the clock and which of the
    calls into the channel provider throw. *)
Record Env : Type := mkEnv {
  now : Z;
  channel_throws : bool;
  presence_throws : bool;
  unsubscribe_throws : bool;
  presence_unsubscribe_throws : bool
}.

Module RealtimeManager.

Definition maxReconnectAttempts : nat := 5.
Definition reconnectDelay : Z := 1000.
Definition conflictResolutionEnabled : bool := true.

(** *** Change dispatcher *)

(** [row.books || []] *)
Definition books_or_empty (r : Row) : list string := default [] (r_books r).

(** [detectConflict(payload)]. The outer [None] is the TypeError of
    [remoteRecord.id] on a null [payload.new]; [Some None] is [null]. *)
Definition detectConflict (tnow : Z) (payload : Payload) (st : State)
    : option (option Conflict) :=
  match p_new payload with
  | None => None
  | Some remoteRecord =>
      match AppState.getBookClub st (r_id remoteRecord) with
      | None => Some None
      | Some localClub =>
          let remoteUpdatedAt := r_updated_at remoteRecord in
          let lastLocalUpdate := lastUpdate st !! r_id remoteRecord in
          let stale :=
            match lastLocalUpdate, remoteUpdatedAt with
            | Some l, Some r => bool_decide (r < l)
            | _, _ => false
            end in
          if stale then
            Some (Some (mkConflict concurrent_modification localClub remoteRecord [] [] tnow))
          else
            let localBooks := new_Set (c_books localClub) in
            let remoteBooks := new_Set (books_or_empty remoteRecord) in
            let localOnly := filter (fun book => negb (JS.has remoteBooks book)) localBooks in
            let remoteOnly := filter (fun book => negb (JS.has localBooks book)) remoteBooks in
            if bool_decide (0 < length localOnly)%nat && bool_decide (0 < length remoteOnly)%nat
            then Some (Some (mkConflict book_list_conflict localClub remoteRecord
                                        localOnly remoteOnly tnow))
            else Some None
      end
  end.

(** [[...new Set([...localClub.books, ...(remoteRecord.books || [])])]] *)
Definition mergedBooks (localClub : Club) (remoteRecord : Row) : list string :=
  new_Set (c_books localClub ++ books_or_empty remoteRecord).

(** [resolveConcurrentModification(conflict)] *)
Definition resolveConcurrentModification (conflict : Conflict) (st : State) : State :=
  let l := localClub conflict in
  let r := remoteRecord conflict in
  let mergedClub :=
    mkClub (c_id l) (r_name r) (mergedBooks l r)
           (JS.or (r_current_selection r) (c_currentSelection l))
           (c_createdAt l) (c_userId l) (c_isOwner l) (c_isShared l) in
  let st1 := AppState.setBookClub (c_id l) mergedClub st in
  let st2 := emit (Notify ChangesMerged) st1 in
  emit SaveData st2.

(** [resolveBookListConflict(conflict)] *)
Definition resolveBookListConflict (conflict : Conflict) (st : State) : State :=
  let l := localClub conflict in
  let r := remoteRecord conflict in
  let mergedClub :=
    mkClub (c_id l) (c_name l) (mergedBooks l r) (c_currentSelection l)
           (c_createdAt l) (c_userId l) (c_isOwner l) (c_isShared l) in
  let st1 := AppState.setBookClub (c_id l) mergedClub st in
  let addedCount := (length (localOnly conflict) + length (remoteOnly conflict))%nat in
  let st2 := emit (Notify (BooksMerged addedCount)) st1 in
  emit SaveData st2.

(** [resolveConflict(conflict)]; the two kinds are all [detectConflict]
    produces, so the [default] branch has no counterpart here. *)
Definition resolveConflict (conflict : Conflict) (st : State) : State :=
  match type conflict with
  | concurrent_modification => resolveConcurrentModification conflict st
  | book_list_conflict => resolveBookListConflict conflict st
  end.

(** [handleClubInsertOrUpdate(updatedClub)]; [None] is the TypeError of
    [updatedClub.id] on null, thrown before anything is written. *)
Definition handleClubInsertOrUpdate (updatedClub : option Row) (st : State) : option State :=
  match updatedClub with
  | None => None
  | Some u =>
      let userId := JStr (currentUserId st) in
      let hasAccess :=
        strict_eq (r_user_id u) userId
        || match r_shared_users u with
           | Some users => JS.has users (currentUserId st)
           | None => false
           end in
      if negb hasAccess then Some st
      else
        let clubData :=
          mkClub (r_id u) (r_name u) (books_or_empty u) (r_current_selection u)
                 (r_created_at u) (r_user_id u)
                 (strict_eq (r_user_id u) userId)
                 (negb (strict_eq (r_user_id u) userId)) in
        let st1 := AppState.setBookClub (r_id u) clubData st in
        let st2 := if strict_eq (currentClubId st1) (r_id u)
                   then emit (Notify ClubUpdatedByMember) (emit UpdateBookClubView st1)
                   else emit UpdateBookClubsList st1 in
        Some (emit SaveToLocalStorage st2)
  end.

(** [handleClubDelete(deletedClub)]; [None] is the TypeError on null. The
    result of [removeBookClub] is not looked at. *)
Definition handleClubDelete (deletedClub : option Row) (st : State) : option State :=
  match deletedClub with
  | None => None
  | Some d =>
      let clubId := r_id d in
      match AppState.getBookClub st clubId with
      | None => Some st
      | Some _ =>
          let st1 := snd (AppState.removeBookClub clubId st) in
          let st2 := emit UpdateBookClubsList st1 in
          let st3 := if strict_eq (currentClubId st2) clubId
                     then setTimeout ShowHome 2000 (emit (Notify ClubDeletedByOwner) st2)
                     else st2 in
          Some (emit SaveToLocalStorage st3)
      end
  end.

(** [handleUpdateError(error, payload)] *)
Definition handleUpdateError (st : State) : State :=
  setTimeout Recover 5000 (emit (Notify SyncError) st).

(** [record?.id] *)
Definition opt_id (r : option Row) : jsval :=
  match r with
  | Some r => r_id r
  | None => JUndef
  end.

(** The [try] block of [handleBookClubUpdate] after the self-echo test;
    [None] when it throws. *)
Definition dispatch (tnow : Z) (payload : Payload) (st : State) : option State :=
  let detected :=
    if conflictResolutionEnabled then detectConflict tnow payload st else Some None in
  match detected with
  | None => None
  | Some (Some conflict) => Some (resolveConflict conflict st)
  | Some None =>
      let applied :=
        match eventType payload with
        | INSERT | UPDATE => handleClubInsertOrUpdate (p_new payload) st
        | DELETE => handleClubDelete (p_old payload) st
        | OtherEvent => Some st
        end in
      match applied with
      | None => None
      | Some st1 =>
          let key := JS.or (opt_id (p_new payload)) (opt_id (p_old payload)) in
          Some (with_lastUpdate (fun m => <[key := tnow]> m) st1)
      end
  end.

(** [handleBookClubUpdate(payload)] *)
Definition handleBookClubUpdate (tnow : Z) (payload : Payload) (st : State) : State :=
  let userId := JStr (currentUserId st) in
  let own :=
    match p_new payload with
    | Some newRecord => strict_eq (r_user_id newRecord) userId
    | None => false
    end in
  if own then st
  else
    match dispatch tnow payload st with
    | Some st' => st'
    | None => handleUpdateError st
    end.

(** *** Subscription registry and reconnection *)

(** [attemptReconnect(clubId)] *)
Definition attemptReconnect (clubId : string) (st : State) : State :=
  if bool_decide (maxReconnectAttempts ≤ reconnectAttempts st)%nat then
    emit (Notify UnableToReconnect) st
  else
    let attempts := S (reconnectAttempts st) in
    let st1 := with_reconnectAttempts attempts st in
    let d := reconnectDelay * pow2 (attempts - 1) in
    setTimeout (Reconnect clubId) d st1.

(** [handleSubscriptionError(clubId, error)] *)
Definition handleSubscriptionError (clubId : string) (st : State) : State :=
  let st1 := with_subscriptions (fun m => delete clubId m) st in
  let st2 := emit (Notify SyncUnavailable) st1 in
  attemptReconnect clubId st2.

(** [setupPresenceTracking(clubId)] *)
Definition setupPresenceTracking (env : Env) (clubId : string) (st : State) : State :=
  if negb (SupabaseManager.isCollaborativeMode st) then st
  else if presence_throws env then st
  else
    let presenceChannel := "presence-" +:+ clubId in
    let st1 := emit (ChannelSubscribe presenceChannel) st in
    with_presenceChannels (fun m => <[clubId := presenceChannel]> m) st1.

(** [subscribeToBookClub(clubId)], with its boolean result. *)
Definition subscribeToBookClub (env : Env) (clubId : string) (st : State) : bool * State :=
  if negb (SupabaseManager.isCollaborativeMode st) then (false, st)
  else if bool_decide (is_Some (subscriptions st !! clubId)) then (true, st)
  else if channel_throws env then (false, handleSubscriptionError clubId st)
  else
    let channel := "book-club-" +:+ clubId in
    let st1 := emit (ChannelSubscribe channel) st in
    let st2 := with_subscriptions
                 (fun m => <[clubId := mkSubscription channel clubId (now env) connecting]> m)
                 st1 in
    (true, setupPresenceTracking env clubId st2).

(** [cleanupPresenceTracking(clubId)]; [None] when
    [presenceChannel.unsubscribe()] throws. *)
Definition cleanupPresenceTracking (env : Env) (clubId : string) (st : State) : option State :=
  match presenceChannels st !! clubId with
  | Some presenceChannel =>
      if presence_unsubscribe_throws env then None
      else
        let st1 := emit (ChannelUnsubscribe presenceChannel) st in
        Some (with_presenceChannels (fun m => delete clubId m) st1)
  | None => Some st
  end.

(** [unsubscribeFromBookClub(clubId)], with its boolean result. An exception
    of [cleanupPresenceTracking] is caught after the registry entry is gone. *)
Definition unsubscribeFromBookClub (env : Env) (clubId : string) (st : State) : bool * State :=
  match subscriptions st !! clubId with
  | None => (false, st)
  | Some subscription =>
      if unsubscribe_throws env then (false, st)
      else
        let st1 := emit (ChannelUnsubscribe (sub_channel subscription)) st in
        let st2 := with_subscriptions (fun m => delete clubId m) st1 in
        match cleanupPresenceTracking env clubId st2 with
        | Some st3 => (true, st3)
        | None => (false, st2)
        end
  end.

(** [subscription.status = status] *)
Definition set_status (status : Status) (s : Subscription) : Subscription :=
  mkSubscription (sub_channel s) (sub_clubId s) (sub_subscribedAt s) status.

(** [handleSubscriptionStatus(clubId, status)] *)
Definition handleSubscriptionStatus (clubId : string) (status : Status) (st : State) : State :=
  let st1 := with_subscriptions (fun m => alter (set_status status) clubId m) st in
  match status with
  | SUBSCRIBED =>
      let st2 := with_connectionState cs_connected st1 in
      let st3 := with_reconnectAttempts 0 st2 in
      emit (ShowConnectionStatus shown_connected) st3
  | CHANNEL_ERROR =>
      handleSubscriptionError clubId (with_connectionState cs_error st1)
  | TIMED_OUT =>
      attemptReconnect clubId (with_connectionState cs_timeout st1)
  | CLOSED =>
      with_connectionState cs_disconnected st1
  | connecting => st1
  end.

(** *** Connectivity *)

(** [handleConnectionIssue(error)] *)
Definition handleConnectionIssue (st : State) : State :=
  emit (ShowConnectionStatus shown_disconnected) (with_connectionState cs_unhealthy st).

(** [handleConnectionHealthy()] *)
Definition handleConnectionHealthy (st : State) : State :=
  match connectionState st with
  | cs_connected => st
  | _ => emit (ShowConnectionStatus shown_connected) (with_connectionState cs_connected st)
  end.

(** [checkConnectionHealth()]; [probe_ok] is the outcome of the query. *)
Definition checkConnectionHealth (probe_ok : bool) (st : State) : State :=
  if negb (SupabaseManager.isCollaborativeMode st) then st
  else if probe_ok then handleConnectionHealthy st
  else handleConnectionIssue st.

(** [Array.from(this.subscriptions.keys())]. The code goes through the keys
    in the order they were inserted; here they come in the order of the map,
    and the properties below do not depend on the order. *)
Definition activeClubs (st : State) : list string := (map_to_list (subscriptions st)).*1.

(** [handleConnectionRestored()]: the [for] loop over [activeClubs], then the
    forced sync. *)
Definition handleConnectionRestored (env : Env) (st : State) : State :=
  let st1 := emit (Notify ConnectionRestored) st in
  let st2 := foldl (fun s clubId => snd (subscribeToBookClub env clubId s)) st1 (activeClubs st1) in
  let st3 := emit LoadData st2 in
  let st4 := emit UpdateBookClubsList st3 in
  emit UpdateBookClubView st4.

(** [handleConnectionLost()] *)
Definition handleConnectionLost (st : State) : State :=
  let st1 := with_connectionState cs_offline st in
  let st2 := emit (ShowConnectionStatus shown_offline) st1 in
  emit (Notify WorkingOffline) st2.

(** *** The event loop *)

(** The callback of a pending timer. [subscribeToBookClub] catches its own
    exceptions, so the [catch] around it in [attemptReconnect] never runs. *)
Definition run_task (env : Env) (t : TimerTask) (st : State) : State :=
  match t with
  | Reconnect clubId => snd (subscribeToBookClub env clubId st)
  | ShowHome => emit WindowShowHome st
  | Recover => emit UpdateBookClubView (emit LoadData st)
  end.

(** The [i]-th pending timer fires: it leaves the queue and its callback runs. *)
Definition fire (env : Env) (i : nat) (st : State) : State :=
  match timers st !! i with
  | Some t => run_task env (task t) (with_timers (fun ts => take i ts ++ drop (S i) ts) st)
  | None => st
  end.

End RealtimeManager.

(** ** Runs of the system *)

(** What can happen to the singletons: calls from the application shell,
    callbacks of the channel provider and of the browser, local edits, which
    may leave any store content behind, and a change of the user id. *)
Inductive Event : Type :=
  | EvInitialize (created : bool)
  | EvSubscribe (env : Env) (clubId : string)
  | EvUnsubscribe (env : Env) (clubId : string)
  | EvStatus (clubId : string) (status : Status)
  | EvRemoteChange (tnow : Z) (payload : Payload)
  | EvTimer (env : Env) (i : nat)
  | EvOnline (env : Env)
  | EvOffline
  | EvHealth (probe_ok : bool)
  | EvLocalEdit (clubs : gmap string Club) (current : jsval)
  | EvSetUserId (userId : string).

Definition step (ev : Event) (st : State) : State :=
  match ev with
  | EvInitialize created => SupabaseManager.initialize created st
  | EvSubscribe env clubId => snd (RealtimeManager.subscribeToBookClub env clubId st)
  | EvUnsubscribe env clubId => snd (RealtimeManager.unsubscribeFromBookClub env clubId st)
  | EvStatus clubId status => RealtimeManager.handleSubscriptionStatus clubId status st
  | EvRemoteChange tnow payload => RealtimeManager.handleBookClubUpdate tnow payload st
  | EvTimer env i => RealtimeManager.fire env i st
  | EvOnline env => RealtimeManager.handleConnectionRestored env st
  | EvOffline => RealtimeManager.handleConnectionLost st
  | EvHealth probe_ok => RealtimeManager.checkConnectionHealth probe_ok st
  | EvLocalEdit clubs current => with_currentClubId current (with_bookClubs (fun _ => clubs) st)
  | EvSetUserId userId => UserManager.setUserId userId st
  end.

(** The events are handled one at a time, each to completion. *)
Definition run (evs : list Event) (st : State) : State := foldl (fun s ev => step ev s) st evs.

Definition reachable (st : State) : Prop :=
  ∃ uid evs, st = run evs (initial uid).

(** ** Vocabulary of the properties *)

(** The spec's reading of a merge: the first occurrence of every value, in
    order. *)
Fixpoint uniq (l : list string) : list string :=
  match l with
  | [] => []
  | x :: l' => x :: filter (fun y => y ≠ x) (uniq l')
  end.

(** "Local items first in original order, then remote-only items appended in
    remote order; duplicates removed by value." *)
Definition union_in_order (localItems remoteItems : list string) : list string :=
  uniq localItems ++ filter (fun y => y ∉ localItems) (uniq remoteItems).

(** The self-echo test of [handleBookClubUpdate]. *)
Definition is_own (payload : Payload) (st : State) : bool :=
  match p_new payload with
  | Some newRecord => strict_eq (r_user_id newRecord) (JStr (currentUserId st))
  | None => false
  end.

(** The statuses that lead to [attemptReconnect]. *)
Definition is_failure (status : Status) : Prop :=
  status = CHANNEL_ERROR ∨ status = TIMED_OUT.

(** A run of status callbacks, each for some club. *)
Definition statuses (calls : list (string * Status)) (st : State) : State :=
  foldl (fun s call => RealtimeManager.handleSubscriptionStatus call.1 call.2 s) st calls.

(** The registry side of the state: what [subscribeToBookClub] reads. *)
Definition same_registry (st st' : State) : Prop :=
  collaborative st' = collaborative st
  ∧ subscriptions st' = subscriptions st
  ∧ presenceChannels st' = presenceChannels st
  ∧ reconnectAttempts st' = reconnectAttempts st
  ∧ currentUserId st' = currentUserId st.

(** Every stored entity lists each item once. *)
Definition items_unique (st : State) : Prop :=
  ∀ key club, bookClubs st !! key = Some club → NoDup (c_books club).

(** Does handling [ev] in [st] call [subscribeToBookClub(clubId)]? Either
    the shell calls it, or a pending reconnection timer of that club fires.
    (The online event calls it for registered clubs only.) *)
Definition resubscribes (clubId : string) (ev : Event) (st : State) : bool :=
  match ev with
  | EvSubscribe _ c => bool_decide (c = clubId)
  | EvTimer _ i =>
      match task <$> timers st !! i with
      | Some (Reconnect c) => bool_decide (c = clubId)
      | _ => false
      end
  | _ => false
  end.

(** A run in which no event calls [subscribeToBookClub(clubId)]. *)
Fixpoint quiet (clubId : string) (evs : list Event) (st : State) : Prop :=
  match evs with
  | [] => True
  | ev :: evs' => resubscribes clubId ev st = false ∧ quiet clubId evs' (step ev st)
  end.

(** ** Scenarios

    Concrete states and notifications: a viewer [me] looking at club ["X"],
    which [owner] owns and shares. *)

Module Scenario.

Definition me : string := "user_me".
Definition owner : string := "user_owner".

Definition env0 : Env := mkEnv 1000 false false false false.

(** The shared club as the viewer's store holds it. *)
Definition clubX (books : list string) : Club :=
  mkClub (JStr "X") (JStr "Evening readers") books JNull (JStr "2024-01-01")
         (JStr owner) false true.

(** The owner's row of the club. *)
Definition rowX (books : list string) (updated_at : Z) : Row :=
  mkRow (JStr "X") (JStr "Evening readers") (Some books) JNull (JStr "2024-01-01")
        (Some updated_at) (JStr owner) (Some [me]).

(** The viewer's state: the club in the store and in view, collaborative
    mode on, and the watermarks given. *)
Definition viewing (books : list string) (watermarks : gmap jsval Z) : State :=
  mkState {[ "X" := clubX books ]} (JStr "X") me true ∅ ∅ cs_connected 0%nat
          watermarks [] [].

Definition update (r : Row) : Payload := mkPayload UPDATE (Some r) None.

End Scenario.

(** * The rest of the application

    The operations of the same files that the properties above did not
    need, and the callers that tie them together. What [AppState.emit]
    sends for the item operations, and what is shown with [alert], is
    returned beside the new state; the listeners themselves belong to the
    shell ([main.js]) and run on their own. *)

(** The events of the item operations of [AppState]. *)
Inductive StoreEvent : Type :=
  | bookAdded (clubId : jsval) (book : string)
  | bookRemoved (clubId : jsval) (book : string)
  | allBooksCleared (clubId : jsval) (bookCount : nat)
  | selectionChanged (clubId : jsval) (selection : jsval)
  | selectionConfirmed (clubId : jsval) (selection : jsval).

(** [club.books = books] on the club stored under [clubId]. *)
Definition set_books (books : list string) (club : Club) : Club :=
  mkClub (c_id club) (c_name club) books (c_currentSelection club) (c_createdAt club)
         (c_userId club) (c_isOwner club) (c_isShared club).

(** [club.currentSelection = selection] *)
Definition set_currentSelection (selection : jsval) (club : Club) : Club :=
  mkClub (c_id club) (c_name club) (c_books club) selection (c_createdAt club)
         (c_userId club) (c_isOwner club) (c_isShared club).

(** ** [AppState], the item operations (js/core/state.js) *)

Module Store.

(** The object [getBookClub(clubId)] returned is the stored one: a change of
    its fields is a change of the entry under [clubId]. *)
Definition write (clubId : jsval) (club : Club) (st : State) : State :=
  with_bookClubs (fun m => <[to_key clubId := club]> m) st.

(** [getBookClubs()]. [this.bookClubs] is a plain object: the assignment
    [this.bookClubs['__proto__'] = club] of [setBookClub] makes the club the
    prototype of the object, where a lookup under that id finds it, but it is
    no own key and [Object.keys] does not list it. *)
Definition getBookClubs (st : State) : gmap string Club :=
  filter (fun entry => entry.1 ≠ "__proto__" ∧ UserManager.hasAccess st entry.2 = true)
         (bookClubs st).

(** [getCurrentClub()] *)
Definition getCurrentClub (st : State) : option Club :=
  if truthy (currentClubId st) then AppState.getBookClub st (currentClubId st) else None.

(** [addBookToClub(clubId, bookTitle)] *)
Definition addBookToClub (clubId : jsval) (bookTitle : string) (st : State)
    : bool * State * list StoreEvent :=
  match AppState.getBookClub st clubId with
  | Some club =>
      if negb (JS.has (c_books club) bookTitle) then
        (true, write clubId (set_books (c_books club ++ [bookTitle]) club) st,
         [bookAdded clubId bookTitle])
      else (false, st, [])
  | None => (false, st, [])
  end.

(** [removeBookFromClub(clubId, bookTitle)] *)
Definition removeBookFromClub (clubId : jsval) (bookTitle : string) (st : State)
    : bool * State * list StoreEvent :=
  match AppState.getBookClub st clubId with
  | Some club =>
      (true,
       write clubId (set_books (filter (fun book => book ≠ bookTitle) (c_books club)) club) st,
       [bookRemoved clubId bookTitle])
  | None => (false, st, [])
  end.

(** [removeBookByIndex(clubId, index)]; the result is the removed title, or
    [None] for [null]. *)
Definition removeBookByIndex (clubId : jsval) (index : Z) (st : State)
    : option string * State * list StoreEvent :=
  match AppState.getBookClub st clubId with
  | Some club =>
      if bool_decide (0 ≤ index) && bool_decide (index < Z.of_nat (length (c_books club))) then
        match c_books club !! Z.to_nat index with
        | Some removedBook =>
            (Some removedBook,
             write clubId (set_books (delete (Z.to_nat index) (c_books club)) club) st,
             [bookRemoved clubId removedBook])
        | None => (None, st, [])
        end
      else (None, st, [])
  | None => (None, st, [])
  end.

(** [clearAllBooks(clubId)] *)
Definition clearAllBooks (clubId : jsval) (st : State) : bool * State * list StoreEvent :=
  match AppState.getBookClub st clubId with
  | Some club =>
      (true,
       write clubId (set_currentSelection JNull (set_books [] club)) st,
       [allBooksCleared clubId (length (c_books club))])
  | None => (false, st, [])
  end.

(** [setClubSelection(clubId, selection)] *)
Definition setClubSelection (clubId : jsval) (selection : jsval) (st : State)
    : bool * State * list StoreEvent :=
  match AppState.getBookClub st clubId with
  | Some club =>
      (true, write clubId (set_currentSelection selection club) st,
       [selectionChanged clubId selection])
  | None => (false, st, [])
  end.

(** [confirmSelection(clubId)]; the result is the confirmed selection, or
    [None] for [null]. *)
Definition confirmSelection (clubId : jsval) (st : State)
    : option string * State * list StoreEvent :=
  match AppState.getBookClub st clubId with
  | Some club =>
      match c_currentSelection club with
      | JStr selection =>
          if truthy (JStr selection) then
            (Some selection,
             write clubId
               (set_currentSelection JNull
                  (set_books (filter (fun book => book ≠ selection) (c_books club)) club)) st,
             [selectionConfirmed clubId (JStr selection)])
          else (None, st, [])
      | _ => (None, st, [])
      end
  | None => (None, st, [])
  end.

(** The listener lists of [on], [off] and [emit]: per event name, the
    callbacks in the order they were registered. A callback is known by its
    identity. *)
Definition Listeners : Type := gmap string (list nat).

(** [on(event, callback)] *)
Definition on (event : string) (callback : nat) (listeners : Listeners) : Listeners :=
  <[event := default [] (listeners !! event) ++ [callback]]> listeners.

(** [callbacks.indexOf(callback)], [None] for [-1] *)
Definition indexOf (callback : nat) (callbacks : list nat) : option nat :=
  fst <$> list_find (fun c => c = callback) callbacks.

(** [off(event, callback)] *)
Definition off (event : string) (callback : nat) (listeners : Listeners) : Listeners :=
  match listeners !! event with
  | Some callbacks =>
      match indexOf callback callbacks with
      | Some index => <[event := delete index callbacks]> listeners
      | None => listeners
      end
  | None => listeners
  end.

(** The callbacks [emit(event, data)] calls, in order. An exception of one
    is caught and the next one is called. *)
Definition emitted_to (event : string) (listeners : Listeners) : list nat :=
  default [] (listeners !! event).

End Store.

(** What the user is shown with [alert]. *)
Inductive AlertText : Type :=
  | LimitReached          (* 'Maximum of 100 books per collection reached.' *)
  | ClubNotFound          (* 'Could not find this reading group. ...' *)
  | AlreadyOwner          (* 'You're already the owner of ...' *)
  | JoinedClub.           (* 'Successfully joined ...' *)

Inductive Signal : Type :=
  | Sent (event : StoreEvent)     (* appState.emit *)
  | Alerted (text : AlertText).   (* alert *)

(** ** [BookManager] (js/features/books.js) *)

Module BookManager.

Definition maxBooksPerClub : nat := 100.

(** [addBook(title)]; [typed] is what [input?.value?.trim()] yields when no
    title is passed. *)
Definition addBook (title typed : jsval) (st : State) : bool * State * list Signal :=
  match Store.getCurrentClub st with
  | None => (false, st, [])
  | Some club =>
      match (if truthy title then title else typed) with
      | JStr t =>
          if negb (truthy (JStr t)) then (false, st, [])
          else if JS.has (c_books club) t then (false, st, [])
          else if bool_decide (maxBooksPerClub ≤ length (c_books club))%nat
               then (false, st, [Alerted LimitReached])
          else
            let '(success, st1, events) := Store.addBookToClub (c_id club) t st in
            (success, if success then emit SaveData st1 else st1, Sent <$> events)
      | _ => (false, st, [])
      end
  end.

(** [books.splice(toIndex, 0, movedBook)] *)
Definition insert_at (i : nat) (x : string) (l : list string) : list string :=
  take i l ++ x :: drop i l.

(** [moveBook(fromIndex, toIndex)]; the list moved in is that of the club
    in view, in place. *)
Definition moveBook (fromIndex toIndex : Z) (st : State) : bool * State :=
  match Store.getCurrentClub st with
  | None => (false, st)
  | Some club =>
      let n := Z.of_nat (length (c_books club)) in
      if bool_decide (fromIndex < 0) || bool_decide (toIndex < 0)
         || bool_decide (n ≤ fromIndex) || bool_decide (n ≤ toIndex)
      then (false, st)
      else
        match c_books club !! Z.to_nat fromIndex with
        | Some movedBook =>
            let books := delete (Z.to_nat fromIndex) (c_books club) in
            let books := insert_at (Z.to_nat toIndex) movedBook books in
            (true, emit SaveData (Store.write (currentClubId st) (set_books books club) st))
        | None => (false, st)
        end
  end.

(** The fixed list [getSuggestions] draws from. *)
Definition mockSuggestions : list string :=
  ["The Great Gatsby"; "To Kill a Mockingbird"; "1984"; "Pride and Prejudice";
   "The Catcher in the Rye"].

(** [getSuggestions()]; the common words it extracts first are not used. *)
Definition getSuggestions (st : State) : list string :=
  match Store.getCurrentClub st with
  | None => []
  | Some club =>
      if bool_decide (length (c_books club) = 0%nat) then []
      else take 3 (filter (fun suggestion => negb (JS.has (c_books club) suggestion))
                          mockSuggestions)
  end.

End BookManager.

(** ** The shell: [LiteraryCircleApp] (js/main.js) *)

Module Main.

(** [handleCurrentClubChange({oldClubId, newClubId})], without its calls of
    the UI. *)
Definition handleCurrentClubChange (env : Env) (oldClubId newClubId : jsval) (st : State)
    : State :=
  let st1 :=
    match oldClubId with
    | JStr old =>
        if truthy oldClubId && SupabaseManager.isCollaborativeMode st
        then (RealtimeManager.unsubscribeFromBookClub env old st).2 else st
    | _ => st
    end in
  match newClubId with
  | JStr new =>
      if truthy newClubId && SupabaseManager.isCollaborativeMode st1
      then (RealtimeManager.subscribeToBookClub env new st1).2 else st1
  | _ => st1
  end.

(** [appState.setCurrentClubId(clubId)] once [setupEventListeners] has
    registered the listener of ['currentClubChanged']. *)
Definition setCurrentClubId (env : Env) (clubId : jsval) (st : State) : State :=
  let oldClubId := currentClubId st in
  handleCurrentClubChange env oldClubId clubId (AppState.setCurrentClubId clubId st).

End Main.

(** ** [NavigationManager] (js/core/navigation.js) *)

Inductive View : Type := home | bookClub.

#[global] Instance View_eq_dec : EqDecision View.
Proof. solve_decision. Defined.

Record Nav : Type := mkNav {
  currentView : View;
  viewHistory : list (View * Z)
}.

Module NavigationManager.

Definition initial : Nav := mkNav home [].

(** [navigateTo(view, params)] *)
Definition navigateTo (tnow : Z) (view : View) (nav : Nav) : Nav :=
  let history :=
    if bool_decide (currentView nav ≠ view) then
      let pushed := viewHistory nav ++ [(currentView nav, tnow)] in
      if bool_decide (10 < length pushed)%nat
      then drop (length pushed - 10) pushed else pushed
    else viewHistory nav in
  mkNav view history.

(** [showHome()] *)
Definition showHome (env : Env) (app : State * Nav) : State * Nav :=
  let nav := navigateTo (now env) home app.2 in
  (Main.setCurrentClubId env JNull app.1, nav).

(** [showBookClub(clubId)] *)
Definition showBookClub (env : Env) (clubId : jsval) (app : State * Nav) : State * Nav :=
  match AppState.getBookClub app.1 clubId with
  | None => showHome env app
  | Some _ =>
      let nav := navigateTo (now env) bookClub app.2 in
      (Main.setCurrentClubId env clubId app.1, nav)
  end.

(** [this.viewHistory.pop()], as far as the list goes *)
Definition pop (history : list (View * Z)) : list (View * Z) :=
  take (length history - 1) history.

(** [goBack()]: both kinds of previous view lead home. *)
Definition goBack (env : Env) (app : State * Nav) : State * Nav :=
  if bool_decide (0 < length (viewHistory app.2))%nat
  then showHome env (app.1, mkNav (currentView app.2) (pop (viewHistory app.2)))
  else showHome env app.

End NavigationManager.

(** ** [StorageManager] (js/core/storage.js), the two directions of a row *)

Module StorageManager.

(** The object [saveToSupabase] upserts for the club stored under [clubId]. *)
Definition upsert_row (tnow : Z) (st : State) (clubId : string) (club : Club) : Row :=
  mkRow (JStr clubId) (c_name club) (Some (c_books club)) (c_currentSelection club)
        (c_createdAt club) (Some tnow)
        (JS.or (c_userId club) (JStr (currentUserId st))) None.

(** [saveToSupabase()]: the rows upserted, for the accessible clubs the user
    owns. An error of one upsert is logged and the loop goes on. *)
Definition saveToSupabase (tnow : Z) (st : State) : list Row :=
  if negb (SupabaseManager.isCollaborativeMode st) then []
  else
    omap (fun entry : string * Club =>
            if UserManager.isOwner st entry.2
            then Some (upsert_row tnow st entry.1 entry.2) else None)
         (map_to_list (Store.getBookClubs st)).

(** The object [loadFromSupabase] passes to [setBookClub] for a row. *)
Definition loaded_club (st : State) (row : Row) : Club :=
  let userId := JStr (currentUserId st) in
  mkClub (r_id row) (r_name row) (RealtimeManager.books_or_empty row)
         (r_current_selection row) (r_created_at row) (r_user_id row)
         (strict_eq (r_user_id row) userId) (negb (strict_eq (r_user_id row) userId)).

(** [loadFromSupabase()]; [data] is what the query returns, [None] on an
    error. *)
Definition loadFromSupabase (data : option (list Row)) (st : State) : State :=
  if negb (SupabaseManager.isCollaborativeMode st) then st
  else
    match data with
    | Some rows =>
        foldl (fun s row => AppState.setBookClub (r_id row) (loaded_club s row) s) st rows
    | None => st
    end.

(** [loadClubFromSupabase(clubId)]: the object made of the row found; it has
    no ownership flags. *)
Definition loadClubFromSupabase (data : option Row) (st : State) : option Club :=
  if negb (SupabaseManager.isCollaborativeMode st) then None
  else
    (fun row => mkClub (r_id row) (r_name row) (RealtimeManager.books_or_empty row)
                       (r_current_selection row) (r_created_at row) (r_user_id row)
                       false false) <$> data.

End StorageManager.

(** ** [BookClubManager] (js/features/bookClubs.js) *)

Module BookClubManager.

(** [joinFromUrl(clubId)]; [data] is the row the query finds. *)
Definition joinFromUrl (env : Env) (clubId : string) (data : option Row) (app : State * Nav)
    : bool * (State * Nav) * list Signal :=
  if negb (SupabaseManager.isCollaborativeMode app.1) then (false, app, [])
  else
    match StorageManager.loadClubFromSupabase data app.1 with
    | None => (false, app, [Alerted ClubNotFound])
    | Some clubData =>
        if strict_eq (c_userId clubData) (JStr (currentUserId app.1)) then
          (true, NavigationManager.showBookClub env (JStr clubId) app, [Alerted AlreadyOwner])
        else
          let sharedClubData :=
            mkClub (c_id clubData) (c_name clubData) (c_books clubData)
                   (c_currentSelection clubData) (c_createdAt clubData) (c_userId clubData)
                   false true in
          let st1 := AppState.setBookClub (JStr clubId) sharedClubData app.1 in
          let st2 := emit SaveData st1 in
          (true, NavigationManager.showBookClub env (JStr clubId) (st2, app.2),
           [Alerted JoinedClub])
    end.

End BookClubManager.

(** ** [UserManager], the user id (js/core/user.js) *)

(** The field [currentUserId] of the manager and the item of [localStorage]
    under [USER_ID_KEY]. *)
Record Identity : Type := mkIdentity {
  id_field : jsval;
  id_stored : option string
}.

Module UserId.

(** After the constructor, with whatever [localStorage] holds. *)
Definition initial (stored : option string) : Identity := mkIdentity JNull stored.

(** [generateUserId()]; [stamp] stands for the time and the random digits
    that follow ['user_']. *)
Definition generateUserId (stamp : string) : string := "user_" +:+ stamp.

(** [localStorage.getItem(key)] *)
Definition getItem (stored : option string) : jsval :=
  match stored with
  | Some s => JStr s
  | None => JNull
  end.

(** [getCurrentUserId()] with the identity it leaves behind. *)
Definition getCurrentUserId (stamp : string) (i : Identity) : jsval * Identity :=
  if negb (truthy (id_field i)) then
    let loaded := getItem (id_stored i) in
    if negb (truthy loaded) then
      let generated := generateUserId stamp in
      (JStr generated, mkIdentity (JStr generated) (Some generated))
    else (loaded, mkIdentity loaded (id_stored i))
  else (id_field i, i).

(** [setUserId(userId)] *)
Definition setUserId (userId : string) (i : Identity) : Identity :=
  mkIdentity (JStr userId) (Some userId).

(** [resetUserId()] *)
Definition resetUserId (stamp : string) (i : Identity) : jsval * Identity :=
  getCurrentUserId stamp (mkIdentity JNull None).

End UserId.

(** ** [RealtimeManager], presence and shutdown (js/features/realtime.js) *)

(** The manager with its heartbeat: the field [heartbeatInterval] and the
    intervals the browser is running. *)
Record Manager : Type := mkManager {
  base : State;
  heartbeatInterval : option nat;
  runningIntervals : list nat
}.

Module Realtime.

(** [handlePresenceJoin(clubId, key, newPresences)]; a presence is known by
    its [user_id]. *)
Definition handlePresenceJoin (newPresences : list jsval) (st : State) : State :=
  foldl (fun s userId =>
           if negb (strict_eq userId (JStr (currentUserId s)))
           then emit (Notify MemberJoined) s else s)
        st newPresences.

(** [handlePresenceLeave(clubId, key, leftPresences)]: it logs. *)
Definition handlePresenceLeave (leftPresences : list jsval) (st : State) : State :=
  foldl (fun s _ => s) st leftPresences.

(** [clearInterval(id)] *)
Definition clearInterval (id : nat) (running : list nat) : list nat :=
  filter (fun i => i ≠ id) running.

(** [startHeartbeat()]; [fresh] is the id [setInterval] returns: a positive
    number in a browser, hence truthy in [if (this.heartbeatInterval)]. *)
Definition startHeartbeat (fresh : nat) (m : Manager) : Manager :=
  let running :=
    match heartbeatInterval m with
    | Some id => clearInterval id (runningIntervals m)
    | None => runningIntervals m
    end in
  mkManager (base m) (Some fresh) (running ++ [fresh]).

(** The first loop of [cleanup]: [unsubscribeFromBookClub] for every key of
    the registry; [envs] gives the environment of each call. *)
Definition unsubscribe_all (envs : string → Env) (st : State) : State :=
  foldl (fun s clubId => (RealtimeManager.unsubscribeFromBookClub (envs clubId) clubId s).2)
        st (RealtimeManager.activeClubs st).

(** The second loop: [cleanupPresenceTracking] for every key left in
    [presenceChannels]. It has no [try]: the flag tells whether the loop ran
    to its end. *)
Definition cleanup_presence (envs : string → Env) (st : State) : bool * State :=
  foldl (fun (acc : bool * State) clubId =>
           if acc.1 then
             match RealtimeManager.cleanupPresenceTracking (envs clubId) clubId acc.2 with
             | Some s => (true, s)
             | None => (false, acc.2)
             end
           else acc)
        (true, st) (map_to_list (presenceChannels st)).*1.

(** [cleanup()]; the flag is [false] when an exception left it early. *)
Definition cleanup (envs : string → Env) (m : Manager) : bool * Manager :=
  let st1 := unsubscribe_all envs (base m) in
  let '(finished, st2) := cleanup_presence envs st1 in
  if finished then
    let running :=
      match heartbeatInterval m with
      | Some id => clearInterval id (runningIntervals m)
      | None => runningIntervals m
      end in
    let st3 := with_connectionState cs_disconnected st2 in
    let st4 := with_reconnectAttempts 0 st3 in
    let st5 := with_lastUpdate (fun _ => ∅) st4 in
    (true, mkManager st5 None running)
  else (false, mkManager st2 (heartbeatInterval m) (runningIntervals m)).

End Realtime.

(** ** Vocabulary of the further properties *)

(** The access test of [handleClubInsertOrUpdate]. *)
Definition row_access (st : State) (row : Row) : bool :=
  strict_eq (r_user_id row) (JStr (currentUserId st))
  || match r_shared_users row with
     | Some users => JS.has users (currentUserId st)
     | None => false
     end.

(** What unsubscribing leaves alone. *)
Definition same_but_channels (st st' : State) : Prop :=
  bookClubs st' = bookClubs st
  ∧ currentClubId st' = currentClubId st
  ∧ currentUserId st' = currentUserId st
  ∧ collaborative st' = collaborative st
  ∧ connectionState st' = connectionState st
  ∧ reconnectAttempts st' = reconnectAttempts st
  ∧ lastUpdate st' = lastUpdate st
  ∧ timers st' = timers st.

(** The registry holds no club but the one in view. *)
Definition registry_follows_view (st : State) : Prop :=
  ∀ clubId, is_Some (subscriptions st !! clubId) → currentClubId st = JStr clubId ∧ clubId ≠ "".

(** Every club is stored under its own id. *)
Definition stored_under_own_id (st : State) : Prop :=
  ∀ key club, bookClubs st !! key = Some club → to_key (c_id club) = key.

(** No call of the client library throws. *)
Definition no_exception (env : Env) : Prop :=
  channel_throws env = false ∧ presence_throws env = false
  ∧ unsubscribe_throws env = false ∧ presence_unsubscribe_throws env = false.

(** * Properties *)

(** ** Sets as insertion-ordered lists *)

Section SetLemmas.

Implicit Types (l acc : list string) (x y : string).

Lemma elem_of_uniq x l : x ∈ uniq l ↔ x ∈ l.
Proof.
  induction l as [|a l IH]; simpl; [done|].
  rewrite !elem_of_cons, list_elem_of_filter, IH.
  destruct (decide (x = a)); tauto.
Qed.

Lemma NoDup_uniq l : NoDup (uniq l).
Proof.
  induction l as [|a l IH]; simpl; [constructor|].
  constructor; [|by apply NoDup_filter].
  rewrite list_elem_of_filter. by intros [? _].
Qed.

Lemma filter_all (P : string → Prop) `{!∀ y, Decision (P y)} l :
  (∀ y, y ∈ l → P y) → filter P l = l.
Proof.
  induction l as [|a l IH]; intros Hall; [done|].
  rewrite filter_cons_True by (apply Hall; left).
  f_equal. apply IH. intros y Hy. apply Hall. by right.
Qed.

Lemma filter_none (P : string → Prop) `{!∀ y, Decision (P y)} l :
  (∀ y, y ∈ l → ¬ P y) → filter P l = [].
Proof.
  induction l as [|a l IH]; intros Hall; [done|].
  rewrite filter_cons_False by (apply Hall; left).
  apply IH. intros y Hy. apply Hall. by right.
Qed.

Lemma uniq_NoDup l : NoDup l → uniq l = l.
Proof.
  induction 1 as [|a l Hin Hnd IH]; simpl; [done|].
  rewrite IH. f_equal. apply filter_all. intros y Hy ->. done.
Qed.

Lemma uniq_app l1 l2 : uniq (l1 ++ l2) = union_in_order l1 l2.
Proof.
  unfold union_in_order. induction l1 as [|a l1 IH]; simpl.
  - symmetry. apply filter_all. intros y _. apply not_elem_of_nil.
  - f_equal. rewrite IH, filter_app. f_equal.
    rewrite list_filter_filter. apply list_filter_iff.
    intros y; simpl. rewrite not_elem_of_cons. tauto.
Qed.

(** Adding the values of [l] one by one to a set that holds [acc]. *)
Lemma foldl_set_add acc l :
  foldl set_add acc l = acc ++ filter (fun y => y ∉ acc) (uniq l).
Proof.
  revert acc. induction l as [|a l IH]; intros acc; simpl.
  - by rewrite app_nil_r.
  - rewrite IH. unfold set_add. case_bool_decide as Ha.
    + rewrite filter_cons_False by (by intros ?).
      f_equal. rewrite list_filter_filter. apply list_filter_iff.
      intros y; simpl. split; [|by intros [? _]].
      intros Hy. split; [done|]. by intros ->.
    + rewrite filter_cons_True by done.
      rewrite <- app_assoc. simpl. do 2 f_equal.
      rewrite list_filter_filter. apply list_filter_iff.
      intros y; simpl. rewrite not_elem_of_app, list_elem_of_singleton. tauto.
Qed.

Lemma new_Set_uniq l : new_Set l = uniq l.
Proof.
  unfold new_Set. rewrite foldl_set_add. simpl.
  apply filter_all. intros y _. apply not_elem_of_nil.
Qed.

Lemma new_Set_app l1 l2 : new_Set (l1 ++ l2) = union_in_order l1 l2.
Proof. by rewrite new_Set_uniq, uniq_app. Qed.

Lemma NoDup_new_Set l : NoDup (new_Set l).
Proof. rewrite new_Set_uniq. apply NoDup_uniq. Qed.

Lemma elem_of_new_Set x l : x ∈ new_Set l ↔ x ∈ l.
Proof. rewrite new_Set_uniq. apply elem_of_uniq. Qed.

(** Merging the result with the same remote list again changes nothing. *)
Lemma new_Set_absorb l1 l2 : new_Set (new_Set (l1 ++ l2) ++ l2) = new_Set (l1 ++ l2).
Proof.
  rewrite (new_Set_app (new_Set _)). unfold union_in_order.
  rewrite uniq_NoDup by apply NoDup_new_Set.
  rewrite filter_none; [by rewrite app_nil_r|].
  intros y Hy Hn. apply Hn. rewrite elem_of_new_Set, elem_of_app.
  right. by apply elem_of_uniq.
Qed.

(** The two merge orders hold the same values. *)
Lemma new_Set_app_comm l1 l2 : new_Set (l1 ++ l2) ≡ₚ new_Set (l2 ++ l1).
Proof.
  apply NoDup_Permutation; [apply NoDup_new_Set..|].
  intros x. rewrite !elem_of_new_Set, !elem_of_app. tauto.
Qed.

End SetLemmas.

(** ** Conflict detection *)

(** C1. For a notification whose [new] row is an entity that
    [appState.getBookClub] finds and whose [updated_at] is a valid time [t]:
    a watermark [w] of that id with [t < w] makes [detectConflict] return a
    [concurrent_modification] conflict; with no watermark, or with [w ≤ t],
    [detectConflict] returns normally and what it returns, if a conflict at
    all, is a [book_list_conflict]. *)
Theorem detectConflict_watermark
    (tnow : Z) (payload : Payload) (st : State) (remote : Row) (club : Club) (t : Z) :
  p_new payload = Some remote →
  AppState.getBookClub st (r_id remote) = Some club →
  r_updated_at remote = Some t →
  (∀ w, lastUpdate st !! r_id remote = Some w → t < w →
        RealtimeManager.detectConflict tnow payload st
        = Some (Some (mkConflict concurrent_modification club remote [] [] tnow)))
  ∧ (lastUpdate st !! r_id remote = None
     ∨ (∃ w, lastUpdate st !! r_id remote = Some w ∧ w ≤ t) →
     ∃ res, RealtimeManager.detectConflict tnow payload st = Some res
            ∧ ∀ c, res = Some c → type c = book_list_conflict).
Proof.
  intros Hnew Hclub Ht. unfold RealtimeManager.detectConflict.
  rewrite Hnew, Hclub, Ht. split.
  - intros w Hw Hlt. rewrite Hw.
    by rewrite bool_decide_eq_true_2.
  - intros Hfresh.
    assert (match lastUpdate st !! r_id remote with
            | Some l => bool_decide (t < l)
            | None => false
            end = false) as ->.
    { destruct Hfresh as [-> | (w & -> & Hle)]; [done|].
      apply bool_decide_eq_false_2. lia. }
    match goal with |- context [if ?b then _ else _] => destruct b end.
    + eexists. split; [done|]. by intros c [= <-].
    + eexists. split; [done|]. by intros c [=].
Qed.

Lemma detectConflict_watermark_witness :
  RealtimeManager.detectConflict 300
    (Scenario.update (Scenario.rowX ["A"] 100))
    (Scenario.viewing ["A"] {[ JStr "X" := 200 ]})
  = Some (Some (mkConflict concurrent_modification (Scenario.clubX ["A"])
                           (Scenario.rowX ["A"] 100) [] [] 300))
  ∧ ∃ res,
      RealtimeManager.detectConflict 300
        (Scenario.update (Scenario.rowX ["A"] 200))
        (Scenario.viewing ["A"] {[ JStr "X" := 200 ]}) = Some res
      ∧ ∀ c, res = Some c → type c = book_list_conflict.
Proof.
  split.
  - refine (proj1 (detectConflict_watermark 300 _ _ _ (Scenario.clubX ["A"]) 100 _ _ _)
              200 _ _); [reflexivity..|lia].
  - refine (proj2 (detectConflict_watermark 300 _ _ _ (Scenario.clubX ["A"]) 200 _ _ _) _);
      [reflexivity..|].
    right. exists 200. split; [reflexivity|lia].
Defined.

(** ** Self-echo suppression *)

(** C4. A notification whose [new] row carries the local user id as
    [user_id] leaves the whole state as it was: no merge, no store write, no
    watermark, no notice. *)
Theorem self_echo_is_dropped (tnow : Z) (payload : Payload) (st : State) (newRecord : Row) :
  p_new payload = Some newRecord →
  r_user_id newRecord = JStr (currentUserId st) →
  RealtimeManager.handleBookClubUpdate tnow payload st = st.
Proof.
  intros Hnew Hown. unfold RealtimeManager.handleBookClubUpdate.
  rewrite Hnew, Hown. unfold strict_eq. by rewrite bool_decide_eq_true_2.
Qed.

Lemma self_echo_is_dropped_witness :
  let echo := mkRow (JStr "X") (JStr "Renamed") (Some ["A"; "B"]) JNull (JStr "2024-01-01")
                    (Some 100) (JStr Scenario.me) None in
  let st := Scenario.viewing ["A"] ∅ in
  RealtimeManager.handleBookClubUpdate 300 (Scenario.update echo) st = st.
Proof.
  intros echo st.
  apply (self_echo_is_dropped 300 (Scenario.update echo) st echo); reflexivity.
Defined.

(** ** The store API *)

Section StoreLemmas.

Implicit Types (st : State) (club : Club) (clubId : jsval).

(** Up to which event it emits, [setBookClub] is one insertion. *)
Lemma setBookClub_normal clubId club st :
  ∃ e, AppState.setBookClub clubId club st
       = emit e (with_bookClubs
                   (fun m => <[to_key clubId := AppState.enhancedClubData st club]> m) st).
Proof. unfold AppState.setBookClub. destruct (negb _); eauto. Qed.

Lemma setBookClub_bookClubs clubId club st :
  bookClubs (AppState.setBookClub clubId club st)
  = <[to_key clubId := AppState.enhancedClubData st club]> (bookClubs st).
Proof. destruct (setBookClub_normal clubId club st) as [e ->]. done. Qed.

Lemma setBookClub_lastUpdate clubId club st :
  lastUpdate (AppState.setBookClub clubId club st) = lastUpdate st.
Proof. destruct (setBookClub_normal clubId club st) as [e ->]. done. Qed.

Lemma setBookClub_currentUserId clubId club st :
  currentUserId (AppState.setBookClub clubId club st) = currentUserId st.
Proof. destruct (setBookClub_normal clubId club st) as [e ->]. done. Qed.

Lemma enhancedClubData_books st club :
  c_books (AppState.enhancedClubData st club) = c_books club.
Proof. done. Qed.

Lemma getBookClub_Some st clubId club :
  AppState.getBookClub st clubId = Some club ↔
  bookClubs st !! to_key clubId = Some club ∧ UserManager.hasAccess st club = true.
Proof.
  unfold AppState.getBookClub.
  destruct (bookClubs st !! to_key clubId) as [c|]; [|split; [done|by intros [? _]]].
  destruct (UserManager.hasAccess st c) eqn:Hacc.
  - split; [by intros [= ->]|by intros [[= ->] _]].
  - split; [done|intros [[= ->] ?]; congruence].
Qed.

(** Whatever [setBookClub] stores is accessible to the viewer: a club with
    no owner gets the viewer as owner, and any other owner makes it shared.
    So [getBookClub] finds every club that was stored through it. *)
Lemma enhanced_accessible st st' club :
  currentUserId st' = currentUserId st →
  UserManager.hasAccess st' (AppState.enhancedClubData st club) = true.
Proof.
  intros Huid. unfold UserManager.hasAccess, UserManager.isOwner,
    UserManager.isSharedWithUser, AppState.enhancedClubData, JS.or, strict_eq; simpl.
  rewrite Huid. destruct (truthy (c_userId club)) eqn:Ht.
  - destruct (decide (c_userId club = JStr (currentUserId st))) as [Heq | Hne].
    + by rewrite !(bool_decide_eq_true_2 _ Heq).
    + rewrite !(bool_decide_eq_false_2 _ Hne). simpl.
      by destruct (c_isOwner club), (bool_decide (c_userId club = JUndef)).
  - by rewrite (bool_decide_eq_true_2 (JStr (currentUserId st) = JStr (currentUserId st))).
Qed.

Lemma getBookClub_setBookClub clubId club st :
  AppState.getBookClub (AppState.setBookClub clubId club st) clubId
  = Some (AppState.enhancedClubData st club).
Proof.
  apply getBookClub_Some. rewrite setBookClub_bookClubs, lookup_insert_eq.
  split; [done|]. apply enhanced_accessible, setBookClub_currentUserId.
Qed.

(** The local write path for one item refuses a value the list holds. *)
Lemma addBookToClub_NoDup clubId bookTitle st club club' :
  AppState.getBookClub st clubId = Some club →
  NoDup (c_books club) →
  bookClubs (AppState.addBookToClub clubId bookTitle st).2 !! to_key clubId = Some club' →
  NoDup (c_books club').
Proof.
  intros Hclub Hnd. unfold AppState.addBookToClub. rewrite Hclub.
  apply getBookClub_Some in Hclub as [Hlook _].
  unfold JS.has. case_bool_decide as Hin; simpl.
  - rewrite Hlook. by intros [= <-].
  - rewrite lookup_insert_eq. intros [= <-]. simpl.
    apply NoDup_app. split; [done|]. split; [|apply NoDup_singleton].
    intros x Hx Hx'. apply list_elem_of_singleton in Hx' as ->. done.
Qed.

End StoreLemmas.

(** ** Conflict resolution *)

(** C2 (amended). The entity [resolveConcurrentModification] writes, under
    the local club's id: its items are the local items in their order
    followed by the remote-only items in remote order, every value once; its
    name is the remote name; its selection is the remote one when that is
    truthy and the local one otherwise; its id and creation time stay the
    local ones, and its owner the local one or, for want of one, the viewer.
    The two access flags are not copied: [setBookClub] computes them anew
    from the local owner id and the local [isOwner] flag. *)
Theorem resolveConcurrentModification_written (conflict : Conflict) (st : State) :
  let l := localClub conflict in
  let r := remoteRecord conflict in
  ∃ written,
    bookClubs (RealtimeManager.resolveConcurrentModification conflict st) !! to_key (c_id l)
    = Some written
    ∧ c_books written = union_in_order (c_books l) (RealtimeManager.books_or_empty r)
    ∧ NoDup (c_books written)
    ∧ c_name written = r_name r
    ∧ c_currentSelection written
      = (if truthy (r_current_selection r) then r_current_selection r
         else c_currentSelection l)
    ∧ c_id written = c_id l
    ∧ c_createdAt written = c_createdAt l
    ∧ c_userId written = JS.or (c_userId l) (JStr (currentUserId st))
    ∧ c_isOwner written
      = (strict_eq (c_userId l) (JStr (currentUserId st)) || c_isOwner l)
    ∧ c_isShared written
      = (negb (strict_eq (c_userId l) (JStr (currentUserId st)))
         && negb (strict_eq (c_userId l) JUndef)).
Proof.
  intros l r. unfold RealtimeManager.resolveConcurrentModification. simpl.
  rewrite setBookClub_bookClubs, lookup_insert_eq.
  eexists. split; [done|]. simpl. unfold RealtimeManager.mergedBooks.
  fold l r. rewrite new_Set_app.
  repeat split. rewrite <- new_Set_app. apply NoDup_new_Set.
Qed.

(** C2, as stated, fails on the other scalar fields: the viewer's copy with
    a watermark newer than the row is merged, and the written entity has the
    remote name but the local creation time. *)
Lemma concurrent_merge_keeps_local_createdAt :
  let l := mkClub (JStr "X") (JStr "Evening readers") ["A"] JNull
                  (JStr "2024-01-01T00:00:00.000Z") (JStr Scenario.owner) false true in
  let r := mkRow (JStr "X") (JStr "Night readers") (Some ["B"]) JNull
                 (JStr "2024-01-01T00:00:00+00:00") (Some 100)
                 (JStr Scenario.owner) (Some [Scenario.me]) in
  let st := mkState {[ "X" := l ]} (JStr "X") Scenario.me true ∅ ∅ cs_connected 0%nat
                    {[ JStr "X" := 200 ]} [] [] in
  RealtimeManager.detectConflict 300 (Scenario.update r) st
  = Some (Some (mkConflict concurrent_modification l r [] [] 300))
  ∧ ∃ written,
      bookClubs (RealtimeManager.handleBookClubUpdate 300 (Scenario.update r) st) !! "X"
      = Some written
      ∧ c_name written = r_name r
      ∧ c_createdAt written = c_createdAt l
      ∧ c_createdAt written ≠ r_created_at r.
Proof.
  split; [reflexivity|].
  eexists. split; [vm_compute; reflexivity|].
  repeat split. intros [=].
Qed.

(** The access flags of the written entity are not those of the local one.
    A row without an owner id that lists the viewer is stored as a shared
    club under the viewer's id; when a stale row of the same id is merged
    into it, the written club is flagged as owned and no longer as shared. *)
Lemma concurrent_merge_recomputes_flags :
  let inserted := mkRow (JStr "X") (JStr "Evening readers") (Some ["A"]) JNull
                        (JStr "2024-01-01") (Some 100) JNull (Some [Scenario.me]) in
  let stale := mkRow (JStr "X") (JStr "Night readers") (Some ["B"]) JNull
                     (JStr "2024-01-01") (Some 50) JNull (Some [Scenario.me]) in
  let st1 := RealtimeManager.handleBookClubUpdate 200 (mkPayload INSERT (Some inserted) None)
               (initial Scenario.me) in
  let st2 := RealtimeManager.handleBookClubUpdate 300 (Scenario.update stale) st1 in
  ∃ l written,
    bookClubs st1 !! "X" = Some l
    ∧ RealtimeManager.detectConflict 300 (Scenario.update stale) st1
      = Some (Some (mkConflict concurrent_modification l stale [] [] 300))
    ∧ bookClubs st2 !! "X" = Some written
    ∧ c_books written = ["A"; "B"]
    ∧ (c_userId l, c_isOwner l, c_isShared l) = (JStr Scenario.me, false, true)
    ∧ (c_userId written, c_isOwner written, c_isShared written)
      = (JStr Scenario.me, true, false).
Proof.
  do 2 eexists. split; [vm_compute; reflexivity|].
  split; [vm_compute; reflexivity|].
  split; [vm_compute; reflexivity|].
  by repeat split.
Qed.

Section ResolverLemmas.

Implicit Types (st : State) (c : Conflict) (payload : Payload).

Lemma resolveConcurrentModification_bookClubs c st :
  bookClubs (RealtimeManager.resolveConcurrentModification c st)
  = <[to_key (c_id (localClub c)) :=
        AppState.enhancedClubData st
          (mkClub (c_id (localClub c)) (r_name (remoteRecord c))
                  (RealtimeManager.mergedBooks (localClub c) (remoteRecord c))
                  (JS.or (r_current_selection (remoteRecord c))
                         (c_currentSelection (localClub c)))
                  (c_createdAt (localClub c)) (c_userId (localClub c))
                  (c_isOwner (localClub c)) (c_isShared (localClub c)))]>
    (bookClubs st).
Proof.
  unfold RealtimeManager.resolveConcurrentModification. simpl.
  by rewrite setBookClub_bookClubs.
Qed.

Lemma resolveBookListConflict_bookClubs c st :
  bookClubs (RealtimeManager.resolveBookListConflict c st)
  = <[to_key (c_id (localClub c)) :=
        AppState.enhancedClubData st
          (mkClub (c_id (localClub c)) (c_name (localClub c))
                  (RealtimeManager.mergedBooks (localClub c) (remoteRecord c))
                  (c_currentSelection (localClub c))
                  (c_createdAt (localClub c)) (c_userId (localClub c))
                  (c_isOwner (localClub c)) (c_isShared (localClub c)))]>
    (bookClubs st).
Proof.
  unfold RealtimeManager.resolveBookListConflict. simpl.
  by rewrite setBookClub_bookClubs.
Qed.

Lemma resolveConflict_lastUpdate c st :
  lastUpdate (RealtimeManager.resolveConflict c st) = lastUpdate st.
Proof.
  unfold RealtimeManager.resolveConflict, RealtimeManager.resolveConcurrentModification,
    RealtimeManager.resolveBookListConflict.
  destruct (type c); simpl; apply setBookClub_lastUpdate.
Qed.

Lemma resolveConflict_currentUserId c st :
  currentUserId (RealtimeManager.resolveConflict c st) = currentUserId st.
Proof.
  unfold RealtimeManager.resolveConflict, RealtimeManager.resolveConcurrentModification,
    RealtimeManager.resolveBookListConflict.
  destruct (type c); simpl; apply setBookClub_currentUserId.
Qed.

(** What both resolvers write under the local club's id. *)
Lemma resolveConflict_written c st :
  ∃ written,
    bookClubs (RealtimeManager.resolveConflict c st) !! to_key (c_id (localClub c))
    = Some written
    ∧ c_books written = RealtimeManager.mergedBooks (localClub c) (remoteRecord c).
Proof.
  unfold RealtimeManager.resolveConflict. destruct (type c).
  - rewrite resolveConcurrentModification_bookClubs, lookup_insert_eq. eauto.
  - rewrite resolveBookListConflict_bookClubs, lookup_insert_eq. eauto.
Qed.

Lemma resolveConflict_other_keys c st k :
  k ≠ to_key (c_id (localClub c)) →
  bookClubs (RealtimeManager.resolveConflict c st) !! k = bookClubs st !! k.
Proof.
  intros Hk. unfold RealtimeManager.resolveConflict. destruct (type c).
  - by rewrite resolveConcurrentModification_bookClubs, lookup_insert_ne.
  - by rewrite resolveBookListConflict_bookClubs, lookup_insert_ne.
Qed.

Lemma hasAccess_same_user st st' club :
  currentUserId st' = currentUserId st →
  UserManager.hasAccess st' club = UserManager.hasAccess st club.
Proof.
  intros Huid. unfold UserManager.hasAccess, UserManager.isOwner,
    UserManager.isSharedWithUser. by rewrite Huid.
Qed.

Lemma handleBookClubUpdate_own tnow payload st :
  is_own payload st = true →
  RealtimeManager.handleBookClubUpdate tnow payload st = st.
Proof.
  unfold is_own, RealtimeManager.handleBookClubUpdate. by intros ->.
Qed.

(** A conflict found by [detectConflict] is resolved and nothing else is
    done. *)
Lemma handleBookClubUpdate_conflict tnow payload st c :
  is_own payload st = false →
  RealtimeManager.detectConflict tnow payload st = Some (Some c) →
  RealtimeManager.handleBookClubUpdate tnow payload st
  = RealtimeManager.resolveConflict c st.
Proof.
  unfold is_own, RealtimeManager.handleBookClubUpdate. intros -> Hdet.
  unfold RealtimeManager.dispatch. simpl. by rewrite Hdet.
Qed.

(** Where a [concurrent_modification] conflict comes from. *)
Lemma detectConflict_concurrent_inv tnow payload st c :
  RealtimeManager.detectConflict tnow payload st = Some (Some c) →
  type c = concurrent_modification →
  ∃ r club w t,
    p_new payload = Some r
    ∧ AppState.getBookClub st (r_id r) = Some club
    ∧ lastUpdate st !! r_id r = Some w
    ∧ r_updated_at r = Some t
    ∧ t < w
    ∧ c = mkConflict concurrent_modification club r [] [] tnow.
Proof.
  unfold RealtimeManager.detectConflict. intros Hdet Htype.
  destruct (p_new payload) as [r|]; [|done].
  destruct (AppState.getBookClub st (r_id r)) as [club|] eqn:Hclub; [|done].
  destruct (lastUpdate st !! r_id r) as [w|] eqn:Hw.
  - destruct (r_updated_at r) as [t|] eqn:Ht.
    + case_bool_decide as Hlt.
      * injection Hdet as <-. by exists r, club, w, t.
      * match type of Hdet with context [if ?b then _ else _] => destruct b end;
          [injection Hdet as <-; done | done].
    + match type of Hdet with context [if ?b then _ else _] => destruct b end;
        [injection Hdet as <-; done | done].
  - match type of Hdet with context [if ?b then _ else _] => destruct b end;
      [injection Hdet as <-; done | done].
Qed.

(** A notification that was merged as a concurrent modification is, when it
    arrives again, merged again into the same items. *)
Lemma redelivery_concurrent t1 t2 payload st c :
  RealtimeManager.detectConflict t1 payload st = Some (Some c) →
  type c = concurrent_modification →
  let st1 := RealtimeManager.handleBookClubUpdate t1 payload st in
  let st2 := RealtimeManager.handleBookClubUpdate t2 payload st1 in
  ∀ k, c_books <$> bookClubs st2 !! k = c_books <$> bookClubs st1 !! k.
Proof.
  intros Hdet Htype st1 st2 k.
  destruct (detectConflict_concurrent_inv _ _ _ _ Hdet Htype)
    as (r & club & w & t & Hnew & Hclub & Hw & Ht & Hlt & ->).
  destruct (is_own payload st) eqn:Hown.
  { subst st2 st1. rewrite (handleBookClubUpdate_own t1) by done.
    by rewrite (handleBookClubUpdate_own t2). }
  pose proof (handleBookClubUpdate_conflict _ _ _ _ Hown Hdet) as Hres.
  set (c1 := mkConflict concurrent_modification club r [] [] t1) in *.
  assert (currentUserId st1 = currentUserId st) as Huid.
  { subst st1. rewrite Hres. apply resolveConflict_currentUserId. }
  assert (lastUpdate st1 = lastUpdate st) as Hlast.
  { subst st1. rewrite Hres. apply resolveConflict_lastUpdate. }
  apply getBookClub_Some in Hclub as [Hlook Hacc].
  change (RealtimeManager.resolveConflict c1 st)
    with (RealtimeManager.resolveConcurrentModification c1 st) in Hres.
  pose proof (resolveConcurrentModification_bookClubs c1 st) as Hbc1.
  rewrite <- Hres in Hbc1. fold st1 in Hbc1. simpl in Hbc1.
  set (merged := mkClub _ _ _ _ _ _ _ _) in Hbc1.
  (* the club the second delivery finds *)
  assert (∃ club',
            AppState.getBookClub st1 (r_id r) = Some club'
            ∧ c_id club' = c_id club
            ∧ RealtimeManager.mergedBooks club' r = RealtimeManager.mergedBooks club r)
    as (club' & Hclub' & Hid & Hmerged).
  { destruct (decide (to_key (r_id r) = to_key (c_id club))) as [Heq | Hne].
    - exists (AppState.enhancedClubData st merged). split; [|split].
      + apply getBookClub_Some. rewrite Hbc1, Heq, lookup_insert_eq. split; [done|].
        by apply enhanced_accessible.
      + done.
      + unfold RealtimeManager.mergedBooks at 1. simpl.
        apply new_Set_absorb.
    - exists club. split; [|done].
      apply getBookClub_Some. rewrite Hbc1, lookup_insert_ne by done.
      split; [done|]. by rewrite (hasAccess_same_user st st1). }
  assert (RealtimeManager.detectConflict t2 payload st1
          = Some (Some (mkConflict concurrent_modification club' r [] [] t2))) as Hdet2.
  { unfold RealtimeManager.detectConflict.
    rewrite Hnew, Hclub', Hlast, Hw, Ht. by rewrite bool_decide_eq_true_2. }
  assert (is_own payload st1 = false) as Hown1.
  { revert Hown. unfold is_own. by rewrite Huid. }
  pose proof (handleBookClubUpdate_conflict _ _ _ _ Hown1 Hdet2) as Hres2.
  subst st2. rewrite Hres2.
  change (RealtimeManager.resolveConflict ?c st1)
    with (RealtimeManager.resolveConcurrentModification c st1).
  rewrite resolveConcurrentModification_bookClubs. simpl. rewrite Hid, Hmerged.
  destruct (decide (k = to_key (c_id club))) as [-> | Hk].
  - rewrite lookup_insert_eq, Hbc1, lookup_insert_eq. done.
  - by rewrite lookup_insert_ne.
Qed.

End ResolverLemmas.

(** C3 (amended). Merging [["A";"B"]] (local) with [["B";"C"]] (remote)
    gives exactly [["A";"B";"C"]]; merging the result with the same remote
    list again gives the same list; with the two lists in the other roles
    the merged list holds the same values (in another order). Both resolvers
    write the merged list; resolving the same conflict a second time leaves
    the store as the first resolution left it; and a notification that was
    merged as a concurrent modification, delivered again, leaves the items of
    every stored entity as the first delivery left them. *)
Theorem merging_is_idempotent :
  (∀ l r, c_books l = ["A"; "B"] → r_books r = Some ["B"; "C"] →
          RealtimeManager.mergedBooks l r = ["A"; "B"; "C"])
  ∧ (∀ l r l', c_books l' = RealtimeManager.mergedBooks l r →
               RealtimeManager.mergedBooks l' r = RealtimeManager.mergedBooks l r)
  ∧ (∀ l r l' r',
       c_books l' = RealtimeManager.books_or_empty r →
       RealtimeManager.books_or_empty r' = c_books l →
       RealtimeManager.mergedBooks l' r' ≡ₚ RealtimeManager.mergedBooks l r)
  ∧ (∀ c st, ∃ written,
       bookClubs (RealtimeManager.resolveConflict c st) !! to_key (c_id (localClub c))
       = Some written
       ∧ c_books written = RealtimeManager.mergedBooks (localClub c) (remoteRecord c))
  ∧ (∀ c st,
       bookClubs (RealtimeManager.resolveConflict c (RealtimeManager.resolveConflict c st))
       = bookClubs (RealtimeManager.resolveConflict c st))
  ∧ (∀ t1 t2 payload st c,
       RealtimeManager.detectConflict t1 payload st = Some (Some c) →
       type c = concurrent_modification →
       ∀ k,
         c_books <$> bookClubs (RealtimeManager.handleBookClubUpdate t2 payload
                                  (RealtimeManager.handleBookClubUpdate t1 payload st)) !! k
         = c_books <$> bookClubs (RealtimeManager.handleBookClubUpdate t1 payload st) !! k).
Proof.
  split; [|split; [|split; [|split; [|split]]]].
  - intros l r Hl Hr. unfold RealtimeManager.mergedBooks, RealtimeManager.books_or_empty.
    by rewrite Hl, Hr.
  - intros l r l' Hl'. unfold RealtimeManager.mergedBooks at 1. rewrite Hl'.
    apply new_Set_absorb.
  - intros l r l' r' Hl' Hr'. unfold RealtimeManager.mergedBooks.
    rewrite Hl', Hr'. apply new_Set_app_comm.
  - intros c st. apply resolveConflict_written.
  - intros c st.
    pose proof (resolveConflict_currentUserId c st) as Huid.
    unfold RealtimeManager.resolveConflict in *. destruct (type c).
    + rewrite !resolveConcurrentModification_bookClubs.
      unfold AppState.enhancedClubData. rewrite Huid. apply insert_insert_eq.
    + rewrite !resolveBookListConflict_bookClubs.
      unfold AppState.enhancedClubData. rewrite Huid. apply insert_insert_eq.
  - intros t1 t2 payload st c Hdet Htype k.
    exact (redelivery_concurrent t1 t2 payload st c Hdet Htype k).
Qed.

Lemma merging_is_idempotent_witness :
  RealtimeManager.mergedBooks (Scenario.clubX ["A"; "B"]) (Scenario.rowX ["B"; "C"] 100)
  = ["A"; "B"; "C"]
  ∧ ∀ k,
      c_books <$> bookClubs
        (RealtimeManager.handleBookClubUpdate 400 (Scenario.update (Scenario.rowX ["B"; "C"] 100))
           (RealtimeManager.handleBookClubUpdate 300
              (Scenario.update (Scenario.rowX ["B"; "C"] 100))
              (Scenario.viewing ["A"; "B"] {[ JStr "X" := 200 ]}))) !! k
      = c_books <$> bookClubs
          (RealtimeManager.handleBookClubUpdate 300
             (Scenario.update (Scenario.rowX ["B"; "C"] 100))
             (Scenario.viewing ["A"; "B"] {[ JStr "X" := 200 ]})) !! k.
Proof.
  destruct merging_is_idempotent as (Hex & _ & _ & _ & _ & Hredelivery).
  split.
  - apply Hex; reflexivity.
  - apply (Hredelivery 300 400 _ _
             (mkConflict concurrent_modification (Scenario.clubX ["A"; "B"])
                         (Scenario.rowX ["B"; "C"] 100) [] [] 300)); reflexivity.
Defined.

(** C3, as stated, fails twice. With the lists in the other roles the merged
    list is [["B";"C";"A"]]. And when the first delivery was merged as a
    book-list conflict, the same notification delivered again is no conflict
    any more and is applied as it is: the merged items [["A";"B";"C"]]
    become [["B";"C"]]. *)
Lemma merge_order_and_redelivery_matter :
  RealtimeManager.mergedBooks (Scenario.clubX ["B"; "C"]) (Scenario.rowX ["A"; "B"] 100)
  = ["B"; "C"; "A"]
  ∧ let notification := Scenario.update (Scenario.rowX ["B"; "C"] 100) in
    let st := Scenario.viewing ["A"; "B"] ∅ in
    let st1 := RealtimeManager.handleBookClubUpdate 300 notification st in
    let st2 := RealtimeManager.handleBookClubUpdate 400 notification st1 in
    RealtimeManager.detectConflict 300 notification st
    = Some (Some (mkConflict book_list_conflict (Scenario.clubX ["A"; "B"])
                             (Scenario.rowX ["B"; "C"] 100) ["A"] ["C"] 300))
    ∧ c_books <$> bookClubs st1 !! "X" = Some ["A"; "B"; "C"]
    ∧ RealtimeManager.detectConflict 400 notification st1 = Some None
    ∧ c_books <$> bookClubs st2 !! "X" = Some ["B"; "C"].
Proof. vm_compute. repeat split. Qed.

(** ** Reconnection with backoff *)

Section BackoffLemmas.

Implicit Types (st : State) (clubId : string) (status : Status).

Lemma attemptReconnect_below clubId st :
  (reconnectAttempts st < RealtimeManager.maxReconnectAttempts)%nat →
  reconnectAttempts (RealtimeManager.attemptReconnect clubId st) = S (reconnectAttempts st)
  ∧ timers (RealtimeManager.attemptReconnect clubId st)
    = timers st ++ [mkTimer (Reconnect clubId)
                            (RealtimeManager.reconnectDelay * pow2 (reconnectAttempts st))]
  ∧ trace (RealtimeManager.attemptReconnect clubId st) = trace st.
Proof.
  intros Hlt. unfold RealtimeManager.attemptReconnect.
  rewrite bool_decide_eq_false_2 by lia. simpl.
  by rewrite Nat.sub_0_r.
Qed.

Lemma attemptReconnect_exhausted clubId st :
  (RealtimeManager.maxReconnectAttempts ≤ reconnectAttempts st)%nat →
  RealtimeManager.attemptReconnect clubId st = emit (Notify UnableToReconnect) st.
Proof.
  intros Hle. unfold RealtimeManager.attemptReconnect.
  by rewrite bool_decide_eq_true_2.
Qed.

(** One failure below the cap: one more attempt, one more timer. *)
Lemma failure_below clubId status st :
  is_failure status →
  (reconnectAttempts st < RealtimeManager.maxReconnectAttempts)%nat →
  let st' := RealtimeManager.handleSubscriptionStatus clubId status st in
  reconnectAttempts st' = S (reconnectAttempts st)
  ∧ timers st' = timers st ++ [mkTimer (Reconnect clubId)
                                 (RealtimeManager.reconnectDelay * pow2 (reconnectAttempts st))].
Proof.
  intros [-> | ->] Hlt; simpl; unfold RealtimeManager.handleSubscriptionError.
  - match goal with |- context [RealtimeManager.attemptReconnect _ ?s] =>
      destruct (attemptReconnect_below clubId s) as (Hn & Ht & _); [done|]
    end.
    by rewrite Hn, Ht.
  - match goal with |- context [RealtimeManager.attemptReconnect _ ?s] =>
      destruct (attemptReconnect_below clubId s) as (Hn & Ht & _); [done|]
    end.
    by rewrite Hn, Ht.
Qed.

(** One failure at the cap: no timer, and the terminal notice comes last. *)
Lemma failure_exhausted clubId status st :
  is_failure status →
  (RealtimeManager.maxReconnectAttempts ≤ reconnectAttempts st)%nat →
  let st' := RealtimeManager.handleSubscriptionStatus clubId status st in
  reconnectAttempts st' = reconnectAttempts st
  ∧ timers st' = timers st
  ∧ last (trace st') = Some (Notify UnableToReconnect).
Proof.
  intros [-> | ->] Hle; simpl; unfold RealtimeManager.handleSubscriptionError;
    rewrite attemptReconnect_exhausted by done; simpl;
    by rewrite last_snoc.
Qed.

End BackoffLemmas.

(** C5 (amended). The attempt counter is one counter of the manager, 0 when
    the manager is constructed. Below the cap of five, a retry is scheduled
    after [reconnectDelay * 2^(attempt-1)] ms, [attempt] being the counter
    after its increment. From a counter at 0, five consecutive
    failures (channel errors or timeouts, of whatever clubs) schedule five
    retries with delays 1000, 2000, 4000, 8000 and 16000 ms, each for the club
    that failed; a sixth failure schedules nothing and ends with the
    terminal notice; and a SUBSCRIBED status of any club sets the counter to
    0. *)
Theorem backoff_policy :
  (∀ uid, reconnectAttempts (initial uid) = 0%nat)
  ∧ (∀ st clubId,
       (reconnectAttempts st < RealtimeManager.maxReconnectAttempts)%nat →
       let st' := RealtimeManager.attemptReconnect clubId st in
       timers st'
       = timers st ++ [mkTimer (Reconnect clubId)
                               (RealtimeManager.reconnectDelay
                                * 2 ^ (Z.of_nat (reconnectAttempts st') - 1))])
  ∧ (∀ st calls,
       reconnectAttempts st = 0%nat →
       length calls = 5%nat →
       Forall (fun call => is_failure call.2) calls →
       let st5 := statuses calls st in
       timers st5
       = timers st ++ zip_with (fun call d => mkTimer (Reconnect call.1) d) calls
                               [1000; 2000; 4000; 8000; 16000]
       ∧ ∀ clubId status,
           is_failure status →
           let st6 := RealtimeManager.handleSubscriptionStatus clubId status st5 in
           timers st6 = timers st5
           ∧ last (trace st6) = Some (Notify UnableToReconnect))
  ∧ (∀ st clubId,
       reconnectAttempts (RealtimeManager.handleSubscriptionStatus clubId SUBSCRIBED st)
       = 0%nat).
Proof.
  split; [done|]. split; [|split; [|done]].
  { intros st clubId Hlt.
    destruct (attemptReconnect_below clubId st Hlt) as (Hn & Ht & _).
    simpl. rewrite Ht, Hn. unfold pow2.
    by replace (Z.of_nat (S (reconnectAttempts st)) - 1)
      with (Z.of_nat (reconnectAttempts st)) by lia. }
  intros st calls H0 Hlen Hfail.
  destruct calls as [|[c1 s1] [|[c2 s2] [|[c3 s3] [|[c4 s4] [|[c5 s5] [|]]]]]]; try done.
  apply Forall_cons in Hfail as [Hf1 Hfail].
  apply Forall_cons in Hfail as [Hf2 Hfail].
  apply Forall_cons in Hfail as [Hf3 Hfail].
  apply Forall_cons in Hfail as [Hf4 Hfail].
  apply Forall_cons in Hfail as [Hf5 _].
  unfold statuses. simpl foldl. simpl in Hf1, Hf2, Hf3, Hf4, Hf5.
  set (st1 := RealtimeManager.handleSubscriptionStatus c1 s1 st).
  set (st2 := RealtimeManager.handleSubscriptionStatus c2 s2 st1).
  set (st3 := RealtimeManager.handleSubscriptionStatus c3 s3 st2).
  set (st4 := RealtimeManager.handleSubscriptionStatus c4 s4 st3).
  set (st5 := RealtimeManager.handleSubscriptionStatus c5 s5 st4).
  unfold RealtimeManager.maxReconnectAttempts in *.
  destruct (failure_below c1 s1 st Hf1) as [Hn1 Ht1];
    [unfold RealtimeManager.maxReconnectAttempts; lia|]. fold st1 in Hn1, Ht1.
  destruct (failure_below c2 s2 st1 Hf2) as [Hn2 Ht2];
    [unfold RealtimeManager.maxReconnectAttempts; lia|]. fold st2 in Hn2, Ht2.
  destruct (failure_below c3 s3 st2 Hf3) as [Hn3 Ht3];
    [unfold RealtimeManager.maxReconnectAttempts; lia|]. fold st3 in Hn3, Ht3.
  destruct (failure_below c4 s4 st3 Hf4) as [Hn4 Ht4];
    [unfold RealtimeManager.maxReconnectAttempts; lia|]. fold st4 in Hn4, Ht4.
  destruct (failure_below c5 s5 st4 Hf5) as [Hn5 Ht5];
    [unfold RealtimeManager.maxReconnectAttempts; lia|]. fold st5 in Hn5, Ht5.
  split.
  - rewrite Ht5, Ht4, Ht3, Ht2, Ht1, Hn4, Hn3, Hn2, Hn1, H0.
    rewrite <- !app_assoc. reflexivity.
  - intros clubId status Hf.
    destruct (failure_exhausted clubId status st5 Hf) as (_ & Ht6 & Hlast);
      [unfold RealtimeManager.maxReconnectAttempts; lia|].
    done.
Qed.

Lemma backoff_policy_witness :
  let calls := [("X", CHANNEL_ERROR); ("X", TIMED_OUT); ("X", CHANNEL_ERROR);
                ("X", CHANNEL_ERROR); ("X", TIMED_OUT)] in
  let st5 := statuses calls (initial Scenario.me) in
  map delay (timers st5) = [1000; 2000; 4000; 8000; 16000]
  ∧ timers (RealtimeManager.handleSubscriptionStatus "X" CHANNEL_ERROR st5) = timers st5
  ∧ last (trace (RealtimeManager.handleSubscriptionStatus "X" CHANNEL_ERROR st5))
    = Some (Notify UnableToReconnect).
Proof.
  intros calls st5.
  destruct backoff_policy as (_ & _ & Hfive & _).
  assert (Forall (fun call : string * Status => is_failure call.2) calls) as Hfail.
  { repeat (apply Forall_cons; split; [unfold is_failure; simpl; auto|]).
    by apply Forall_nil. }
  destruct (Hfive (initial Scenario.me) calls eq_refl eq_refl Hfail) as [Htimers Hsixth].
  fold st5 in Htimers, Hsixth. split.
  - rewrite Htimers. reflexivity.
  - apply Hsixth. left. reflexivity.
Defined.

(** C5, as stated, fails on "per entity-subscription lifetime". Club ["X"]
    fails five times, each retry re-creating its channel; then club ["Y"] is
    subscribed for the first time and its channel times out: the counter is
    still 5, so the first failure of ["Y"] schedules no retry and ends with
    the terminal notice. *)
Lemma attempt_counter_is_shared :
  let retry := [EvStatus "X" CHANNEL_ERROR; EvTimer Scenario.env0 0] in
  let st := run ([EvInitialize true; EvSubscribe Scenario.env0 "X"]
                 ++ retry ++ retry ++ retry ++ retry
                 ++ [EvStatus "X" CHANNEL_ERROR; EvSubscribe Scenario.env0 "Y"])
                (initial Scenario.me) in
  let st' := RealtimeManager.handleSubscriptionStatus "Y" TIMED_OUT st in
  subscriptions st !! "Y" = Some (mkSubscription "book-club-Y" "Y" 1000 connecting)
  ∧ reconnectAttempts st = 5%nat
  ∧ map delay (timers st) = [16000]
  ∧ timers st' = timers st
  ∧ last (trace st') = Some (Notify UnableToReconnect).
Proof. vm_compute. repeat split. Qed.

(** ** Connectivity restored *)

Section RestoreLemmas.

Implicit Types (st : State) (env : Env).

Lemma subscribeToBookClub_registered env clubId st :
  is_Some (subscriptions st !! clubId) →
  (RealtimeManager.subscribeToBookClub env clubId st).2 = st.
Proof.
  intros Hin. unfold RealtimeManager.subscribeToBookClub.
  destruct (negb (SupabaseManager.isCollaborativeMode st)); [done|].
  by rewrite bool_decide_eq_true_2.
Qed.

Lemma resubscribe_registered env (clubIds : list string) st :
  Forall (fun clubId => is_Some (subscriptions st !! clubId)) clubIds →
  foldl (fun s clubId => (RealtimeManager.subscribeToBookClub env clubId s).2) st clubIds
  = st.
Proof.
  induction 1 as [|clubId clubIds Hin _ IH]; simpl; [done|].
  by rewrite subscribeToBookClub_registered.
Qed.

Lemma activeClubs_registered st :
  Forall (fun clubId => is_Some (subscriptions st !! clubId)) (RealtimeManager.activeClubs st).
Proof.
  apply Forall_forall. intros clubId Hin. unfold RealtimeManager.activeClubs in Hin.
  apply list_elem_of_fmap in Hin as [[k v] [-> Hin]].
  apply elem_of_map_to_list in Hin. simpl. eauto.
Qed.

(** For every registered club the call of [subscribeToBookClub] returns at
    its "already subscribed" test: the online event notifies, reloads and
    refreshes, and does nothing else. *)
Lemma handleConnectionRestored_normal env st :
  RealtimeManager.handleConnectionRestored env st
  = emit UpdateBookClubView
      (emit UpdateBookClubsList (emit LoadData (emit (Notify ConnectionRestored) st))).
Proof.
  unfold RealtimeManager.handleConnectionRestored.
  rewrite resubscribe_registered; [done|].
  apply (activeClubs_registered (emit (Notify ConnectionRestored) st)).
Qed.

End RestoreLemmas.

(** C6 (the code at the failing input). With ["X"] and ["Y"] subscribed, the
    online event creates no channel: the trace grows by the notice, one
    [loadData] and the two refreshes, and the registry still holds the
    channels made by the first subscriptions. *)
Theorem online_event_creates_no_channel :
  let st := run [EvInitialize true; EvSubscribe Scenario.env0 "X";
                 EvSubscribe Scenario.env0 "Y"] (initial Scenario.me) in
  let later := mkEnv 9000 false false false false in
  let st' := RealtimeManager.handleConnectionRestored later st in
  subscriptions st !! "X" = Some (mkSubscription "book-club-X" "X" 1000 connecting)
  ∧ subscriptions st !! "Y" = Some (mkSubscription "book-club-Y" "Y" 1000 connecting)
  ∧ trace st' = trace st ++ [Notify ConnectionRestored; LoadData;
                             UpdateBookClubsList; UpdateBookClubView]
  ∧ subscriptions st' = subscriptions st
  ∧ presenceChannels st' = presenceChannels st.
Proof.
  intros st later st'. subst st'. rewrite handleConnectionRestored_normal.
  vm_compute. repeat split.
Qed.

(** ** What the change dispatcher leaves alone *)

Section FrameLemmas.

Implicit Types (st : State).

Local Ltac registry := unfold same_registry; simpl; split_and!; congruence.

Lemma same_registry_refl st : same_registry st st.
Proof. by unfold same_registry. Qed.

Lemma same_registry_trans st1 st2 st3 :
  same_registry st1 st2 → same_registry st2 st3 → same_registry st1 st3.
Proof. unfold same_registry. intuition congruence. Qed.

Lemma setBookClub_registry clubId club st :
  same_registry st (AppState.setBookClub clubId club st).
Proof. destruct (setBookClub_normal clubId club st) as [e ->]. by unfold same_registry. Qed.

Lemma removeBookClub_registry clubId st :
  same_registry st (AppState.removeBookClub clubId st).2.
Proof.
  unfold AppState.removeBookClub, AppState.setCurrentClubId.
  repeat case_match; registry.
Qed.

Lemma resolveConflict_registry c st :
  same_registry st (RealtimeManager.resolveConflict c st).
Proof.
  unfold RealtimeManager.resolveConflict, RealtimeManager.resolveConcurrentModification,
    RealtimeManager.resolveBookListConflict.
  destruct (type c);
    match goal with |- context [AppState.setBookClub ?i ?d st] =>
      destruct (setBookClub_registry i d st) as (? & ? & ? & ? & ?)
    end; registry.
Qed.

Lemma handleClubInsertOrUpdate_registry u st st' :
  RealtimeManager.handleClubInsertOrUpdate u st = Some st' → same_registry st st'.
Proof.
  unfold RealtimeManager.handleClubInsertOrUpdate. destruct u as [u|]; [|done].
  match goal with |- context [AppState.setBookClub ?i ?d st] =>
    destruct (setBookClub_registry i d st) as (? & ? & ? & ? & ?)
  end.
  repeat case_match; intros [= <-]; registry.
Qed.

Lemma handleClubDelete_registry d st st' :
  RealtimeManager.handleClubDelete d st = Some st' → same_registry st st'.
Proof.
  unfold RealtimeManager.handleClubDelete. destruct d as [d|]; [|done].
  destruct (removeBookClub_registry (r_id d) st) as (? & ? & ? & ? & ?).
  repeat case_match; intros [= <-]; registry.
Qed.

Lemma handleBookClubUpdate_registry tnow payload st :
  same_registry st (RealtimeManager.handleBookClubUpdate tnow payload st).
Proof.
  unfold RealtimeManager.handleBookClubUpdate. case_match; [apply same_registry_refl|].
  destruct (RealtimeManager.dispatch tnow payload st) as [st'|] eqn:Hd;
    [|registry].
  unfold RealtimeManager.dispatch in Hd.
  destruct (if RealtimeManager.conflictResolutionEnabled
            then RealtimeManager.detectConflict tnow payload st else Some None)
    as [[c|]|]; [| |done].
  - injection Hd as <-. apply resolveConflict_registry.
  - destruct (eventType payload).
    + destruct (RealtimeManager.handleClubInsertOrUpdate (p_new payload) st) as [s|] eqn:H1;
        [|done].
      injection Hd as <-. apply handleClubInsertOrUpdate_registry in H1.
      destruct H1 as (? & ? & ? & ? & ?). registry.
    + destruct (RealtimeManager.handleClubInsertOrUpdate (p_new payload) st) as [s|] eqn:H1;
        [|done].
      injection Hd as <-. apply handleClubInsertOrUpdate_registry in H1.
      destruct H1 as (? & ? & ? & ? & ?). registry.
    + destruct (RealtimeManager.handleClubDelete (p_old payload) st) as [s|] eqn:H1; [|done].
      injection Hd as <-. apply handleClubDelete_registry in H1.
      destruct H1 as (? & ? & ? & ? & ?). registry.
    + injection Hd as <-. registry.
Qed.

End FrameLemmas.

(** ** Remote deletes *)

Section DeleteLemmas.

Implicit Types (st : State) (deleted : Row) (club : Club).

(** An entity [getBookClub] does not find: nothing happens. *)
Lemma handleClubDelete_absent deleted st :
  AppState.getBookClub st (r_id deleted) = None →
  RealtimeManager.handleClubDelete (Some deleted) st = Some st.
Proof. intros Habs. unfold RealtimeManager.handleClubDelete. by rewrite Habs. Qed.

(** An entity the viewer owns: it leaves the store (unless it is stored
    under ['__proto__'], where [delete] removes nothing); if it was in view,
    the view is cleared through [setCurrentClubId(null)], and the test that
    follows in [handleClubDelete] no longer sees it in view. *)
Lemma handleClubDelete_owned deleted club st :
  AppState.getBookClub st (r_id deleted) = Some club →
  UserManager.isOwner st club = true →
  r_id deleted ≠ JNull →
  ∃ st',
    RealtimeManager.handleClubDelete (Some deleted) st = Some st'
    ∧ bookClubs st'
      = (if decide (to_key (r_id deleted) = "__proto__") then bookClubs st
         else delete (to_key (r_id deleted)) (bookClubs st))
    ∧ timers st' = timers st
    ∧ (currentClubId st = r_id deleted →
       currentClubId st' = JNull
       ∧ trace st' = trace st ++ [EmitClubRemoved (to_key (r_id deleted));
                                  EmitCurrentClubChanged (r_id deleted) JNull;
                                  UpdateBookClubsList; SaveToLocalStorage]).
Proof.
  intros Hclub Hown Hid. unfold RealtimeManager.handleClubDelete. rewrite Hclub.
  apply getBookClub_Some in Hclub as [Hlook _].
  unfold AppState.removeBookClub. rewrite Hlook, Hown. cbn [negb snd].
  unfold strict_eq. destruct (decide (currentClubId st = r_id deleted)) as [Hcur | Hcur].
  - cbn [emit currentClubId with_bookClubs].
    rewrite (bool_decide_eq_true_2 _ Hcur).
    cbn [AppState.setCurrentClubId emit with_currentClubId currentClubId].
    rewrite bool_decide_eq_false_2 by done.
    eexists. split; [done|]. simpl. rewrite Hcur.
    repeat split. by rewrite <- !app_assoc.
  - cbn [emit currentClubId with_bookClubs].
    rewrite (bool_decide_eq_false_2 _ Hcur).
    cbn [emit currentClubId with_bookClubs].
    rewrite (bool_decide_eq_false_2 _ Hcur).
    eexists. split; [done|]. simpl. split; [done|]. split; [done|]. by intros ?.
Qed.

(** A DELETE whose [new] is null does not get as far as [handleClubDelete]:
    [detectConflict] reads [remoteRecord.id] and the dispatcher ends in
    [handleUpdateError]. (An empty object as [new] passes.) *)
Lemma delete_without_new_row tnow deleted st :
  RealtimeManager.handleBookClubUpdate tnow (mkPayload DELETE None (Some deleted)) st
  = RealtimeManager.handleUpdateError st.
Proof. done. Qed.

Lemma delete_with_empty_new_row tnow deleted st :
  bookClubs st !! "undefined" = None →
  RealtimeManager.dispatch tnow
    (mkPayload DELETE (Some (mkRow JUndef JUndef None JUndef JUndef None JUndef None))
               (Some deleted)) st
  = (fun s => with_lastUpdate (fun m => <[r_id deleted := tnow]> m) s)
      <$> RealtimeManager.handleClubDelete (Some deleted) st.
Proof.
  intros Hnone. unfold RealtimeManager.dispatch, RealtimeManager.detectConflict,
    AppState.getBookClub. simpl. rewrite Hnone. simpl.
  by destruct (AppState.getBookClub st (r_id deleted)).
Qed.

End DeleteLemmas.

(** C8 (the code on a shared view). For an entity [getBookClub] finds and
    the viewer does not own, [handleClubDelete] leaves the store as it is:
    [removeBookClub] refuses and its result is ignored. The list is still
    refreshed, and if the entity is in view the viewer is told it was deleted
    and [showHome] is scheduled. *)
Theorem remote_delete_keeps_shared_view (deleted : Row) (club : Club) (st : State) :
  AppState.getBookClub st (r_id deleted) = Some club →
  UserManager.isOwner st club = false →
  ∃ st',
    RealtimeManager.handleClubDelete (Some deleted) st = Some st'
    ∧ bookClubs st' = bookClubs st
    ∧ AppState.getBookClub st' (r_id deleted) = Some club
    ∧ (currentClubId st = r_id deleted →
       trace st' = trace st ++ [UpdateBookClubsList; Notify ClubDeletedByOwner;
                                SaveToLocalStorage]
       ∧ timers st' = timers st ++ [mkTimer ShowHome 2000]).
Proof.
  intros Hclub Hown. unfold RealtimeManager.handleClubDelete. rewrite Hclub.
  pose proof Hclub as Hfound.
  apply getBookClub_Some in Hclub as [Hlook Hacc].
  unfold AppState.removeBookClub. rewrite Hlook, Hown. simpl.
  unfold strict_eq. destruct (decide (currentClubId st = r_id deleted)) as [Hcur | Hcur].
  - rewrite (bool_decide_eq_true_2 _ Hcur). eexists. split; [done|].
    simpl. split; [done|]. split; [exact Hfound|].
    intros _. split; [|done]. by rewrite <- !app_assoc.
  - rewrite (bool_decide_eq_false_2 _ Hcur). eexists. split; [done|].
    simpl. split; [done|]. split; [exact Hfound|]. done.
Qed.

Lemma remote_delete_keeps_shared_view_witness :
  let st := Scenario.viewing ["A"; "B"] ∅ in
  ∃ st',
    RealtimeManager.handleClubDelete (Some (Scenario.rowX ["A"; "B"] 100)) st = Some st'
    ∧ bookClubs st' = bookClubs st
    ∧ AppState.getBookClub st' (JStr "X") = Some (Scenario.clubX ["A"; "B"])
    ∧ (currentClubId st = JStr "X" →
       trace st' = trace st ++ [UpdateBookClubsList; Notify ClubDeletedByOwner;
                                SaveToLocalStorage]
       ∧ timers st' = timers st ++ [mkTimer ShowHome 2000]).
Proof.
  intros st.
  apply (remote_delete_keeps_shared_view (Scenario.rowX ["A"; "B"] 100)
           (Scenario.clubX ["A"; "B"]) st); reflexivity.
Defined.

(** ** The no-duplicate-items invariant *)

Section InvariantLemmas.

Implicit Types (st : State).

Lemma items_unique_same st st' :
  bookClubs st' = bookClubs st → items_unique st → items_unique st'.
Proof. unfold items_unique. by intros ->. Qed.

Lemma items_unique_insert st st' key club :
  bookClubs st' = <[key := club]> (bookClubs st) →
  NoDup (c_books club) → items_unique st → items_unique st'.
Proof.
  unfold items_unique. intros -> Hnd Hinv k c.
  rewrite lookup_insert. case_decide; [by intros [= <-]|apply Hinv].
Qed.

Lemma items_unique_delete st st' key :
  bookClubs st' = delete key (bookClubs st) → items_unique st → items_unique st'.
Proof.
  unfold items_unique. intros -> Hinv k c Hk.
  apply lookup_delete_Some in Hk as [_ Hk]. by eapply Hinv.
Qed.

Lemma setBookClub_items_unique clubId club st :
  NoDup (c_books club) → items_unique st →
  items_unique (AppState.setBookClub clubId club st).
Proof.
  intros Hnd. eapply items_unique_insert; [apply setBookClub_bookClubs|done].
Qed.

Lemma removeBookClub_items_unique clubId st :
  items_unique st → items_unique (AppState.removeBookClub clubId st).2.
Proof.
  unfold AppState.removeBookClub, AppState.setCurrentClubId.
  intros Hinv.
  repeat case_match; simpl; try done; by eapply items_unique_delete.
Qed.

(** Both merges write a list that a [Set] produced. *)
Lemma resolveConflict_items_unique c st :
  items_unique st → items_unique (RealtimeManager.resolveConflict c st).
Proof.
  unfold RealtimeManager.resolveConflict. destruct (type c).
  - eapply items_unique_insert; [apply resolveConcurrentModification_bookClubs|].
    apply NoDup_new_Set.
  - eapply items_unique_insert; [apply resolveBookListConflict_bookClubs|].
    apply NoDup_new_Set.
Qed.

(** The direct apply writes the row's list as it is. *)
Lemma handleClubInsertOrUpdate_items_unique u st st' :
  RealtimeManager.handleClubInsertOrUpdate (Some u) st = Some st' →
  NoDup (RealtimeManager.books_or_empty u) →
  items_unique st → items_unique st'.
Proof.
  unfold RealtimeManager.handleClubInsertOrUpdate. intros Hrun Hnd Hinv.
  match type of Hrun with context [AppState.setBookClub ?i ?d st] =>
    pose proof (setBookClub_items_unique i d st Hnd Hinv) as Hset
  end.
  revert Hrun. repeat case_match; intros [= <-]; done.
Qed.

Lemma handleClubDelete_items_unique d st st' :
  RealtimeManager.handleClubDelete d st = Some st' →
  items_unique st → items_unique st'.
Proof.
  unfold RealtimeManager.handleClubDelete. intros Hrun Hinv.
  destruct d as [d|]; [|done].
  pose proof (removeBookClub_items_unique (r_id d) st Hinv) as Hrem.
  revert Hrun. repeat case_match; intros [= <-]; done.
Qed.

End InvariantLemmas.

(** C9 (amended). The two merges keep every stored entity free of duplicate
    items, whatever the notification holds. The change dispatcher as a whole
    does so when the items of the notification's [new] row are themselves
    free of duplicates: the direct apply writes them as they are. *)
Theorem remote_writes_keep_items_unique :
  (∀ c st, items_unique st → items_unique (RealtimeManager.resolveConflict c st))
  ∧ (∀ tnow payload st,
       items_unique st →
       (∀ r, p_new payload = Some r → NoDup (RealtimeManager.books_or_empty r)) →
       items_unique (RealtimeManager.handleBookClubUpdate tnow payload st)).
Proof.
  split; [apply resolveConflict_items_unique|].
  intros tnow payload st Hinv Hremote.
  unfold RealtimeManager.handleBookClubUpdate. case_match; [done|].
  destruct (RealtimeManager.dispatch tnow payload st) as [st'|] eqn:Hd; [|done].
  unfold RealtimeManager.dispatch in Hd.
  destruct (if RealtimeManager.conflictResolutionEnabled
            then RealtimeManager.detectConflict tnow payload st else Some None)
    as [[c|]|]; [| |done].
  { injection Hd as <-. by apply resolveConflict_items_unique. }
  assert (∀ u s, p_new payload = Some u →
                 RealtimeManager.handleClubInsertOrUpdate (p_new payload) st = Some s →
                 items_unique s) as Happly.
  { intros u s Hu Hrun. rewrite Hu in Hrun.
    eapply handleClubInsertOrUpdate_items_unique; eauto. }
  destruct (eventType payload).
  - destruct (RealtimeManager.handleClubInsertOrUpdate (p_new payload) st) as [s|] eqn:H1;
      [|done].
    injection Hd as <-. destruct (p_new payload) as [u|] eqn:Hu; [|done].
    by apply (Happly u s).
  - destruct (RealtimeManager.handleClubInsertOrUpdate (p_new payload) st) as [s|] eqn:H1;
      [|done].
    injection Hd as <-. destruct (p_new payload) as [u|] eqn:Hu; [|done].
    by apply (Happly u s).
  - destruct (RealtimeManager.handleClubDelete (p_old payload) st) as [s|] eqn:H1; [|done].
    injection Hd as <-. by apply (handleClubDelete_items_unique _ _ _ H1).
  - by injection Hd as <-.
Qed.

Lemma remote_writes_keep_items_unique_witness :
  items_unique
    (RealtimeManager.handleBookClubUpdate 300
       (Scenario.update (Scenario.rowX ["A"; "B"; "C"] 100))
       (Scenario.viewing ["A"] ∅)).
Proof.
  apply (proj2 remote_writes_keep_items_unique).
  - intros key club Hlook. unfold Scenario.viewing in Hlook. simpl in Hlook.
    apply lookup_singleton_Some in Hlook as [_ <-]. simpl.
    apply NoDup_singleton.
  - intros r [= <-]. simpl. apply (bool_decide_unpack _). vm_compute. exact I.
Defined.

(** C9, as stated, fails on the direct apply. The stored entity has the
    single item ["A"]; the row lists ["B"] twice; nothing is local-only, so
    no conflict is found and the row's list is stored as it is. *)
Lemma direct_apply_stores_duplicates :
  let st := Scenario.viewing ["A"] ∅ in
  let notification := Scenario.update (Scenario.rowX ["A"; "B"; "B"] 100) in
  let st' := RealtimeManager.handleBookClubUpdate 300 notification st in
  items_unique st
  ∧ RealtimeManager.detectConflict 300 notification st = Some None
  ∧ c_books <$> bookClubs st' !! "X" = Some ["A"; "B"; "B"]
  ∧ ¬ items_unique st'.
Proof.
  intros st notification st'.
  assert (c_books <$> bookClubs st' !! "X" = Some ["A"; "B"; "B"]) as Hbooks
    by (vm_compute; reflexivity).
  split; [|split; [vm_compute; reflexivity|split; [exact Hbooks|]]].
  - intros key club Hlook. unfold st, Scenario.viewing in Hlook. simpl in Hlook.
    apply lookup_singleton_Some in Hlook as [_ <-]. simpl. apply NoDup_singleton.
  - intros Hinv. destruct (bookClubs st' !! "X") as [club|] eqn:Hclub; [|done].
    injection Hbooks as Hbooks. specialize (Hinv "X" club Hclub).
    rewrite Hbooks in Hinv. apply NoDup_cons in Hinv as [_ Hinv].
    apply NoDup_cons in Hinv as [Hin _]. apply Hin. left.
Qed.

(** ** The registry over runs *)

Section RegistryLemmas.

Implicit Types (st : State) (env : Env) (clubId : string).

Lemma attemptReconnect_registry clubId st :
  collaborative (RealtimeManager.attemptReconnect clubId st) = collaborative st
  ∧ subscriptions (RealtimeManager.attemptReconnect clubId st) = subscriptions st
  ∧ presenceChannels (RealtimeManager.attemptReconnect clubId st) = presenceChannels st.
Proof. unfold RealtimeManager.attemptReconnect. by case_bool_decide. Qed.

Lemma handleSubscriptionError_subscriptions clubId st :
  collaborative (RealtimeManager.handleSubscriptionError clubId st) = collaborative st
  ∧ subscriptions (RealtimeManager.handleSubscriptionError clubId st)
    = delete clubId (subscriptions st).
Proof.
  unfold RealtimeManager.handleSubscriptionError.
  match goal with |- context [RealtimeManager.attemptReconnect _ ?s] =>
    destruct (attemptReconnect_registry clubId s) as (-> & -> & _)
  end.
  done.
Qed.

Lemma setupPresenceTracking_subscriptions env clubId st :
  collaborative (RealtimeManager.setupPresenceTracking env clubId st) = collaborative st
  ∧ subscriptions (RealtimeManager.setupPresenceTracking env clubId st) = subscriptions st.
Proof. unfold RealtimeManager.setupPresenceTracking. by repeat case_match. Qed.

(** [subscribeToBookClub] touches no entry but that of its club. *)
Lemma subscribeToBookClub_other env c clubId st :
  c ≠ clubId →
  subscriptions (RealtimeManager.subscribeToBookClub env c st).2 !! clubId
  = subscriptions st !! clubId.
Proof.
  intros Hne. unfold RealtimeManager.subscribeToBookClub.
  repeat case_match; simpl; try done.
  - destruct (handleSubscriptionError_subscriptions c st) as [_ ->].
    by rewrite lookup_delete_ne.
  - match goal with |- context [RealtimeManager.setupPresenceTracking _ _ ?s] =>
      destruct (setupPresenceTracking_subscriptions env c s) as [_ ->]
    end.
    simpl. by rewrite lookup_insert_ne.
Qed.

Lemma subscribeToBookClub_collaborative env c st :
  collaborative (RealtimeManager.subscribeToBookClub env c st).2 = collaborative st.
Proof.
  unfold RealtimeManager.subscribeToBookClub.
  repeat case_match; simpl; try done.
  - by destruct (handleSubscriptionError_subscriptions c st) as [-> _].
  - match goal with |- context [RealtimeManager.setupPresenceTracking _ _ ?s] =>
      by destruct (setupPresenceTracking_subscriptions env c s) as [-> _]
    end.
Qed.

Lemma unsubscribeFromBookClub_subscriptions env c st :
  collaborative (RealtimeManager.unsubscribeFromBookClub env c st).2 = collaborative st
  ∧ (subscriptions (RealtimeManager.unsubscribeFromBookClub env c st).2 = subscriptions st
     ∨ subscriptions (RealtimeManager.unsubscribeFromBookClub env c st).2
       = delete c (subscriptions st)).
Proof.
  unfold RealtimeManager.unsubscribeFromBookClub, RealtimeManager.cleanupPresenceTracking.
  repeat case_match; simplify_eq; simpl; auto.
Qed.

Lemma handleSubscriptionStatus_subscriptions c status st :
  collaborative (RealtimeManager.handleSubscriptionStatus c status st) = collaborative st
  ∧ (subscriptions (RealtimeManager.handleSubscriptionStatus c status st)
     = alter (RealtimeManager.set_status status) c (subscriptions st)
     ∨ subscriptions (RealtimeManager.handleSubscriptionStatus c status st)
       = delete c (alter (RealtimeManager.set_status status) c (subscriptions st))).
Proof.
  destruct status; simpl; auto.
  - match goal with |- context [RealtimeManager.handleSubscriptionError _ ?s] =>
      destruct (handleSubscriptionError_subscriptions c s) as [-> ->]
    end.
    auto.
  - match goal with |- context [RealtimeManager.attemptReconnect _ ?s] =>
      destruct (attemptReconnect_registry c s) as (-> & -> & _)
    end.
    auto.
Qed.

Lemma checkConnectionHealth_registry probe_ok st :
  collaborative (RealtimeManager.checkConnectionHealth probe_ok st) = collaborative st
  ∧ subscriptions (RealtimeManager.checkConnectionHealth probe_ok st) = subscriptions st.
Proof.
  unfold RealtimeManager.checkConnectionHealth, RealtimeManager.handleConnectionHealthy,
    RealtimeManager.handleConnectionIssue.
  by repeat case_match.
Qed.

(** Without a call of [subscribeToBookClub(clubId)], a club that is not in
    the registry does not get into it. *)
Lemma step_keeps_unsubscribed clubId ev st :
  subscriptions st !! clubId = None →
  resubscribes clubId ev st = false →
  subscriptions (step ev st) !! clubId = None.
Proof.
  intros Hnone Hquiet. destruct ev as [created|env c|env c|c status|tnow payload|env i|env| |ok|clubs cur|uid];
    cbn [step]; simpl in Hquiet.
  - unfold SupabaseManager.initialize. by destruct created.
  - apply bool_decide_eq_false in Hquiet. by rewrite subscribeToBookClub_other.
  - destruct (unsubscribeFromBookClub_subscriptions env c st) as [_ [-> | ->]]; [done|].
    by apply lookup_delete_None; right.
  - destruct (handleSubscriptionStatus_subscriptions c status st) as [_ [-> | ->]].
    + by apply lookup_alter_None.
    + apply lookup_delete_None; right. by apply lookup_alter_None.
  - by destruct (handleBookClubUpdate_registry tnow payload st) as (_ & -> & _).
  - unfold RealtimeManager.fire. destruct (timers st !! i) as [[[c| |] d]|]; simpl in *.
    + apply bool_decide_eq_false in Hquiet. by rewrite subscribeToBookClub_other.
    + done.
    + done.
    + done.
  - by rewrite handleConnectionRestored_normal.
  - done.
  - by destruct (checkConnectionHealth_registry ok st) as [_ ->].
  - done.
  - done.
Qed.

Lemma run_keeps_unsubscribed clubId evs st :
  subscriptions st !! clubId = None →
  quiet clubId evs st →
  subscriptions (run evs st) !! clubId = None.
Proof.
  revert st. induction evs as [|ev evs IH]; intros st Hnone Hquiet; [done|].
  destruct Hquiet as [Hev Hrest]. unfold run. simpl.
  apply IH; [|done]. by apply step_keeps_unsubscribed.
Qed.

(** Collaborative mode, once on, stays on. *)
Lemma step_collaborative ev st :
  collaborative st = true → collaborative (step ev st) = true.
Proof.
  intros Hon. destruct ev as [created|env c|env c|c status|tnow payload|env i|env| |ok|clubs cur|uid];
    cbn [step].
  - unfold SupabaseManager.initialize. by destruct created.
  - by rewrite subscribeToBookClub_collaborative.
  - by destruct (unsubscribeFromBookClub_subscriptions env c st) as [-> _].
  - by destruct (handleSubscriptionStatus_subscriptions c status st) as [-> _].
  - by destruct (handleBookClubUpdate_registry tnow payload st) as (-> & _).
  - unfold RealtimeManager.fire. destruct (timers st !! i) as [[[c| |] d]|]; simpl; try done.
    by rewrite subscribeToBookClub_collaborative.
  - by rewrite handleConnectionRestored_normal.
  - done.
  - by destruct (checkConnectionHealth_registry ok st) as [-> _].
  - done.
  - done.
Qed.

(** Outside collaborative mode the registry is empty: only
    [subscribeToBookClub] fills it, and it returns at once. *)
Lemma step_registry_needs_collaborative ev st :
  collaborative st = true ∨ subscriptions st = ∅ →
  collaborative (step ev st) = true ∨ subscriptions (step ev st) = ∅.
Proof.
  intros [Hon | Hempty]; [left; by apply step_collaborative|].
  destruct (collaborative st) eqn:Hoff; [left; by apply step_collaborative|].
  destruct ev as [created|env c|env c|c status|tnow payload|env i|env| |ok|clubs cur|uid];
    cbn [step].
  - unfold SupabaseManager.initialize. destruct created; auto.
  - right. unfold RealtimeManager.subscribeToBookClub, SupabaseManager.isCollaborativeMode.
    by rewrite Hoff.
  - right. destruct (unsubscribeFromBookClub_subscriptions env c st) as [_ [-> | ->]]; [done|].
    rewrite Hempty. apply delete_empty.
  - right. destruct (handleSubscriptionStatus_subscriptions c status st) as [_ [-> | ->]];
      rewrite Hempty.
    + apply map_eq. intros k. by rewrite lookup_alter, !lookup_empty; case_decide.
    + apply map_eq. intros k.
      rewrite lookup_delete, lookup_alter, !lookup_empty. by repeat case_decide.
  - right. by destruct (handleBookClubUpdate_registry tnow payload st) as (_ & -> & _).
  - right. unfold RealtimeManager.fire.
    destruct (timers st !! i) as [[[c| |] d]|]; simpl; try done.
    unfold RealtimeManager.subscribeToBookClub, SupabaseManager.isCollaborativeMode.
    simpl. by rewrite Hoff.
  - right. by rewrite handleConnectionRestored_normal.
  - by right.
  - right. by destruct (checkConnectionHealth_registry ok st) as [_ ->].
  - by right.
  - by right.
Qed.

Lemma reachable_registry_needs_collaborative st :
  reachable st → collaborative st = true ∨ subscriptions st = ∅.
Proof.
  intros (uid & evs & ->). unfold run.
  induction evs as [|ev evs IH] using rev_ind; simpl; [by right|].
  rewrite foldl_app. simpl. by apply step_registry_needs_collaborative.
Qed.

End RegistryLemmas.

(** ** Unsubscribing *)

(** C7 (amended). After [unsubscribeFromBookClub(clubId)] has succeeded the
    registry and the presence channels hold no entry of [clubId], and the
    registry holds none after any run in which [subscribeToBookClub(clubId)]
    is not called. The pending timers are what they were: a reconnection
    timer of [clubId] set before the unsubscribe is still pending, and its
    firing is such a call. *)
Theorem unsubscribe_closes_until_resubscribed
    (env : Env) (clubId : string) (st st' : State) :
  RealtimeManager.unsubscribeFromBookClub env clubId st = (true, st') →
  subscriptions st' !! clubId = None
  ∧ presenceChannels st' !! clubId = None
  ∧ timers st' = timers st
  ∧ ∀ evs, quiet clubId evs st' → subscriptions (run evs st') !! clubId = None.
Proof.
  intros Hunsub.
  assert (subscriptions st' !! clubId = None
          ∧ presenceChannels st' !! clubId = None
          ∧ timers st' = timers st) as (Hsub & Hpres & Htimers).
  { revert Hunsub.
    unfold RealtimeManager.unsubscribeFromBookClub, RealtimeManager.cleanupPresenceTracking.
    repeat case_match; simplify_eq; intros [= <-]; simpl;
      rewrite ?lookup_delete_eq; done. }
  split; [done|]. split; [done|]. split; [done|].
  intros evs Hquiet. by apply run_keeps_unsubscribed.
Qed.

Lemma unsubscribe_closes_until_resubscribed_witness :
  let st := run [EvInitialize true; EvSubscribe Scenario.env0 "X";
                 EvStatus "X" TIMED_OUT] (initial Scenario.me) in
  let st' := (RealtimeManager.unsubscribeFromBookClub Scenario.env0 "X" st).2 in
  subscriptions st' !! "X" = None
  ∧ presenceChannels st' !! "X" = None
  ∧ timers st' = timers st
  ∧ ∀ evs, quiet "X" evs st' → subscriptions (run evs st') !! "X" = None.
Proof.
  intros st st'.
  apply (unsubscribe_closes_until_resubscribed Scenario.env0 "X" st st').
  reflexivity.
Defined.

(** C7, as stated, fails: the timer is not cancelled. The channel of ["X"]
    times out, which schedules a retry and leaves ["X"] registered; the
    viewer leaves the club and the unsubscribe succeeds; then the timer
    fires and ["X"] is subscribed again, with a new channel. *)
Lemma stale_retry_resubscribes :
  let st := run [EvInitialize true; EvSubscribe Scenario.env0 "X";
                 EvStatus "X" TIMED_OUT] (initial Scenario.me) in
  let closed := RealtimeManager.unsubscribeFromBookClub Scenario.env0 "X" st in
  let later := mkEnv 2000 false false false false in
  let st' := RealtimeManager.fire later 0 closed.2 in
  timers st = [mkTimer (Reconnect "X") 1000]
  ∧ closed.1 = true
  ∧ subscriptions closed.2 !! "X" = None
  ∧ timers closed.2 = [mkTimer (Reconnect "X") 1000]
  ∧ subscriptions st' !! "X" = Some (mkSubscription "book-club-X" "X" 2000 connecting)
  ∧ presenceChannels st' !! "X" = Some "presence-X".
Proof. vm_compute. repeat split. Qed.

(** ** Subscribing twice *)

(** C10. In a state the system can reach, subscribing a club that is in the
    registry returns [true] and changes nothing: not the registry, not the
    presence channels, not the trace of channels created. *)
Theorem subscribe_is_idempotent (env : Env) (clubId : string) (st : State) :
  reachable st →
  is_Some (subscriptions st !! clubId) →
  RealtimeManager.subscribeToBookClub env clubId st = (true, st).
Proof.
  intros Hreach Hin. unfold RealtimeManager.subscribeToBookClub.
  destruct (reachable_registry_needs_collaborative st Hreach) as [Hon | Hempty].
  - unfold SupabaseManager.isCollaborativeMode. rewrite Hon. simpl.
    by rewrite bool_decide_eq_true_2.
  - rewrite Hempty, lookup_empty in Hin. by destruct Hin.
Qed.

Lemma subscribe_is_idempotent_witness :
  let st := run [EvInitialize true; EvSubscribe Scenario.env0 "X"] (initial Scenario.me) in
  let later := mkEnv 2000 false false false false in
  RealtimeManager.subscribeToBookClub later "X" st = (true, st).
Proof.
  intros st later. apply (subscribe_is_idempotent later "X" st).
  - exists Scenario.me, [EvInitialize true; EvSubscribe Scenario.env0 "X"]. reflexivity.
  - vm_compute. eexists. reflexivity.
Defined.

(** * Further properties *)

(** ** The change dispatcher, beyond the watermark *)

Section DispatcherMore.

Implicit Types (st : State) (payload : Payload).

Lemma has_new_Set (l : list string) (x : string) : JS.has (new_Set l) x = JS.has l x.
Proof. unfold JS.has. apply bool_decide_ext, elem_of_new_Set. Qed.

(** The two differences [detectConflict] computes. *)
Lemma difference_filter (l1 l2 : list string) :
  filter (fun book => negb (JS.has (new_Set l2) book)) (new_Set l1)
  = filter (fun book => book ∉ l2) (uniq l1).
Proof.
  rewrite (new_Set_uniq l1). apply list_filter_iff. intros x; simpl.
  rewrite has_new_Set. unfold JS.has. case_bool_decide; simpl; tauto.
Qed.

Lemma filter_nonempty (P : string → Prop) `{!∀ x, Decision (P x)} (l : list string) :
  (0 < length (filter P l))%nat ↔ ∃ x, x ∈ l ∧ P x.
Proof.
  split.
  - destruct (filter P l) as [|x l'] eqn:Hf; simpl; [lia|]. intros _.
    exists x. assert (x ∈ filter P l) as Hin by (rewrite Hf; left).
    apply list_elem_of_filter in Hin. tauto.
  - intros (x & Hx & HP). assert (x ∈ filter P l) as Hin by by apply list_elem_of_filter.
    destruct (filter P l); simpl; [by apply not_elem_of_nil in Hin|lia].
Qed.

End DispatcherMore.

(** X1. When no watermark makes the notification stale, [detectConflict]
    for an entity it finds returns a [book_list_conflict] exactly when some
    local item is missing in the row and some item of the row is missing
    locally; the conflict lists the two differences, each value once and in
    the order of its list. With one side holding nothing of its own, and for
    an entity it does not find, it returns [null]. *)
Theorem detectConflict_book_lists (tnow : Z) (payload : Payload) (st : State) (remote : Row) :
  p_new payload = Some remote →
  (AppState.getBookClub st (r_id remote) = None →
   RealtimeManager.detectConflict tnow payload st = Some None)
  ∧ ∀ club,
      AppState.getBookClub st (r_id remote) = Some club →
      (∀ w t, lastUpdate st !! r_id remote = Some w → r_updated_at remote = Some t → w ≤ t) →
      let localItems := c_books club in
      let remoteItems := RealtimeManager.books_or_empty remote in
      let localOnly := filter (fun book => book ∉ remoteItems) (uniq localItems) in
      let remoteOnly := filter (fun book => book ∉ localItems) (uniq remoteItems) in
      ((∃ x, x ∈ localItems ∧ x ∉ remoteItems) ∧ (∃ y, y ∈ remoteItems ∧ y ∉ localItems) →
       RealtimeManager.detectConflict tnow payload st
       = Some (Some (mkConflict book_list_conflict club remote localOnly remoteOnly tnow)))
      ∧ ((∀ x, x ∈ localItems → x ∈ remoteItems) ∨ (∀ y, y ∈ remoteItems → y ∈ localItems) →
         RealtimeManager.detectConflict tnow payload st = Some None).
Proof.
  intros Hnew. unfold RealtimeManager.detectConflict. rewrite Hnew. split.
  { by intros ->. }
  intros club Hclub Hfresh. rewrite Hclub.
  set (localItems := c_books club).
  set (remoteItems := RealtimeManager.books_or_empty remote).
  set (localOnly := filter (fun book => book ∉ remoteItems) (uniq localItems)).
  set (remoteOnly := filter (fun book => book ∉ localItems) (uniq remoteItems)).
  assert (match lastUpdate st !! r_id remote, r_updated_at remote with
          | Some l, Some r => bool_decide (r < l)
          | _, _ => false
          end = false) as ->.
  { destruct (lastUpdate st !! r_id remote) as [w|] eqn:Hw; [|done].
    destruct (r_updated_at remote) as [t|] eqn:Ht; [|done].
    apply bool_decide_eq_false_2. specialize (Hfresh w t eq_refl eq_refl). lia. }
  rewrite !difference_filter. fold localOnly remoteOnly.
  split.
  - intros [(x & Hx & Hxr) (y & Hy & Hyl)].
    rewrite !bool_decide_eq_true_2; [done| |].
    + apply filter_nonempty. exists y. split; [by apply elem_of_uniq|done].
    + apply filter_nonempty. exists x. split; [by apply elem_of_uniq|done].
  - intros [Hsub | Hsub].
    + rewrite (bool_decide_eq_false_2 (0 < length localOnly)%nat); [done|].
      intros Hlen. apply filter_nonempty in Hlen as (x & Hx & Hxr).
      apply Hxr, Hsub. by apply elem_of_uniq.
    + rewrite (bool_decide_eq_false_2 (0 < length remoteOnly)%nat);
        [by rewrite andb_false_r|].
      intros Hlen. apply filter_nonempty in Hlen as (x & Hx & Hxr).
      apply Hxr, Hsub. by apply elem_of_uniq.
Qed.

Lemma detectConflict_book_lists_witness :
  RealtimeManager.detectConflict 300 (Scenario.update (Scenario.rowX ["B"; "C"; "D"] 100))
    (Scenario.viewing ["A"; "B"; "A"] ∅)
  = Some (Some (mkConflict book_list_conflict (Scenario.clubX ["A"; "B"; "A"])
                           (Scenario.rowX ["B"; "C"; "D"] 100) ["A"] ["C"; "D"] 300))
  ∧ RealtimeManager.detectConflict 300 (Scenario.update (Scenario.rowX ["A"; "B"; "C"] 100))
      (Scenario.viewing ["A"; "B"] ∅)
    = Some None.
Proof.
  split.
  - pose proof (detectConflict_book_lists 300
                  (Scenario.update (Scenario.rowX ["B"; "C"; "D"] 100))
                  (Scenario.viewing ["A"; "B"; "A"] ∅)
                  (Scenario.rowX ["B"; "C"; "D"] 100) eq_refl) as [_ Hfound].
    apply (Hfound (Scenario.clubX ["A"; "B"; "A"]) eq_refl).
    + intros w t Hw. unfold Scenario.viewing in Hw. simpl in Hw.
      by rewrite lookup_empty in Hw.
    + split; [exists "A"|exists "C"]; split; apply (bool_decide_unpack _); by vm_compute.
  - pose proof (detectConflict_book_lists 300
                  (Scenario.update (Scenario.rowX ["A"; "B"; "C"] 100))
                  (Scenario.viewing ["A"; "B"] ∅)
                  (Scenario.rowX ["A"; "B"; "C"] 100) eq_refl) as [_ Hfound].
    apply (Hfound (Scenario.clubX ["A"; "B"]) eq_refl).
    + intros w t Hw. unfold Scenario.viewing in Hw. simpl in Hw.
      by rewrite lookup_empty in Hw.
    + left. apply Forall_forall.
      repeat (apply Forall_cons; split; [apply (bool_decide_unpack _); by vm_compute|]).
      by apply Forall_nil.
Defined.

Section ApplyLemmas.

Implicit Types (st : State) (payload : Payload) (row : Row).

Lemma handleClubInsertOrUpdate_denied row st :
  row_access st row = false →
  RealtimeManager.handleClubInsertOrUpdate (Some row) st = Some st.
Proof.
  unfold row_access, RealtimeManager.handleClubInsertOrUpdate. by intros ->.
Qed.

Lemma handleClubInsertOrUpdate_granted row st :
  row_access st row = true →
  ∃ st', RealtimeManager.handleClubInsertOrUpdate (Some row) st = Some st'
         ∧ bookClubs st'
           = <[to_key (r_id row) :=
                 AppState.enhancedClubData st (StorageManager.loaded_club st row)]>
             (bookClubs st)
         ∧ lastUpdate st' = lastUpdate st
         ∧ currentUserId st' = currentUserId st.
Proof.
  unfold row_access, RealtimeManager.handleClubInsertOrUpdate. intros ->. simpl.
  eexists. split; [done|].
  match goal with |- context [AppState.setBookClub ?i ?d st] =>
    pose proof (setBookClub_bookClubs i d st) as Hb;
    pose proof (setBookClub_lastUpdate i d st) as Hl;
    pose proof (setBookClub_currentUserId i d st) as Hu
  end.
  case_match; simpl; by rewrite Hb, Hl, Hu.
Qed.

End ApplyLemmas.

Section ApplyLemmas2.

Implicit Types (st : State) (payload : Payload) (row : Row).

(** The direct apply of an INSERT or UPDATE, and the watermark after it. *)
Lemma handleBookClubUpdate_applied tnow payload st st' :
  is_own payload st = false →
  eventType payload = INSERT ∨ eventType payload = UPDATE →
  RealtimeManager.detectConflict tnow payload st = Some None →
  RealtimeManager.handleClubInsertOrUpdate (p_new payload) st = Some st' →
  RealtimeManager.handleBookClubUpdate tnow payload st
  = with_lastUpdate
      (fun m => <[JS.or (RealtimeManager.opt_id (p_new payload))
                        (RealtimeManager.opt_id (p_old payload)) := tnow]> m) st'.
Proof.
  unfold is_own, RealtimeManager.handleBookClubUpdate. intros -> Hev Hdet Happly.
  unfold RealtimeManager.dispatch. simpl. rewrite Hdet.
  by destruct Hev as [-> | ->]; rewrite Happly.
Qed.

End ApplyLemmas2.

(** X2. An INSERT or UPDATE for a club of which there is no local copy, whose
    row neither belongs to the viewer nor lists the viewer in
    [shared_users], writes nothing and shows nothing: all it leaves behind is
    the watermark of the row's id. *)
Theorem row_without_access_is_dropped (tnow : Z) (payload : Payload) (st : State) (row : Row) :
  p_new payload = Some row →
  eventType payload = INSERT ∨ eventType payload = UPDATE →
  AppState.getBookClub st (r_id row) = None →
  row_access st row = false →
  RealtimeManager.handleBookClubUpdate tnow payload st
  = with_lastUpdate
      (fun m => <[JS.or (r_id row) (RealtimeManager.opt_id (p_old payload)) := tnow]> m) st.
Proof.
  intros Hnew Hev Habsent Hdenied.
  rewrite (handleBookClubUpdate_applied tnow payload st st).
  - by rewrite Hnew.
  - unfold is_own. rewrite Hnew. unfold row_access in Hdenied.
    by apply orb_false_elim in Hdenied as [-> _].
  - done.
  - unfold RealtimeManager.detectConflict. by rewrite Hnew, Habsent.
  - rewrite Hnew. by apply handleClubInsertOrUpdate_denied.
Qed.

Lemma row_without_access_is_dropped_witness :
  let stranger := mkRow (JStr "Z") (JStr "Private circle") (Some ["Q"]) JNull
                        (JStr "2024-03-03") (Some 100) (JStr "user_other") (Some ["user_third"]) in
  let st := Scenario.viewing ["A"] ∅ in
  RealtimeManager.handleBookClubUpdate 300 (mkPayload INSERT (Some stranger) None) st
  = with_lastUpdate (fun m => <[JStr "Z" := 300]> m) st.
Proof.
  intros stranger st.
  apply (row_without_access_is_dropped 300 (mkPayload INSERT (Some stranger) None) st stranger);
    first [reflexivity|by left].
Defined.

(** X3. Out-of-order delivery after a direct apply. Once a row that the
    viewer may read has been applied at time [t1], a row of the same id whose
    [updated_at] is earlier than [t1] is not applied over it: it is merged as
    a concurrent modification, and the stored items are those of the first
    row followed by what only the late row holds. *)
Theorem late_row_is_merged_not_applied
    (t1 t2 t : Z) (p1 p2 : Payload) (st : State) (row1 row2 : Row) :
  p_new p1 = Some row1 →
  eventType p1 = INSERT ∨ eventType p1 = UPDATE →
  is_own p1 st = false →
  row_access st row1 = true →
  RealtimeManager.detectConflict t1 p1 st = Some None →
  truthy (r_id row1) = true →
  p_new p2 = Some row2 →
  is_own p2 st = false →
  r_id row2 = r_id row1 →
  r_updated_at row2 = Some t →
  t < t1 →
  let st1 := RealtimeManager.handleBookClubUpdate t1 p1 st in
  let st2 := RealtimeManager.handleBookClubUpdate t2 p2 st1 in
  ∃ applied merged,
    bookClubs st1 !! to_key (r_id row1) = Some applied
    ∧ c_books applied = RealtimeManager.books_or_empty row1
    ∧ bookClubs st2 !! to_key (r_id row1) = Some merged
    ∧ c_books merged
      = union_in_order (RealtimeManager.books_or_empty row1)
                       (RealtimeManager.books_or_empty row2).
Proof.
  intros Hnew1 Hev Hown1 Hacc Hdet1 Hid Hnew2 Hown2 Hsame Ht Hlt st1 st2.
  destruct (handleClubInsertOrUpdate_granted row1 st Hacc) as (st' & Happly & Hb & Hl & Hu).
  assert (st1 = with_lastUpdate (fun m => <[r_id row1 := t1]> m) st') as Hst1.
  { subst st1. rewrite (handleBookClubUpdate_applied t1 p1 st st'); try done.
    - rewrite Hnew1. simpl. unfold JS.or. by rewrite Hid.
    - by rewrite Hnew1. }
  set (applied := AppState.enhancedClubData st (StorageManager.loaded_club st row1)) in *.
  assert (bookClubs st1 !! to_key (r_id row1) = Some applied) as Hlook1.
  { rewrite Hst1. simpl. by rewrite Hb, lookup_insert_eq. }
  assert (currentUserId st1 = currentUserId st) as Hu1 by (by rewrite Hst1).
  assert (AppState.getBookClub st1 (r_id row2) = Some applied) as Hfound.
  { apply getBookClub_Some. rewrite Hsame. split; [done|]. by apply enhanced_accessible. }
  assert (RealtimeManager.detectConflict t2 p2 st1
          = Some (Some (mkConflict concurrent_modification applied row2 [] [] t2))) as Hdet2.
  { unfold RealtimeManager.detectConflict. rewrite Hnew2, Hfound, Ht.
    rewrite Hst1 at 1. simpl. rewrite Hsame, lookup_insert_eq.
    by rewrite bool_decide_eq_true_2. }
  assert (is_own p2 st1 = false) as Hown2'.
  { revert Hown2. unfold is_own. by rewrite Hu1. }
  exists applied. eexists. split; [done|]. split; [done|].
  subst st2. rewrite (handleBookClubUpdate_conflict _ _ _ _ Hown2' Hdet2).
  change (RealtimeManager.resolveConflict ?c st1)
    with (RealtimeManager.resolveConcurrentModification c st1).
  rewrite resolveConcurrentModification_bookClubs. simpl.
  rewrite lookup_insert_eq. split; [done|]. simpl.
  unfold RealtimeManager.mergedBooks. simpl. apply new_Set_app.
Qed.

Lemma late_row_is_merged_not_applied_witness :
  let p1 := Scenario.update (Scenario.rowX ["A"; "B"; "C"] 900) in
  let p2 := Scenario.update (Scenario.rowX ["A"; "D"] 800) in
  let st := Scenario.viewing ["A"] ∅ in
  let st1 := RealtimeManager.handleBookClubUpdate 1000 p1 st in
  let st2 := RealtimeManager.handleBookClubUpdate 1100 p2 st1 in
  ∃ applied merged,
    bookClubs st1 !! "X" = Some applied
    ∧ c_books applied = ["A"; "B"; "C"]
    ∧ bookClubs st2 !! "X" = Some merged
    ∧ c_books merged = union_in_order ["A"; "B"; "C"] ["A"; "D"].
Proof.
  intros p1 p2 st st1 st2.
  apply (late_row_is_merged_not_applied 1000 1100 800 p1 p2 st
           (Scenario.rowX ["A"; "B"; "C"] 900) (Scenario.rowX ["A"; "D"] 800));
    first [reflexivity|by right|lia].
Defined.

(** ** Presence *)

(** X4. [handlePresenceJoin] shows one "member joined" notice for every
    joined presence of another user and none for the viewer's own; it
    changes nothing else. *)
Theorem presence_join_announces_others (newPresences : list jsval) (st : State) :
  let others := filter (fun userId => userId ≠ JStr (currentUserId st)) newPresences in
  trace (Realtime.handlePresenceJoin newPresences st)
  = trace st ++ replicate (length others) (Notify MemberJoined)
  ∧ bookClubs (Realtime.handlePresenceJoin newPresences st) = bookClubs st
  ∧ subscriptions (Realtime.handlePresenceJoin newPresences st) = subscriptions st
  ∧ timers (Realtime.handlePresenceJoin newPresences st) = timers st.
Proof.
  unfold Realtime.handlePresenceJoin. simpl.
  revert st. induction newPresences as [|u us IH]; intros st.
  { simpl. by rewrite app_nil_r. }
  simpl foldl.
  destruct (strict_eq u (JStr (currentUserId st))) eqn:Heq; simpl negb; cbv iota.
  - apply bool_decide_eq_true in Heq.
    rewrite filter_cons_False by (by intros ?). apply IH.
  - apply bool_decide_eq_false in Heq.
    rewrite filter_cons_True by done.
    destruct (IH (emit (Notify MemberJoined) st)) as (H1 & H2 & H3 & H4).
    rewrite H1, H2, H3, H4. simpl. by rewrite <- app_assoc.
Qed.

(** ** Channel errors, retries and teardown *)

Section RetryLemmas.

Implicit Types (st : State) (env : Env) (clubId : string).


(** A first subscription that meets no exception. *)
Lemma subscribeToBookClub_fresh env clubId st :
  collaborative st = true →
  subscriptions st !! clubId = None →
  channel_throws env = false →
  presence_throws env = false →
  RealtimeManager.subscribeToBookClub env clubId st
  = (true,
     with_presenceChannels (fun m => <[clubId := "presence-" +:+ clubId]> m)
       (emit (ChannelSubscribe ("presence-" +:+ clubId))
          (with_subscriptions
             (fun m => <[clubId := mkSubscription ("book-club-" +:+ clubId) clubId
                                                 (now env) connecting]> m)
             (emit (ChannelSubscribe ("book-club-" +:+ clubId)) st)))).
Proof.
  intros Hon Hnone Hch Hpr.
  unfold RealtimeManager.subscribeToBookClub, RealtimeManager.setupPresenceTracking,
    SupabaseManager.isCollaborativeMode.
  rewrite Hon, Hch. simpl. rewrite Hon, Hpr. simpl.
  rewrite bool_decide_eq_false_2; [done|]. rewrite Hnone. by intros [? ?].
Qed.

End RetryLemmas.





(** ** The health monitor *)

(** X7. In collaborative mode a successful probe shows "connected" only
    when the state was not [connected] before: after one successful probe,
    any number of further successful probes changes nothing. A failed probe
    always marks the state unhealthy and shows "disconnected", and the next
    successful probe shows "connected" once. Outside collaborative mode a probe
    does nothing. *)
Theorem health_probe_signals_transitions (st : State) :
  (collaborative st = false → ∀ ok, RealtimeManager.checkConnectionHealth ok st = st)
  ∧ (collaborative st = true →
     let healthy := RealtimeManager.checkConnectionHealth true st in
     let failed := RealtimeManager.checkConnectionHealth false st in
     connectionState healthy = cs_connected
     ∧ (∀ n, Nat.iter n (RealtimeManager.checkConnectionHealth true) healthy = healthy)
     ∧ connectionState failed = cs_unhealthy
     ∧ trace failed = trace st ++ [ShowConnectionStatus shown_disconnected]
     ∧ trace (RealtimeManager.checkConnectionHealth true failed)
       = trace st ++ [ShowConnectionStatus shown_disconnected;
                      ShowConnectionStatus shown_connected]).
Proof.
  unfold RealtimeManager.checkConnectionHealth, SupabaseManager.isCollaborativeMode.
  split.
  - intros ->. done.
  - intros Hon. rewrite Hon. simpl. split; [|split; [|split; [|split]]].
    + unfold RealtimeManager.handleConnectionHealthy.
      destruct (connectionState st) eqn:Hc; simpl; congruence.
    + assert (connectionState (RealtimeManager.handleConnectionHealthy st) = cs_connected
              ∧ collaborative (RealtimeManager.handleConnectionHealthy st) = true)
        as [Hc Hco].
      { unfold RealtimeManager.handleConnectionHealthy.
        destruct (connectionState st) eqn:Hc; simpl; split; congruence. }
      induction n as [|n IH]; simpl; [done|].
      rewrite IH, Hco. simpl. unfold RealtimeManager.handleConnectionHealthy at 1.
      by rewrite Hc.
    + done.
    + done.
    + rewrite Hon. simpl. by rewrite <- app_assoc.
Qed.

Lemma health_probe_signals_transitions_witness :
  let st := run [EvInitialize true] (initial Scenario.me) in
  trace (Nat.iter 3 (RealtimeManager.checkConnectionHealth true) st)
  = [ShowConnectionStatus shown_connected]
  ∧ trace (RealtimeManager.checkConnectionHealth true
             (RealtimeManager.checkConnectionHealth false st))
    = trace st ++ [ShowConnectionStatus shown_disconnected; ShowConnectionStatus shown_connected].
Proof.
  intros st.
  destruct (proj2 (health_probe_signals_transitions st) eq_refl) as (_ & Hiter & _ & _ & Hlast).
  split; [|exact Hlast].
  change (Nat.iter 3 (RealtimeManager.checkConnectionHealth true) st)
    with (Nat.iter 2 (RealtimeManager.checkConnectionHealth true)
            (RealtimeManager.checkConnectionHealth true st)).
  rewrite Hiter. reflexivity.
Defined.

(** ** Shutdown *)

Section CleanupLemmas.

Implicit Types (st : State) (env : Env) (clubId : string).

Lemma unsubscribe_registered env clubId st :
  unsubscribe_throws env = false →
  presence_unsubscribe_throws env = false →
  is_Some (subscriptions st !! clubId) →
  let st' := (RealtimeManager.unsubscribeFromBookClub env clubId st).2 in
  subscriptions st' = delete clubId (subscriptions st)
  ∧ presenceChannels st' = delete clubId (presenceChannels st)
  ∧ same_but_channels st st'.
Proof.
  intros Hun Hpun [sub Hsub].
  unfold RealtimeManager.unsubscribeFromBookClub, RealtimeManager.cleanupPresenceTracking.
  rewrite Hsub, Hun. simpl. rewrite Hpun.
  destruct (presenceChannels st !! clubId) eqn:Hp; simpl.
  - unfold same_but_channels. split_and!; reflexivity.
  - rewrite (delete_id (presenceChannels st)) by done.
    unfold same_but_channels. split_and!; reflexivity.
Qed.

Lemma unsubscribe_each (envs : string → Env) (clubIds : list string) st :
  (∀ c, unsubscribe_throws (envs c) = false ∧ presence_unsubscribe_throws (envs c) = false) →
  NoDup clubIds →
  Forall (fun c => is_Some (subscriptions st !! c)) clubIds →
  let st' := foldl (fun s c => (RealtimeManager.unsubscribeFromBookClub (envs c) c s).2)
                   st clubIds in
  (∀ k, subscriptions st' !! k
        = if decide (k ∈ clubIds) then None else subscriptions st !! k)
  ∧ (∀ k, presenceChannels st' !! k
          = if decide (k ∈ clubIds) then None else presenceChannels st !! k)
  ∧ same_but_channels st st'.
Proof.
  intros Hok Hnd. revert st. induction Hnd as [|c cs Hc Hnd IH]; intros st Hreg.
  { simpl. unfold same_but_channels. split_and!; try done.
    all: intros k; case_decide as Hk; [by apply not_elem_of_nil in Hk|done]. }
  apply Forall_cons in Hreg as [Hhere Hrest]. simpl.
  destruct (Hok c) as [Hun Hpun].
  destruct (unsubscribe_registered (envs c) c st Hun Hpun Hhere) as (Hs & Hp & Hsame).
  set (st1 := (RealtimeManager.unsubscribeFromBookClub (envs c) c st).2) in *.
  destruct (IH st1) as (Hs' & Hp' & Hsame').
  { apply Forall_forall. intros x Hx. rewrite Hs.
    rewrite lookup_delete_ne by (intros ->; done).
    by eapply Forall_forall in Hrest. }
  split; [|split].
  - intros k. rewrite Hs', Hs.
    destruct (decide (k = c)) as [-> | Hkc].
    + rewrite (decide_False (P := c ∈ cs)) by done.
      rewrite (decide_True (P := c ∈ c :: cs)) by left. apply lookup_delete_eq.
    + rewrite lookup_delete_ne by done.
      destruct (decide (k ∈ cs)) as [Hin | Hin].
      * by rewrite decide_True by by right.
      * rewrite decide_False; [done|]. intros [-> | ?]%elem_of_cons; done.
  - intros k. rewrite Hp', Hp.
    destruct (decide (k = c)) as [-> | Hkc].
    + rewrite (decide_False (P := c ∈ cs)) by done.
      rewrite (decide_True (P := c ∈ c :: cs)) by left. apply lookup_delete_eq.
    + rewrite lookup_delete_ne by done.
      destruct (decide (k ∈ cs)) as [Hin | Hin].
      * by rewrite decide_True by by right.
      * rewrite decide_False; [done|]. intros [-> | ?]%elem_of_cons; done.
  - unfold same_but_channels in *. intuition congruence.
Qed.

End CleanupLemmas.

Section CleanupLemmas2.

Implicit Types (st : State) (env : Env) (clubId : string).

Lemma cleanupPresenceTracking_ok env clubId st :
  presence_unsubscribe_throws env = false →
  ∃ st', RealtimeManager.cleanupPresenceTracking env clubId st = Some st'
         ∧ presenceChannels st' = delete clubId (presenceChannels st)
         ∧ subscriptions st' = subscriptions st
         ∧ same_but_channels st st'.
Proof.
  intros Hpun. unfold RealtimeManager.cleanupPresenceTracking. rewrite Hpun.
  destruct (presenceChannels st !! clubId) eqn:Hp.
  - eexists. split; [done|]. unfold same_but_channels. split_and!; reflexivity.
  - exists st. rewrite delete_id by done. unfold same_but_channels. by split_and!.
Qed.

Lemma cleanup_presence_each (envs : string → Env) (clubIds : list string) st :
  (∀ c, presence_unsubscribe_throws (envs c) = false) →
  let done_ :=
    foldl (fun (acc : bool * State) c =>
             if acc.1 then
               match RealtimeManager.cleanupPresenceTracking (envs c) c acc.2 with
               | Some s => (true, s)
               | None => (false, acc.2)
               end
             else acc)
          (true, st) clubIds in
  done_.1 = true
  ∧ (∀ k, presenceChannels done_.2 !! k
          = if decide (k ∈ clubIds) then None else presenceChannels st !! k)
  ∧ subscriptions done_.2 = subscriptions st
  ∧ same_but_channels st done_.2.
Proof.
  intros Hok. revert st. induction clubIds as [|c cs IH]; intros st.
  { simpl. unfold same_but_channels. split_and!; try done.
    all: intros k; case_decide as Hk; [by apply not_elem_of_nil in Hk|done]. }
  simpl. destruct (cleanupPresenceTracking_ok (envs c) c st (Hok c))
    as (st1 & -> & Hp & Hs & Hsame).
  destruct (IH st1) as (Hfin & Hp' & Hs' & Hsame').
  split; [done|]. split; [|split].
  - intros k. rewrite Hp', Hp.
    destruct (decide (k = c)) as [-> | Hkc].
    + rewrite (decide_True (P := c ∈ c :: cs)) by left.
      case_decide; [done|apply lookup_delete_eq].
    + rewrite lookup_delete_ne by done.
      destruct (decide (k ∈ cs)) as [Hin | Hin].
      * by rewrite decide_True by by right.
      * rewrite decide_False; [done|]. intros [-> | ?]%elem_of_cons; done.
  - congruence.
  - unfold same_but_channels in *. intuition congruence.
Qed.

Lemma keys_of_map {A} (m : gmap string A) (k : string) :
  k ∈ (map_to_list m).*1 ↔ is_Some (m !! k).
Proof.
  rewrite list_elem_of_fmap. split.
  - intros ([k' v] & -> & Hin). apply elem_of_map_to_list in Hin. simpl. eauto.
  - intros [v Hv]. exists (k, v). split; [done|]. by apply elem_of_map_to_list.
Qed.

End CleanupLemmas2.

(** X8. [cleanup()], when no [unsubscribe] throws, runs to its end and
    leaves the manager as new: no subscription, no presence channel, no
    watermark, no heartbeat, the attempt counter at 0 and the state
    [disconnected]. It does not touch the store, and it does not touch the
    pending timers: a retry scheduled before is still due. *)
Theorem cleanup_resets_the_manager (envs : string → Env) (m : Manager) :
  (∀ c, unsubscribe_throws (envs c) = false ∧ presence_unsubscribe_throws (envs c) = false) →
  ∃ m',
    Realtime.cleanup envs m = (true, m')
    ∧ subscriptions (base m') = ∅
    ∧ presenceChannels (base m') = ∅
    ∧ lastUpdate (base m') = ∅
    ∧ reconnectAttempts (base m') = 0%nat
    ∧ connectionState (base m') = cs_disconnected
    ∧ heartbeatInterval m' = None
    ∧ (∀ id, heartbeatInterval m = Some id → id ∉ runningIntervals m')
    ∧ bookClubs (base m') = bookClubs (base m)
    ∧ timers (base m') = timers (base m).
Proof.
  intros Hok. unfold Realtime.cleanup.
  destruct (unsubscribe_each envs (RealtimeManager.activeClubs (base m)) (base m) Hok)
    as (Hs1 & Hp1 & Hsame1).
  { apply NoDup_fst_map_to_list. }
  { apply activeClubs_registered. }
  fold (Realtime.unsubscribe_all envs (base m)) in Hs1, Hp1, Hsame1.
  set (st1 := Realtime.unsubscribe_all envs (base m)) in *.
  destruct (cleanup_presence_each envs (map_to_list (presenceChannels st1)).*1 st1)
    as (Hfin & Hp2 & Hs2 & Hsame2).
  { intros c. apply Hok. }
  fold (Realtime.cleanup_presence envs st1) in Hfin, Hp2, Hs2, Hsame2.
  destruct (Realtime.cleanup_presence envs st1) as [finished st2]. simpl in *. subst finished.
  eexists. split; [done|]. simpl.
  unfold same_but_channels in *.
  destruct Hsame1 as (Hb1 & _ & _ & _ & _ & _ & _ & Ht1).
  destruct Hsame2 as (Hb2 & _ & _ & _ & _ & _ & _ & Ht2).
  split_and!; try done; try congruence.
  - apply map_eq. intros k. rewrite Hs2, Hs1, lookup_empty.
    case_decide as Hk; [done|].
    destruct (subscriptions (base m) !! k) eqn:Hlook; [|done].
    exfalso. apply Hk. unfold RealtimeManager.activeClubs. apply keys_of_map. eauto.
  - apply map_eq. intros k. rewrite Hp2, lookup_empty.
    case_decide as Hk; [done|].
    destruct (presenceChannels st1 !! k) eqn:Hlook; [|done].
    exfalso. apply Hk. apply keys_of_map. eauto.
  - intros id ->. unfold Realtime.clearInterval.
    rewrite list_elem_of_filter. by intros [? _].
Qed.

Lemma cleanup_resets_the_manager_witness :
  let st := run [EvInitialize true; EvSubscribe Scenario.env0 "X";
                 EvStatus "X" TIMED_OUT; EvSubscribe Scenario.env0 "Y"]
                (initial Scenario.me) in
  ∃ m',
    Realtime.cleanup (fun _ => Scenario.env0) (mkManager st (Some 7%nat) [7%nat]) = (true, m')
    ∧ subscriptions (base m') = ∅
    ∧ presenceChannels (base m') = ∅
    ∧ lastUpdate (base m') = ∅
    ∧ reconnectAttempts (base m') = 0%nat
    ∧ connectionState (base m') = cs_disconnected
    ∧ heartbeatInterval m' = None
    ∧ (∀ id, Some 7%nat = Some id → id ∉ runningIntervals m')
    ∧ bookClubs (base m') = bookClubs st
    ∧ timers (base m') = timers st.
Proof.
  intros st.
  apply (cleanup_resets_the_manager (fun _ => Scenario.env0) (mkManager st (Some 7%nat) [7%nat])).
  intros c. split; reflexivity.
Defined.

(** ** The store: access and entries *)

(** X9. Access is refused to a club only when it carries no owner id at all
    and neither flag: a club is inaccessible exactly when its [userId] is
    falsy and not the viewer's, [isOwner] is not set and [isShared] is not
    set. So every club with an owner id is accessible to every user. *)
Theorem access_is_refused_only_without_owner (st : State) (club : Club) :
  (UserManager.hasAccess st club = false
   ↔ truthy (c_userId club) = false
     ∧ c_userId club ≠ JStr (currentUserId st)
     ∧ c_isOwner club = false
     ∧ c_isShared club = false)
  ∧ (truthy (c_userId club) = true → UserManager.hasAccess st club = true).
Proof.
  unfold UserManager.hasAccess, UserManager.isOwner, UserManager.isSharedWithUser, strict_eq.
  destruct (c_isOwner club), (c_isShared club), (truthy (c_userId club));
    case_bool_decide; simpl; split; try done; try (split; [done|by intros (? & ? & ? & ?)]).
  all: split; [done|intros (? & ? & ? & ?); done].
Qed.

(** X10. [getBookClubs()] and [getBookClub(id)] agree on every id but
    ['__proto__']: the object of the accessible clubs has an entry under a key
    exactly when [getBookClub] finds a club for it, and it is that club. A
    club stored under ['__proto__'] is never listed, though [getBookClub] may
    find it. *)
Theorem getBookClubs_agrees_with_getBookClub (st : State) (key : string) :
  Store.getBookClubs st !! key
  = if decide (key = "__proto__") then None else AppState.getBookClub st (JStr key).
Proof.
  apply option_eq. intros club. unfold Store.getBookClubs.
  rewrite map_lookup_filter_Some. simpl. case_decide as Hkey.
  - split; [by intros (_ & ? & _)|done].
  - rewrite getBookClub_Some. simpl. tauto.
Qed.

Section StoreMore.

Implicit Types (st : State) (club : Club) (clubId : jsval).

Lemma hasAccess_set_books st club books :
  UserManager.hasAccess st (set_books books club) = UserManager.hasAccess st club.
Proof. done. Qed.

Lemma getBookClub_write clubId club st found :
  AppState.getBookClub st clubId = Some found →
  UserManager.hasAccess st club = true →
  AppState.getBookClub (Store.write clubId club st) clubId = Some club.
Proof.
  intros _ Hacc. apply getBookClub_Some. simpl. by rewrite lookup_insert_eq.
Qed.

(** Writing back the club that is stored changes nothing. *)
Lemma write_same clubId club st :
  bookClubs st !! to_key clubId = Some club → Store.write clubId club st = st.
Proof.
  intros Hlook. unfold Store.write, with_bookClubs. rewrite insert_id by done.
  by destruct st.
Qed.

Lemma write_write clubId club club' st :
  Store.write clubId club' (Store.write clubId club st) = Store.write clubId club' st.
Proof. unfold Store.write, with_bookClubs. simpl. by rewrite insert_insert_eq. Qed.

End StoreMore.

(** X11. [addBookToClub] succeeds exactly when [getBookClub] finds the club
    and the title is not among its items. Then the title is appended, the
    club stays found, one ['bookAdded'] is emitted, and adding the same
    title again is refused. When it fails nothing changes and nothing is
    emitted. *)
Theorem addBookToClub_appends_once (clubId : jsval) (bookTitle : string) (st : State) :
  let '(success, st', events) := Store.addBookToClub clubId bookTitle st in
  (success = true
   ↔ ∃ club, AppState.getBookClub st clubId = Some club ∧ bookTitle ∉ c_books club)
  ∧ (success = false → st' = st ∧ events = [])
  ∧ (success = true →
     ∃ club,
       AppState.getBookClub st clubId = Some club
       ∧ AppState.getBookClub st' clubId
         = Some (set_books (c_books club ++ [bookTitle]) club)
       ∧ events = [bookAdded clubId bookTitle]
       ∧ Store.addBookToClub clubId bookTitle st' = (false, st', [])).
Proof.
  unfold Store.addBookToClub.
  destruct (AppState.getBookClub st clubId) as [club|] eqn:Hclub.
  - unfold JS.has at 1. case_bool_decide as Hin; simpl.
    + split; [|split; [done|done]].
      split; [done|]. intros (c & [= <-] & Hc). done.
    + split; [|split; [done|]].
      { split; [|done]. intros _. by exists club. }
      intros _. exists club. split; [done|].
      assert (AppState.getBookClub (Store.write clubId
                (set_books (c_books club ++ [bookTitle]) club) st) clubId
              = Some (set_books (c_books club ++ [bookTitle]) club)) as Hfound.
      { eapply getBookClub_write; [done|].
        rewrite hasAccess_set_books. by apply getBookClub_Some in Hclub as [_ ?]. }
      split; [done|]. split; [done|].
      rewrite Hfound. unfold JS.has. simpl.
      rewrite bool_decide_eq_true_2; [done|].
      apply elem_of_app. right. left.
  - simpl. split; [|split; [done|done]].
    split; [done|]. by intros (c & [=] & _).
Qed.

(** X12. [removeBookFromClub] undoes [addBookToClub]: adding a title the
    club does not hold and removing it again gives back the state as it
    was. In general it removes every occurrence of the title, keeps the other
    items in their order, and reports success also when the title was not
    there. *)
Theorem removeBookFromClub_undoes_add (clubId : jsval) (bookTitle : string) (st : State)
    (club : Club) :
  AppState.getBookClub st clubId = Some club →
  (let '(removed, st', events) := Store.removeBookFromClub clubId bookTitle st in
   removed = true
   ∧ AppState.getBookClub st' clubId
     = Some (set_books (filter (fun book => book ≠ bookTitle) (c_books club)) club)
   ∧ (bookTitle ∉ c_books club → st' = st))
  ∧ (bookTitle ∉ c_books club →
     let '(_, st1, _) := Store.addBookToClub clubId bookTitle st in
     let '(_, st2, _) := Store.removeBookFromClub clubId bookTitle st1 in
     st2 = st).
Proof.
  intros Hclub. pose proof Hclub as Hfound.
  apply getBookClub_Some in Hfound as [Hlook Hacc].
  assert (∀ l : list string, bookTitle ∉ l → filter (fun book => book ≠ bookTitle) l = l)
    as Hkeep.
  { intros l Hl. apply filter_all. intros y Hy ->. done. }
  split.
  - unfold Store.removeBookFromClub. rewrite Hclub. split; [done|]. split.
    + by eapply getBookClub_write.
    + intros Hnot. rewrite Hkeep by done.
      apply write_same. rewrite Hlook. by destruct club.
  - intros Hnot. unfold Store.addBookToClub. rewrite Hclub. unfold JS.has.
    rewrite bool_decide_eq_false_2 by done. simpl.
    unfold Store.removeBookFromClub.
    erewrite getBookClub_write; [|done|done]. simpl.
    rewrite write_write, filter_app, Hkeep by done.
    rewrite filter_cons_False by (by intros ?). simpl. rewrite app_nil_r.
    apply write_same. rewrite Hlook. by destruct club.
Qed.

Lemma removeBookFromClub_undoes_add_witness :
  let st := Scenario.viewing ["A"; "B"] ∅ in
  (let '(_, st1, _) := Store.addBookToClub (JStr "X") "C" st in
   let '(_, st2, _) := Store.removeBookFromClub (JStr "X") "C" st1 in
   st2 = st).
Proof.
  intros st.
  refine (proj2 (removeBookFromClub_undoes_add (JStr "X") "C" st
                   (Scenario.clubX ["A"; "B"]) eq_refl) _).
  apply (bool_decide_unpack _). by vm_compute.
Defined.

(** X13. [removeBookByIndex] returns the item at the index and takes that
    one position out, for an index from 0 up to the length of the list; for
    any other index, and for a club that is not found, it returns [null],
    changes nothing and emits nothing. *)
Theorem removeBookByIndex_bounds (clubId : jsval) (index : Z) (st : State) :
  let '(removedBook, st', events) := Store.removeBookByIndex clubId index st in
  match AppState.getBookClub st clubId with
  | None => removedBook = None ∧ st' = st ∧ events = []
  | Some club =>
      if bool_decide (0 ≤ index < Z.of_nat (length (c_books club))) then
        removedBook = c_books club !! Z.to_nat index
        ∧ is_Some removedBook
        ∧ ∃ club',
            AppState.getBookClub st' clubId = Some club'
            ∧ c_books club' = delete (Z.to_nat index) (c_books club)
            ∧ S (length (c_books club')) = length (c_books club)
            ∧ events = (bookRemoved clubId <$> option_list removedBook)
      else removedBook = None ∧ st' = st ∧ events = []
  end.
Proof.
  unfold Store.removeBookByIndex.
  destruct (AppState.getBookClub st clubId) as [club|] eqn:Hclub; [|done].
  destruct (decide (0 ≤ index < Z.of_nat (length (c_books club)))) as [Hrange|Hrange].
  - rewrite (bool_decide_eq_true_2 (0 ≤ index < _)) by done.
    rewrite (bool_decide_eq_true_2 (0 ≤ index)) by lia.
    rewrite (bool_decide_eq_true_2 (index < Z.of_nat (length (c_books club)))) by lia.
    simpl.
    destruct (lookup_lt_is_Some_2 (c_books club) (Z.to_nat index)) as [book Hbook]; [lia|].
    rewrite Hbook. split; [done|]. split; [by eexists|].
    eexists. split.
    { eapply getBookClub_write; [done|]. by apply getBookClub_Some in Hclub as [_ ?]. }
    simpl. split; [done|]. split; [|done].
    rewrite length_delete by by eexists.
    apply lookup_lt_Some in Hbook. lia.
  - rewrite (bool_decide_eq_false_2 (0 ≤ index < _)) by done.
    assert (bool_decide (0 ≤ index) && bool_decide (index < Z.of_nat (length (c_books club)))
            = false) as ->; [|done].
    apply andb_false_iff.
    destruct (decide (0 ≤ index)); [right|left]; apply bool_decide_eq_false_2; lia.
Qed.

(** X14. [confirmSelection] on a club with a selection returns it, takes
    every occurrence of it out of the items, keeps the others in order and
    clears the selection; a second call then returns [null] and changes
    nothing. *)
Theorem confirmSelection_draws_out (clubId : jsval) (st : State) (club : Club)
    (selection : string) :
  AppState.getBookClub st clubId = Some club →
  c_currentSelection club = JStr selection →
  selection ≠ "" →
  let '(confirmed, st', events) := Store.confirmSelection clubId st in
  confirmed = Some selection
  ∧ events = [selectionConfirmed clubId (JStr selection)]
  ∧ (∃ club',
       AppState.getBookClub st' clubId = Some club'
       ∧ c_books club' = filter (fun book => book ≠ selection) (c_books club)
       ∧ (selection ∉ c_books club')
       ∧ c_currentSelection club' = JNull)
  ∧ Store.confirmSelection clubId st' = (None, st', []).
Proof.
  intros Hclub Hsel Hne. unfold Store.confirmSelection. rewrite Hclub, Hsel.
  assert (truthy (JStr selection) = true) as ->.
  { simpl. apply negb_true_iff. by apply String.eqb_neq. }
  split; [done|]. split; [done|].
  match goal with |- context [Store.write clubId ?c st] =>
    assert (AppState.getBookClub (Store.write clubId c st) clubId = Some c) as Hfound
  end.
  { eapply getBookClub_write; [done|]. by apply getBookClub_Some in Hclub as [_ ?]. }
  split.
  - eexists. split; [done|]. simpl. split; [done|]. split; [|done].
    rewrite list_elem_of_filter. by intros [? _].
  - by rewrite Hfound.
Qed.

Lemma confirmSelection_draws_out_witness :
  let drawn := set_currentSelection (JStr "B") (Scenario.clubX ["A"; "B"; "C"; "B"]) in
  let st := Store.write (JStr "X") drawn (Scenario.viewing [] ∅) in
  let '(confirmed, st', events) := Store.confirmSelection (JStr "X") st in
  confirmed = Some "B"
  ∧ events = [selectionConfirmed (JStr "X") (JStr "B")]
  ∧ (∃ club',
       AppState.getBookClub st' (JStr "X") = Some club'
       ∧ c_books club' = filter (fun book => book ≠ "B") ["A"; "B"; "C"; "B"]
       ∧ ("B" ∉ c_books club')
       ∧ c_currentSelection club' = JNull)
  ∧ Store.confirmSelection (JStr "X") st' = (None, st', []).
Proof.
  intros drawn st.
  apply (confirmSelection_draws_out (JStr "X") st drawn "B"); [reflexivity|reflexivity|done].
Defined.

(** ** Storing and removing clubs *)

(** X15. [removeBookClub] removes a club only for its owner. It returns
    [true] exactly when a club is stored under the id and [isOwner] holds of
    it; then the club in view is reset to [null] when it was this one and, for
    every id but ['__proto__'], the entry is deleted, [getBookClub] no longer
    finds it and a second call returns [false]. Under the id ['__proto__']
    nothing is deleted: the club is still found and a second call returns
    [true] again. In every other case the state is as before. *)
Theorem removeBookClub_owner_only (clubId : jsval) (st : State) :
  let '(removed, st') := AppState.removeBookClub clubId st in
  (removed = true
   ↔ ∃ club, bookClubs st !! to_key clubId = Some club ∧ UserManager.isOwner st club = true)
  ∧ (removed = false → st' = st)
  ∧ (removed = true →
     currentClubId st'
     = (if strict_eq (currentClubId st) clubId then JNull else currentClubId st)
     ∧ if decide (to_key clubId = "__proto__") then
         bookClubs st' = bookClubs st
         ∧ is_Some (AppState.getBookClub st' clubId)
         ∧ (AppState.removeBookClub clubId st').1 = true
       else
         bookClubs st' = delete (to_key clubId) (bookClubs st)
         ∧ AppState.getBookClub st' clubId = None
         ∧ AppState.removeBookClub clubId st' = (false, st')).
Proof.
  unfold AppState.removeBookClub at 1.
  destruct (bookClubs st !! to_key clubId) as [club|] eqn:Hlook.
  - destruct (UserManager.isOwner st club) eqn:Hown; cbn [negb].
    + split; [split; [eauto|done]|]. split; [done|]. intros _.
      cbn [currentClubId emit with_bookClubs].
      assert (UserManager.hasAccess st club = true) as Hacc
        by (unfold UserManager.hasAccess; by rewrite Hown).
      assert (∀ s, bookClubs s = bookClubs st → currentUserId s = currentUserId st →
                   is_Some (AppState.getBookClub s clubId)
                   ∧ (AppState.removeBookClub clubId s).1 = true) as Hstays.
      { intros s Hb Hu. unfold AppState.getBookClub, AppState.removeBookClub.
        rewrite Hb, Hlook, (hasAccess_same_user st s), Hacc by done.
        split; [by eexists|].
        assert (UserManager.isOwner s club = true) as ->; [|done].
        unfold UserManager.isOwner in *. by rewrite Hu. }
      assert (∀ s, bookClubs s = delete (to_key clubId) (bookClubs st) →
                   AppState.getBookClub s clubId = None
                   ∧ AppState.removeBookClub clubId s = (false, s)) as Hgone.
      { intros s Hb. unfold AppState.getBookClub, AppState.removeBookClub.
        by rewrite Hb, lookup_delete_eq. }
      destruct (decide (to_key clubId = "__proto__")) as [Hproto|Hkey];
        destruct (strict_eq (currentClubId st) clubId);
        (split; [done|]); (split; [done|]).
      1, 2: by apply Hstays.
      all: by apply Hgone.
    + split; [|done]. split; [done|]. intros (c & [= <-] & ?). congruence.
  - split; [|done]. split; [done|]. by intros (c & ? & _).
Qed.

(** X16. What [setBookClub] stores is found again by [getBookClub] under
    the same id, with name, items, selection and creation time as given; the
    owner id is the one given, or the viewer's when none is given. Clubs under
    other keys are found as before. Storing the found club once more stores
    the same club when an owner id was given. *)
Theorem setBookClub_then_getBookClub (clubId : jsval) (clubData : Club) (st : State) :
  let st' := AppState.setBookClub clubId clubData st in
  ∃ stored,
    AppState.getBookClub st' clubId = Some stored
    ∧ (c_id stored, c_name stored, c_books stored, c_currentSelection stored,
       c_createdAt stored)
      = (c_id clubData, c_name clubData, c_books clubData, c_currentSelection clubData,
         c_createdAt clubData)
    ∧ c_userId stored
      = (if truthy (c_userId clubData) then c_userId clubData
         else JStr (currentUserId st))
    ∧ (∀ other, to_key other ≠ to_key clubId →
         AppState.getBookClub st' other = AppState.getBookClub st other)
    ∧ (truthy (c_userId clubData) = true →
       bookClubs (AppState.setBookClub clubId stored st') = bookClubs st').
Proof.
  intros st'. exists (AppState.enhancedClubData st clubData).
  split; [apply getBookClub_setBookClub|]. split; [done|]. split; [done|].
  split.
  - intros other Hne. unfold AppState.getBookClub, st'.
    rewrite setBookClub_bookClubs, lookup_insert_ne by done.
    destruct (bookClubs st !! to_key other) as [club|]; [|done].
    by rewrite (hasAccess_same_user st (AppState.setBookClub clubId clubData st))
      by apply setBookClub_currentUserId.
  - intros Htruthy. unfold st'. rewrite !setBookClub_bookClubs, insert_insert_eq.
    f_equal. unfold AppState.enhancedClubData, JS.or. simpl.
    rewrite setBookClub_currentUserId, Htruthy. simpl.
    f_equal.
    + by rewrite Htruthy.
    + by destruct (strict_eq (c_userId clubData) (JStr (currentUserId st))).
Qed.

(** ** The listeners of the store *)

(** X17. [on] registers a callback after those already registered for the
    event; [off] takes out the earliest registration of the callback and no
    other, so a callback registered twice is still called once after one
    [off]; [off] for a callback that is not registered changes nothing; and
    neither touches the listeners of another event. *)
Theorem off_removes_earliest_registration (event : string) (callback : nat)
    (listeners : Store.Listeners) :
  Store.emitted_to event (Store.on event callback listeners)
  = Store.emitted_to event listeners ++ [callback]
  ∧ (callback ∉ Store.emitted_to event listeners →
     Store.off event callback listeners = listeners
     ∧ Store.emitted_to event (Store.off event callback (Store.on event callback listeners))
       = Store.emitted_to event listeners)
  ∧ (∀ before after,
       Store.emitted_to event listeners = before ++ callback :: after →
       callback ∉ before →
       Store.emitted_to event (Store.off event callback listeners) = before ++ after)
  ∧ (∀ other, other ≠ event →
       Store.emitted_to other (Store.on event callback listeners)
       = Store.emitted_to other listeners
       ∧ Store.emitted_to other (Store.off event callback listeners)
         = Store.emitted_to other listeners).
Proof.
  assert (∀ before after, callback ∉ before →
            Store.indexOf callback (before ++ callback :: after) = Some (length before))
    as Hfind.
  { intros before after Hnot. unfold Store.indexOf.
    assert (list_find (fun c => c = callback) (before ++ callback :: after)
            = Some (length before, callback)) as ->; [|done].
    apply list_find_Some. split; [by apply list_lookup_middle|]. split; [done|].
    intros j y Hj Hlt ->. rewrite lookup_app_l in Hj by done.
    apply Hnot. by eapply list_elem_of_lookup_2. }
  assert (∀ callbacks, callback ∉ callbacks → Store.indexOf callback callbacks = None)
    as Hmiss.
  { intros callbacks Hnot. unfold Store.indexOf.
    destruct (list_find _ callbacks) as [[i c]|] eqn:Hf; [|done].
    apply list_find_Some in Hf as (Hi & -> & _).
    destruct Hnot. by eapply list_elem_of_lookup_2. }
  assert (∀ before after, delete (length before) (before ++ callback :: after)
                          = before ++ after) as Hdel.
  { intros before after. induction before as [|c before IH]; simpl; [done|].
    by rewrite IH. }
  unfold Store.emitted_to, Store.on, Store.off, Store.Listeners in *. split_and!.
  - by rewrite lookup_insert_eq.
  - intros Hnot. split.
    + destruct (listeners !! event) as [callbacks|] eqn:Hev; [|done].
      by rewrite Hmiss.
    + rewrite lookup_insert_eq. rewrite Hfind by done.
      rewrite lookup_insert_eq, Hdel. simpl. by rewrite app_nil_r.
  - intros before after Hev Hnot.
    destruct (listeners !! event) as [callbacks|] eqn:Hl; simpl in Hev.
    + subst callbacks. rewrite Hfind by done. by rewrite lookup_insert_eq, Hdel.
    + by destruct before.
  - intros other Hne. split.
    + by rewrite lookup_insert_ne.
    + destruct (listeners !! event) as [callbacks|]; [|done].
      destruct (Store.indexOf callback callbacks); [|done].
      by rewrite lookup_insert_ne.
Qed.

(** ** The items of the club in view *)

Section ViewLemmas.

Implicit Types (st : State) (club : Club).

Lemma getCurrentClub_Some st club :
  Store.getCurrentClub st = Some club →
  truthy (currentClubId st) = true
  ∧ AppState.getBookClub st (currentClubId st) = Some club.
Proof.
  unfold Store.getCurrentClub. by destruct (truthy (currentClubId st)).
Qed.

Lemma getCurrentClub_write st club club' :
  Store.getCurrentClub st = Some club →
  UserManager.hasAccess st club' = true →
  Store.getCurrentClub (Store.write (currentClubId st) club' st) = Some club'.
Proof.
  intros [Htruthy Hclub]%getCurrentClub_Some Hacc.
  unfold Store.getCurrentClub. simpl. rewrite Htruthy.
  by eapply getBookClub_write.
Qed.

Lemma lookup_insert_at (i : nat) (x : string) (l : list string) :
  (i ≤ length l)%nat → BookManager.insert_at i x l !! i = Some x.
Proof.
  intros Hi. unfold BookManager.insert_at.
  rewrite lookup_app_r by (rewrite length_take; lia).
  rewrite length_take. by replace (i - i `min` length l)%nat with 0%nat by lia.
Qed.

Lemma delete_insert_at (i : nat) (x : string) (l : list string) :
  (i ≤ length l)%nat → delete i (BookManager.insert_at i x l) = l.
Proof.
  intros Hi. unfold BookManager.insert_at.
  rewrite delete_take_drop.
  rewrite take_app_length' by (rewrite length_take; lia).
  change (take i l ++ x :: drop i l) with (take i l ++ [x] ++ drop i l).
  rewrite app_assoc, drop_app_length' by (rewrite length_app, length_take; simpl; lia).
  apply take_drop.
Qed.

Lemma insert_at_Permutation (i : nat) (x : string) (l : list string) :
  BookManager.insert_at i x l ≡ₚ x :: l.
Proof.
  unfold BookManager.insert_at. rewrite <- Permutation_middle.
  by rewrite take_drop.
Qed.

Lemma insert_at_delete (i : nat) (x : string) (l : list string) :
  l !! i = Some x → BookManager.insert_at i x (delete i l) = l.
Proof.
  intros Hi. pose proof (lookup_lt_Some _ _ _ Hi) as Hlt.
  unfold BookManager.insert_at. rewrite delete_take_drop.
  rewrite take_app_length', drop_app_length' by (rewrite length_take; lia).
  by apply take_drop_middle.
Qed.

End ViewLemmas.

(** X18. [moveBook] with both indices inside the list reorders the items of
    the club in view and loses none: the new list is a permutation of the old
    one, the moved item stands at [toIndex], and the other items keep their
    order; moving an item to its own place changes nothing in the list. With
    an index outside the list nothing is moved and the state is untouched. *)
Theorem moveBook_reorders (fromIndex toIndex : Z) (st : State) (club : Club) :
  Store.getCurrentClub st = Some club →
  let n := Z.of_nat (length (c_books club)) in
  let '(moved, st') := BookManager.moveBook fromIndex toIndex st in
  if bool_decide (0 ≤ fromIndex < n ∧ 0 ≤ toIndex < n) then
    moved = true
    ∧ ∃ club',
        Store.getCurrentClub st' = Some club'
        ∧ c_books club' ≡ₚ c_books club
        ∧ c_books club' !! Z.to_nat toIndex = c_books club !! Z.to_nat fromIndex
        ∧ delete (Z.to_nat toIndex) (c_books club')
          = delete (Z.to_nat fromIndex) (c_books club)
        ∧ (fromIndex = toIndex → c_books club' = c_books club)
  else moved = false ∧ st' = st.
Proof.
  intros Hcur n. unfold BookManager.moveBook. rewrite Hcur. fold n.
  destruct (decide (0 ≤ fromIndex < n ∧ 0 ≤ toIndex < n)) as [Hrange|Hrange].
  - rewrite (bool_decide_eq_true_2 (_ ∧ _)) by done.
    destruct Hrange as [Hfrom Hto].
    rewrite (bool_decide_eq_false_2 (fromIndex < 0)) by lia.
    rewrite (bool_decide_eq_false_2 (toIndex < 0)) by lia.
    rewrite (bool_decide_eq_false_2 (n ≤ fromIndex)) by lia.
    rewrite (bool_decide_eq_false_2 (n ≤ toIndex)) by lia. simpl.
    destruct (lookup_lt_is_Some_2 (c_books club) (Z.to_nat fromIndex))
      as [movedBook Hmoved]; [lia|].
    rewrite Hmoved. split; [done|].
    pose proof (lookup_lt_Some _ _ _ Hmoved) as Hlt.
    assert (Z.to_nat toIndex ≤ length (delete (Z.to_nat fromIndex) (c_books club)))%nat
      as Hfits.
    { rewrite length_delete by by eexists. lia. }
    eexists. split.
    { apply (getCurrentClub_write st club); [done|].
      apply getCurrentClub_Some in Hcur as [_ Hclub].
      by apply getBookClub_Some in Hclub as [_ ?]. }
    simpl. split_and!.
    + rewrite insert_at_Permutation. symmetry. by apply delete_Permutation.
    + by rewrite lookup_insert_at.
    + by rewrite delete_insert_at.
    + intros <-. by apply insert_at_delete.
  - rewrite (bool_decide_eq_false_2 (_ ∧ _)) by done.
    assert (bool_decide (fromIndex < 0) || bool_decide (toIndex < 0)
            || bool_decide (n ≤ fromIndex) || bool_decide (n ≤ toIndex) = true) as ->;
      [|done].
    destruct (decide (fromIndex < 0)); [by rewrite bool_decide_eq_true_2|].
    destruct (decide (toIndex < 0));
      [by rewrite (bool_decide_eq_true_2 (toIndex < 0)), orb_true_r|].
    destruct (decide (n ≤ fromIndex));
      [by rewrite (bool_decide_eq_true_2 (n ≤ fromIndex)), orb_true_r|].
    rewrite (bool_decide_eq_true_2 (n ≤ toIndex)) by lia. by rewrite orb_true_r.
Qed.

Lemma moveBook_reorders_witness :
  let st := Scenario.viewing ["A"; "B"; "C"; "D"] ∅ in
  let '(moved, st') := BookManager.moveBook 0 2 st in
  moved = true
  ∧ ∃ club',
      Store.getCurrentClub st' = Some club'
      ∧ c_books club' ≡ₚ ["A"; "B"; "C"; "D"]
      ∧ c_books club' !! 2%nat = Some "A"
      ∧ delete 2%nat (c_books club') = ["B"; "C"; "D"]
      ∧ (0 = 2 → c_books club' = ["A"; "B"; "C"; "D"]).
Proof.
  intros st.
  exact (moveBook_reorders 0 2 st (Scenario.clubX ["A"; "B"; "C"; "D"]) eq_refl).
Defined.

(** *** Clubs are stored under their own id

    [addBook] passes [club.id] to the store, not the id in view. The two
    name the same club as long as every club is stored under its own id,
    which is how the remote handlers and the local edits write. *)

Section OwnIdLemmas.

Implicit Types (st : State) (club : Club) (clubId : jsval).

Lemma own_id_same st st' :
  bookClubs st' = bookClubs st → stored_under_own_id st → stored_under_own_id st'.
Proof. unfold stored_under_own_id. by intros ->. Qed.

Lemma own_id_insert st st' key club :
  bookClubs st' = <[key := club]> (bookClubs st) →
  to_key (c_id club) = key → stored_under_own_id st → stored_under_own_id st'.
Proof.
  unfold stored_under_own_id. intros -> Hid Hinv k c.
  rewrite lookup_insert. case_decide; [intros [= <-]; congruence|apply Hinv].
Qed.

Lemma own_id_delete st st' key :
  bookClubs st' = delete key (bookClubs st) →
  stored_under_own_id st → stored_under_own_id st'.
Proof.
  unfold stored_under_own_id. intros -> Hinv k c Hk.
  apply lookup_delete_Some in Hk as [_ Hk]. by eapply Hinv.
Qed.

Lemma setBookClub_own_id clubId club st :
  to_key (c_id club) = to_key clubId →
  stored_under_own_id st → stored_under_own_id (AppState.setBookClub clubId club st).
Proof.
  intros Hid. eapply own_id_insert; [apply setBookClub_bookClubs|done].
Qed.

Lemma removeBookClub_own_id clubId st :
  stored_under_own_id st → stored_under_own_id (AppState.removeBookClub clubId st).2.
Proof.
  unfold AppState.removeBookClub, AppState.setCurrentClubId.
  intros Hinv.
  repeat case_match; simpl; try done; by eapply own_id_delete.
Qed.

Lemma resolveConflict_own_id c st :
  stored_under_own_id st → stored_under_own_id (RealtimeManager.resolveConflict c st).
Proof.
  unfold RealtimeManager.resolveConflict. destruct (type c).
  - eapply own_id_insert; [apply resolveConcurrentModification_bookClubs|done].
  - eapply own_id_insert; [apply resolveBookListConflict_bookClubs|done].
Qed.

Lemma handleClubInsertOrUpdate_own_id u st st' :
  RealtimeManager.handleClubInsertOrUpdate (Some u) st = Some st' →
  stored_under_own_id st → stored_under_own_id st'.
Proof.
  unfold RealtimeManager.handleClubInsertOrUpdate. intros Hrun Hinv.
  match type of Hrun with context [AppState.setBookClub ?i ?d st] =>
    pose proof (setBookClub_own_id i d st eq_refl Hinv) as Hset
  end.
  revert Hrun. repeat case_match; intros [= <-]; done.
Qed.

Lemma handleClubDelete_own_id d st st' :
  RealtimeManager.handleClubDelete d st = Some st' →
  stored_under_own_id st → stored_under_own_id st'.
Proof.
  unfold RealtimeManager.handleClubDelete. intros Hrun Hinv.
  destruct d as [d|]; [|done].
  pose proof (removeBookClub_own_id (r_id d) st Hinv) as Hrem.
  revert Hrun. repeat case_match; intros [= <-]; done.
Qed.

(** The change dispatcher stores every club under its own id. *)
Lemma handleBookClubUpdate_own_id tnow payload st :
  stored_under_own_id st →
  stored_under_own_id (RealtimeManager.handleBookClubUpdate tnow payload st).
Proof.
  intros Hinv.
  unfold RealtimeManager.handleBookClubUpdate. case_match; [done|].
  destruct (RealtimeManager.dispatch tnow payload st) as [st'|] eqn:Hd; [|done].
  unfold RealtimeManager.dispatch in Hd.
  destruct (if RealtimeManager.conflictResolutionEnabled
            then RealtimeManager.detectConflict tnow payload st else Some None)
    as [[c|]|]; [| |done].
  { injection Hd as <-. by apply resolveConflict_own_id. }
  destruct (eventType payload).
  - destruct (RealtimeManager.handleClubInsertOrUpdate (p_new payload) st) as [s|] eqn:H1;
      [|done].
    injection Hd as <-. destruct (p_new payload) as [u|]; [|done].
    exact (handleClubInsertOrUpdate_own_id u st s H1 Hinv).
  - destruct (RealtimeManager.handleClubInsertOrUpdate (p_new payload) st) as [s|] eqn:H1;
      [|done].
    injection Hd as <-. destruct (p_new payload) as [u|]; [|done].
    exact (handleClubInsertOrUpdate_own_id u st s H1 Hinv).
  - destruct (RealtimeManager.handleClubDelete (p_old payload) st) as [s|] eqn:H1; [|done].
    injection Hd as <-. by apply (handleClubDelete_own_id _ _ _ H1).
  - by injection Hd as <-.
Qed.

(** So does loading from the server, and the local edit of one item. *)
Lemma loadFromSupabase_own_id data st :
  stored_under_own_id st → stored_under_own_id (StorageManager.loadFromSupabase data st).
Proof.
  unfold StorageManager.loadFromSupabase. destruct (negb _); [done|].
  destruct data as [rows|]; [|done].
  revert st. induction rows as [|row rows IH]; intros st Hinv; [done|].
  simpl. apply IH. by apply setBookClub_own_id.
Qed.

Lemma addBookToClub_own_id clubId bookTitle st :
  stored_under_own_id st →
  stored_under_own_id (Store.addBookToClub clubId bookTitle st).1.2.
Proof.
  intros Hinv. unfold Store.addBookToClub.
  destruct (AppState.getBookClub st clubId) as [club|] eqn:Hclub; [|done].
  destruct (negb _); [|done]. simpl.
  apply getBookClub_Some in Hclub as [Hlook _].
  eapply own_id_insert; [done| |done]. simpl. by eapply Hinv.
Qed.

(** Under the invariant the club in view carries the id in view. *)
Lemma getCurrentClub_own_id st club :
  stored_under_own_id st →
  Store.getCurrentClub st = Some club →
  to_key (c_id club) = to_key (currentClubId st).
Proof.
  intros Hinv [_ Hclub]%getCurrentClub_Some.
  apply getBookClub_Some in Hclub as [Hlook _]. by eapply Hinv.
Qed.

End OwnIdLemmas.

(** X19. For a club in view that is stored under its own id, so that
    [club.id] names the club in view, [addBook] adds the title it is given, or
    else the typed one, exactly when that title is a non-empty string the club
    does not hold yet and the club holds fewer than 100 items; then the title
    is appended. The limit is announced exactly when only the limit stands in
    the way. In every other case the state is untouched, so such a club of at
    most 100 items never grows beyond 100 this way. *)
Theorem addBook_respects_limit (title typed : jsval) (st : State) (club : Club) :
  Store.getCurrentClub st = Some club →
  to_key (c_id club) = to_key (currentClubId st) →
  let chosen := if truthy title then title else typed in
  let '(success, st', signals) := BookManager.addBook title typed st in
  (success = true
   ↔ ∃ t, chosen = JStr t ∧ t ≠ "" ∧ (t ∉ c_books club)
          ∧ (length (c_books club) < BookManager.maxBooksPerClub)%nat)
  ∧ (signals = [Alerted LimitReached]
     ↔ ∃ t, chosen = JStr t ∧ t ≠ "" ∧ (t ∉ c_books club)
            ∧ (BookManager.maxBooksPerClub ≤ length (c_books club))%nat)
  ∧ (success = false → st' = st)
  ∧ (success = true →
     ∃ t, chosen = JStr t
          ∧ Store.getCurrentClub st' = Some (set_books (c_books club ++ [t]) club)
          ∧ signals = [Sent (bookAdded (c_id club) t)])
  ∧ ∃ club',
      Store.getCurrentClub st' = Some club'
      ∧ ((length (c_books club) ≤ BookManager.maxBooksPerClub)%nat →
         (length (c_books club') ≤ BookManager.maxBooksPerClub)%nat).
Proof.
  intros Hcur Hid chosen. unfold BookManager.addBook. rewrite Hcur. fold chosen.
  assert (∀ t, truthy (JStr t) = true ↔ t ≠ "") as Htruthy.
  { intros t. simpl. rewrite negb_true_iff. apply String.eqb_neq. }
  destruct chosen as [| |t] eqn:Hchosen.
  1, 2: split_and!; [split; [done|by intros (? & ? & _)]
                    |split; [done|by intros (? & ? & _)]|done|done|by exists club].
  destruct (truthy (JStr t)) eqn:Ht; simpl.
  2: { assert (t = "") as ->.
       { destruct (decide (t = "")); [done|]. apply Htruthy in n. congruence. }
       split_and!; [split; [done|by intros (? & [= <-] & ? & _)]
                   |split; [done|by intros (? & [= <-] & ? & _)]|done|done|by exists club]. }
  apply Htruthy in Ht. unfold JS.has.
  destruct (decide (t ∈ c_books club)) as [Hin|Hin].
  { rewrite bool_decide_eq_true_2 by done.
    split_and!; [split; [done|by intros (? & [= <-] & _ & ? & _)]
                |split; [done|by intros (? & [= <-] & _ & ? & _)]|done|done|by exists club]. }
  rewrite bool_decide_eq_false_2 by done.
  destruct (decide (BookManager.maxBooksPerClub ≤ length (c_books club))%nat) as [Hfull|Hroom].
  { rewrite bool_decide_eq_true_2 by done.
    split_and!; [split; [done|intros (? & _ & _ & _ & ?); lia]
                |split; [intros _; by exists t|done]|done|done|by exists club]. }
  rewrite bool_decide_eq_false_2 by done.
  apply getCurrentClub_Some in Hcur as Hfound. destruct Hfound as [Hview Hclub].
  assert (AppState.getBookClub st (c_id club) = Some club) as Hown.
  { unfold AppState.getBookClub in *. by rewrite Hid. }
  assert (∀ c, Store.write (c_id club) c st = Store.write (currentClubId st) c st) as Hwrite.
  { intros c. unfold Store.write. by rewrite Hid. }
  unfold Store.addBookToClub. rewrite Hown. unfold JS.has.
  rewrite bool_decide_eq_false_2 by done. cbn [negb]. rewrite Hwrite. simpl.
  assert (Store.getCurrentClub
            (emit SaveData
               (Store.write (currentClubId st) (set_books (c_books club ++ [t]) club) st))
          = Some (set_books (c_books club ++ [t]) club)) as Hafter.
  { apply (getCurrentClub_write st club); [done|].
    by apply getBookClub_Some in Hclub as [_ ?]. }
  split_and!.
  - split; [intros _; exists t; split_and!; [done|done|done|lia]|done].
  - split; [done|intros (? & _ & _ & _ & ?); lia].
  - done.
  - intros _. by exists t.
  - eexists. split; [done|]. simpl. rewrite length_app. simpl. lia.
Qed.

Lemma addBook_respects_limit_witness :
  let st := Scenario.viewing ["A"; "B"] ∅ in
  let club := Scenario.clubX ["A"; "B"] in
  let '(success, st', signals) := BookManager.addBook JNull (JStr "C") st in
  (success = true
   ↔ ∃ t, JStr "C" = JStr t ∧ t ≠ "" ∧ (t ∉ c_books club)
          ∧ (length (c_books club) < BookManager.maxBooksPerClub)%nat)
  ∧ (signals = [Alerted LimitReached]
     ↔ ∃ t, JStr "C" = JStr t ∧ t ≠ "" ∧ (t ∉ c_books club)
            ∧ (BookManager.maxBooksPerClub ≤ length (c_books club))%nat)
  ∧ (success = false → st' = st)
  ∧ (success = true →
     ∃ t, JStr "C" = JStr t
          ∧ Store.getCurrentClub st' = Some (set_books (c_books club ++ [t]) club)
          ∧ signals = [Sent (bookAdded (c_id club) t)])
  ∧ ∃ club',
      Store.getCurrentClub st' = Some club'
      ∧ ((length (c_books club) ≤ BookManager.maxBooksPerClub)%nat →
         (length (c_books club') ≤ BookManager.maxBooksPerClub)%nat).
Proof.
  intros st club.
  exact (addBook_respects_limit JNull (JStr "C") st club eq_refl eq_refl).
Defined.

(** X20. [getSuggestions] never suggests a title the club in view holds:
    it returns at most three titles, all different, each from its fixed list
    and none of them among the items of the club; and it suggests nothing when
    no club is in view or the club holds no item. *)
Theorem getSuggestions_are_new (st : State) :
  let suggestions := BookManager.getSuggestions st in
  (length suggestions ≤ 3)%nat
  ∧ NoDup suggestions
  ∧ (∀ suggestion,
       suggestion ∈ suggestions →
       suggestion ∈ BookManager.mockSuggestions
       ∧ ∃ club, Store.getCurrentClub st = Some club
                 ∧ c_books club ≠ [] ∧ suggestion ∉ c_books club)
  ∧ (∀ club, Store.getCurrentClub st = Some club →
       suggestions
       = if bool_decide (c_books club = []) then []
         else take 3 (filter (fun suggestion => suggestion ∉ c_books club)
                             BookManager.mockSuggestions)).
Proof.
  intros suggestions. subst suggestions. unfold BookManager.getSuggestions.
  destruct (Store.getCurrentClub st) as [club|];
    [|split_and!; [simpl; lia|apply NoDup_nil_2|by intros ? ?%elem_of_nil|done]].
  assert (∀ l : list string,
            filter (fun suggestion => negb (JS.has (c_books club) suggestion)) l
            = filter (fun suggestion => suggestion ∉ c_books club) l) as Hfilter.
  { intros l. apply list_filter_iff. intros x. simpl. unfold JS.has.
    rewrite negb_True. by rewrite bool_decide_spec. }
  rewrite Hfilter.
  destruct (c_books club) as [|book books] eqn:Hbooks; simpl.
  { split_and!; [lia|apply NoDup_nil_2|by intros ? ?%elem_of_nil|].
    intros ? [= <-]. by rewrite Hbooks. }
  split_and!.
  - rewrite length_take. lia.
  - eapply sublist_NoDup; [|apply sublist_take]. apply NoDup_filter.
    unfold BookManager.mockSuggestions.
    apply (bool_decide_unpack _). by vm_compute.
  - intros suggestion Hin. eapply elem_of_sublist in Hin; [|apply sublist_take].
    apply list_elem_of_filter in Hin as [Hnot Hin]. split; [done|].
    exists club. by rewrite Hbooks.
  - intros club' [= <-]. by rewrite Hbooks.
Qed.

(** ** Navigation *)

Section NavigationLemmas.

Implicit Types (st : State) (env : Env) (nav : Nav).

(** What the realtime manager never writes. *)
Lemma subscribeToBookClub_store env clubId st :
  let st' := (RealtimeManager.subscribeToBookClub env clubId st).2 in
  bookClubs st' = bookClubs st ∧ currentClubId st' = currentClubId st
  ∧ currentUserId st' = currentUserId st.
Proof.
  unfold RealtimeManager.subscribeToBookClub, RealtimeManager.handleSubscriptionError,
    RealtimeManager.attemptReconnect, RealtimeManager.setupPresenceTracking.
  by repeat case_match.
Qed.

Lemma unsubscribeFromBookClub_store env clubId st :
  let st' := (RealtimeManager.unsubscribeFromBookClub env clubId st).2 in
  bookClubs st' = bookClubs st ∧ currentClubId st' = currentClubId st
  ∧ currentUserId st' = currentUserId st.
Proof.
  unfold RealtimeManager.unsubscribeFromBookClub, RealtimeManager.cleanupPresenceTracking.
  repeat case_match; simplify_eq; done.
Qed.

Lemma handleCurrentClubChange_store env oldClubId newClubId st :
  let st' := Main.handleCurrentClubChange env oldClubId newClubId st in
  bookClubs st' = bookClubs st ∧ currentClubId st' = currentClubId st
  ∧ currentUserId st' = currentUserId st.
Proof.
  unfold Main.handleCurrentClubChange.
  set (st1 := match oldClubId with JStr old => _ | _ => st end).
  assert (bookClubs st1 = bookClubs st ∧ currentClubId st1 = currentClubId st
          ∧ currentUserId st1 = currentUserId st) as (Hb & Hc & Hu).
  { subst st1. destruct oldClubId as [| |old]; [done|done|].
    destruct (truthy (JStr old) && SupabaseManager.isCollaborativeMode st); [|done].
    apply unsubscribeFromBookClub_store. }
  simpl. rewrite <- Hb, <- Hc, <- Hu.
  destruct newClubId as [| |new]; [done|done|].
  destruct (truthy (JStr new) && SupabaseManager.isCollaborativeMode st1); [|done].
  apply subscribeToBookClub_store.
Qed.

Lemma setCurrentClubId_store env clubId st :
  let st' := Main.setCurrentClubId env clubId st in
  bookClubs st' = bookClubs st ∧ currentClubId st' = clubId
  ∧ currentUserId st' = currentUserId st.
Proof.
  unfold Main.setCurrentClubId.
  destruct (handleCurrentClubChange_store env (currentClubId st) clubId
              (AppState.setCurrentClubId clubId st)) as (-> & -> & ->).
  done.
Qed.

Lemma navigateTo_same tnow view nav :
  currentView nav = view →
  NavigationManager.navigateTo tnow view nav = mkNav view (viewHistory nav).
Proof.
  intros Hsame. unfold NavigationManager.navigateTo.
  by rewrite bool_decide_eq_false_2 by (by intros ?).
Qed.

Lemma navigateTo_other tnow view nav :
  currentView nav ≠ view →
  NavigationManager.navigateTo tnow view nav
  = mkNav view (drop (length (viewHistory nav) - 9) (viewHistory nav)
                ++ [(currentView nav, tnow)]).
Proof.
  intros Hother. unfold NavigationManager.navigateTo.
  rewrite bool_decide_eq_true_2 by done. f_equal.
  rewrite length_app. simpl.
  destruct (decide (10 < length (viewHistory nav) + 1)%nat) as [Hlong|Hshort].
  - rewrite bool_decide_eq_true_2 by done.
    rewrite drop_app_le by lia. do 2 f_equal. lia.
  - rewrite bool_decide_eq_false_2 by done.
    by replace (length (viewHistory nav) - 9)%nat with 0%nat by lia.
Qed.

Lemma navigateTo_length tnow view nav :
  (length (viewHistory nav) ≤ 10)%nat →
  (length (viewHistory (NavigationManager.navigateTo tnow view nav)) ≤ 10)%nat.
Proof.
  intros Hlen. destruct (decide (currentView nav = view)) as [Hsame|Hother].
  - by rewrite navigateTo_same.
  - rewrite navigateTo_other by done. simpl.
    rewrite length_app, length_drop. simpl. lia.
Qed.

Lemma goBack_pop env st nav :
  NavigationManager.goBack env (st, nav)
  = NavigationManager.showHome env
      (st, mkNav (currentView nav) (NavigationManager.pop (viewHistory nav))).
Proof.
  unfold NavigationManager.goBack. cbn [fst snd].
  case_bool_decide as Hlen; [done|].
  destruct nav as [view [|entry history]]; [done|]. simpl in Hlen. lia.
Qed.

End NavigationLemmas.

(** X21. [navigateTo] keeps at most the ten newest entries of the history.
    Navigating to the view that is shown records nothing; navigating to the
    other view records the view that is left, with the time, as the newest
    entry after the nine newest of the old entries. *)
Theorem navigateTo_bounds_history (tnow : Z) (view : View) (nav : Nav) :
  let nav' := NavigationManager.navigateTo tnow view nav in
  currentView nav' = view
  ∧ (currentView nav = view → viewHistory nav' = viewHistory nav)
  ∧ (currentView nav ≠ view →
     viewHistory nav'
     = drop (length (viewHistory nav) - 9) (viewHistory nav) ++ [(currentView nav, tnow)]
     ∧ length (viewHistory nav') = (10 `min` S (length (viewHistory nav)))%nat)
  ∧ ((length (viewHistory nav) ≤ 10)%nat → (length (viewHistory nav') ≤ 10)%nat).
Proof.
  intros nav'. split; [done|]. split; [|split].
  - intros Hsame. subst nav'. by rewrite navigateTo_same.
  - intros Hother. subst nav'. rewrite navigateTo_other by done. cbn [viewHistory].
    split; [done|]. rewrite length_app, length_drop. cbn [length]. lia.
  - apply navigateTo_length.
Qed.

(** X22. [goBack] always ends on the home view with no club in view,
    whatever the history holds, and leaves the stored clubs alone. On the
    home view it takes the newest entry off the history; leaving the club
    view this way it takes the newest entry off and records the club view in
    its place. A history of at most ten entries stays one. *)
Theorem goBack_leads_home (env : Env) (app : State * Nav) :
  let app' := NavigationManager.goBack env app in
  let popped := NavigationManager.pop (viewHistory app.2) in
  currentView app'.2 = home
  ∧ currentClubId app'.1 = JNull
  ∧ bookClubs app'.1 = bookClubs app.1
  ∧ viewHistory app'.2
    = match currentView app.2 with
      | home => popped
      | bookClub => drop (length popped - 9) popped ++ [(bookClub, now env)]
      end
  ∧ ((length (viewHistory app.2) ≤ 10)%nat → (length (viewHistory app'.2) ≤ 10)%nat).
Proof.
  destruct app as [st nav]. intros app' popped. subst app'.
  rewrite goBack_pop. unfold NavigationManager.showHome. cbn [fst snd].
  subst popped. cbn [fst snd].
  assert (length (NavigationManager.pop (viewHistory nav)) ≤ length (viewHistory nav))%nat
    as Hshorter.
  { unfold NavigationManager.pop. rewrite length_take. lia. }
  destruct (setCurrentClubId_store env JNull st) as (Hb & Hc & _).
  split; [done|]. split; [done|]. split; [done|]. split.
  - destruct (currentView nav) eqn:Hcur.
    + by rewrite navigateTo_same.
    + by rewrite navigateTo_other.
  - intros Hlen. apply navigateTo_length. cbn [viewHistory]. lia.
Qed.

(** ** The registry and the club in view *)

Section ViewRegistryLemmas.

Implicit Types (st : State) (env : Env).

Lemma truthy_JStr (s : string) : truthy (JStr s) = true ↔ s ≠ "".
Proof. simpl. rewrite negb_true_iff. apply String.eqb_neq. Qed.

Lemma registry_empty st :
  (∀ clubId, ¬ is_Some (subscriptions st !! clubId)) → subscriptions st = ∅.
Proof.
  intros Hnone. apply map_empty. intros clubId.
  destruct (subscriptions st !! clubId) eqn:Hlook; [|done].
  destruct (Hnone clubId). by eexists.
Qed.

(** Leaving a club closes its subscription, entering one opens it. *)
Lemma setCurrentClubId_registry env clubId st :
  collaborative st = true →
  no_exception env →
  registry_follows_view st →
  let st' := Main.setCurrentClubId env clubId st in
  collaborative st' = true
  ∧ (∀ c, is_Some (subscriptions st' !! c) ↔ clubId = JStr c ∧ c ≠ "").
Proof.
  intros Hon (Hch & Hpr & Hun & Hpun) Hview.
  unfold Main.setCurrentClubId, Main.handleCurrentClubChange.
  set (st0 := AppState.setCurrentClubId clubId st).
  assert (collaborative st0 = true) as Hon0 by done.
  assert (subscriptions st0 = subscriptions st) as Hsubs0 by done.
  set (st1 := match currentClubId st with JStr old => _ | _ => st0 end).
  assert (collaborative st1 = true ∧ subscriptions st1 = ∅) as [Hon1 Hsubs1].
  { subst st1. destruct (currentClubId st) as [| |old] eqn:Hold.
    1, 2: split; [done|]; apply registry_empty; intros c Hc;
          rewrite Hsubs0 in Hc; destruct (Hview c Hc) as [? _]; congruence.
    unfold SupabaseManager.isCollaborativeMode. rewrite Hon0, andb_true_r.
    destruct (truthy (JStr old)) eqn:Htruthy.
    - destruct (subscriptions st0 !! old) as [sub|] eqn:Hsub.
      + destruct (unsubscribe_registered env old st0) as (-> & _ & Hsame);
          [done|done|by eexists|].
        split; [by destruct Hsame as (_ & _ & _ & -> & _)|].
        apply map_empty. intros c. destruct (decide (c = old)) as [->|Hne].
        * apply lookup_delete_eq.
        * rewrite lookup_delete_ne by done. rewrite Hsubs0.
          destruct (subscriptions st !! c) eqn:Hc; [|done].
          destruct (Hview c) as [Heq _]; [by eexists|]. congruence.
      + unfold RealtimeManager.unsubscribeFromBookClub. rewrite Hsub.
        split; [done|]. apply registry_empty. intros c Hc. simpl in Hc.
        destruct (Hview c) as [Heq _]; [by rewrite <- Hsubs0|].
        assert (c = old) as -> by congruence.
        destruct Hc as [sub' Hsub']. change (subscriptions st0 !! old = Some sub') in Hsub'.
        congruence.
    - split; [done|]. apply registry_empty. intros c Hc. rewrite Hsubs0 in Hc.
      destruct (Hview c Hc) as [Heq Hne].
      assert (c = old) as -> by congruence.
      apply truthy_JStr in Hne. congruence. }
  clearbody st1. simpl.
  destruct clubId as [| |new].
  1, 2: split; [done|]; intros c; rewrite Hsubs1, lookup_empty;
        split; [by intros [? ?]|by intros [? _]].
  unfold SupabaseManager.isCollaborativeMode. rewrite Hon1, andb_true_r.
  destruct (truthy (JStr new)) eqn:Htruthy.
  - rewrite subscribeToBookClub_fresh by (done || by rewrite Hsubs1).
    simpl. split; [done|]. intros c. rewrite Hsubs1.
    apply truthy_JStr in Htruthy.
    destruct (decide (new = c)) as [->|Hne].
    + rewrite lookup_insert_eq. split; [done|by eexists].
    + rewrite lookup_insert_ne, lookup_empty by done.
      split; [by intros [? ?]|]. intros [[= ?] _]. done.
  - split; [done|]. intros c. rewrite Hsubs1, lookup_empty.
    split; [by intros [? ?]|]. intros [[= ->] Hne].
    apply truthy_JStr in Hne. congruence.
Qed.

End ViewRegistryLemmas.

(** X23. In collaborative mode, when no call of the client library throws
    and the registry holds no club but the one in view, the views keep it so:
    after [showBookClub] of a club that [getBookClub] finds, that club is shown
    and in view and the registry holds exactly its id (nothing for an id that
    is no non-empty string); for a club that is not found the home view is
    shown, no club is in view and the registry is empty, as it is after
    [showHome]. *)
Theorem view_decides_the_registry (env : Env) (clubId : jsval) (app : State * Nav) :
  collaborative app.1 = true →
  no_exception env →
  registry_follows_view app.1 →
  let shown := NavigationManager.showBookClub env clubId app in
  let back := NavigationManager.showHome env shown in
  registry_follows_view shown.1
  ∧ (is_Some (AppState.getBookClub app.1 clubId) →
     currentView shown.2 = bookClub
     ∧ currentClubId shown.1 = clubId
     ∧ ∀ c, is_Some (subscriptions shown.1 !! c) ↔ clubId = JStr c ∧ c ≠ "")
  ∧ (AppState.getBookClub app.1 clubId = None →
     currentView shown.2 = home
     ∧ currentClubId shown.1 = JNull
     ∧ subscriptions shown.1 = ∅)
  ∧ currentView back.2 = home
  ∧ currentClubId back.1 = JNull
  ∧ subscriptions back.1 = ∅.
Proof.
  destruct app as [st nav]. intros Hon Henv Hview shown back.
  cbn [fst snd] in Hon, Hview.
  assert (∀ s, collaborative s = true → registry_follows_view s →
            let s' := Main.setCurrentClubId env JNull s in
            currentClubId s' = JNull ∧ subscriptions s' = ∅) as Hhome.
  { intros s Hs Hfollows s'.
    destruct (setCurrentClubId_store env JNull s) as (_ & Hcur & _).
    destruct (setCurrentClubId_registry env JNull s Hs Henv Hfollows) as [_ Hreg].
    split; [done|]. apply registry_empty. intros c Hc. by apply Hreg in Hc as [? _]. }
  assert (collaborative shown.1 = true ∧ registry_follows_view shown.1) as [Hon' Hview'].
  { subst shown. unfold NavigationManager.showBookClub, NavigationManager.showHome.
    cbn [fst snd].
    destruct (AppState.getBookClub st clubId) as [club|]; cbn [fst snd].
    - destruct (setCurrentClubId_store env clubId st) as (_ & Hcur & _).
      destruct (setCurrentClubId_registry env clubId st Hon Henv Hview) as [Hon' Hreg].
      split; [done|]. intros c Hc. rewrite Hcur. by apply Hreg in Hc as [-> ?].
    - destruct (setCurrentClubId_registry env JNull st Hon Henv Hview) as [Hon' Hreg].
      split; [done|]. intros c Hc. by apply Hreg in Hc as [? _]. }
  split; [done|]. split; [|split].
  - intros [club Hclub]. subst shown. unfold NavigationManager.showBookClub.
    cbn [fst snd] in *. rewrite Hclub. cbn [fst snd].
    destruct (setCurrentClubId_store env clubId st) as (_ & Hcur & _).
    destruct (setCurrentClubId_registry env clubId st Hon Henv Hview) as [_ Hreg].
    split; [done|]. by split.
  - intros Hnone. subst shown. unfold NavigationManager.showBookClub.
    cbn [fst snd] in *. rewrite Hnone. unfold NavigationManager.showHome. cbn [fst snd].
    split; [done|]. by apply Hhome.
  - subst back. unfold NavigationManager.showHome at 1. cbn [fst snd].
    split; [done|]. by apply Hhome.
Qed.

Lemma view_decides_the_registry_witness :
  let st := run [EvInitialize true] (Scenario.viewing ["A"] ∅) in
  let shown := NavigationManager.showBookClub Scenario.env0 (JStr "X")
                 (st, NavigationManager.initial) in
  let back := NavigationManager.showHome Scenario.env0 shown in
  registry_follows_view shown.1
  ∧ (is_Some (AppState.getBookClub st (JStr "X")) →
     currentView shown.2 = bookClub
     ∧ currentClubId shown.1 = JStr "X"
     ∧ ∀ c, is_Some (subscriptions shown.1 !! c) ↔ JStr "X" = JStr c ∧ c ≠ "")
  ∧ (AppState.getBookClub st (JStr "X") = None →
     currentView shown.2 = home
     ∧ currentClubId shown.1 = JNull
     ∧ subscriptions shown.1 = ∅)
  ∧ currentView back.2 = home
  ∧ currentClubId back.1 = JNull
  ∧ subscriptions back.1 = ∅.
Proof.
  intros st.
  refine (view_decides_the_registry Scenario.env0 (JStr "X")
            (st, NavigationManager.initial) eq_refl _ _).
  - by repeat split.
  - intros c [sub Hsub]. by vm_compute in Hsub.
Defined.

(** ** Joining a club *)

Section JoinLemmas.

Implicit Types (st : State) (clubId : jsval).

Lemma getBookClub_same st st' clubId :
  bookClubs st' = bookClubs st →
  currentUserId st' = currentUserId st →
  AppState.getBookClub st' clubId = AppState.getBookClub st clubId.
Proof.
  intros Hb Hu. unfold AppState.getBookClub. rewrite Hb.
  destruct (bookClubs st !! to_key clubId) as [club|]; [|done].
  by rewrite (hasAccess_same_user st st').
Qed.

Lemma isOwner_same_user st st' club :
  currentUserId st' = currentUserId st →
  UserManager.isOwner st' club = UserManager.isOwner st club.
Proof. intros Hu. unfold UserManager.isOwner. by rewrite Hu. Qed.

End JoinLemmas.

(** X24. Joining a club whose row names another user as owner stores it
    as a shared club: [joinFromUrl] succeeds, the club is found under the id
    with the name and the items of the row, it is in view on the club view, it
    is not flagged as owned, and the viewer cannot remove it: [removeBookClub]
    returns [false] and changes nothing. A row without an owner id, however,
    is stored with the viewer's id, which makes the viewer its owner. *)
Theorem joined_club_is_shared (env : Env) (clubId : string) (row : Row) (app : State * Nav) :
  collaborative app.1 = true →
  r_user_id row ≠ JStr (currentUserId app.1) →
  let '(joined, app', signals) := BookClubManager.joinFromUrl env clubId (Some row) app in
  joined = true
  ∧ signals = [Alerted JoinedClub]
  ∧ currentView app'.2 = bookClub
  ∧ currentClubId app'.1 = JStr clubId
  ∧ ∃ club,
      AppState.getBookClub app'.1 (JStr clubId) = Some club
      ∧ c_name club = r_name row
      ∧ c_books club = RealtimeManager.books_or_empty row
      ∧ c_userId club = JS.or (r_user_id row) (JStr (currentUserId app.1))
      ∧ c_isOwner club = false
      ∧ UserManager.isOwner app'.1 club = negb (truthy (r_user_id row))
      ∧ (truthy (r_user_id row) = true →
         AppState.removeBookClub (JStr clubId) app'.1 = (false, app'.1)).
Proof.
  destruct app as [st nav]. cbn [fst snd]. intros Hon Hother.
  unfold BookClubManager.joinFromUrl, StorageManager.loadClubFromSupabase,
    SupabaseManager.isCollaborativeMode. cbn [fst snd]. rewrite Hon. cbn [negb fmap option_fmap option_map c_userId].
  unfold strict_eq at 1. rewrite bool_decide_eq_false_2 by done.
  set (shared := mkClub _ _ _ _ _ _ false true).
  set (st2 := emit SaveData (AppState.setBookClub (JStr clubId) shared st)).
  assert (currentUserId st2 = currentUserId st) as Huser
    by apply setBookClub_currentUserId.
  assert (AppState.getBookClub st2 (JStr clubId) = Some (AppState.enhancedClubData st shared))
    as Hfound by apply getBookClub_setBookClub.
  unfold NavigationManager.showBookClub. cbn [fst snd]. rewrite Hfound. cbn [fst snd].
  destruct (setCurrentClubId_store env (JStr clubId) st2) as (Hb & Hc & Hu).
  split; [done|]. split; [done|]. split; [done|]. split; [done|].
  exists (AppState.enhancedClubData st shared).
  assert (UserManager.isOwner (Main.setCurrentClubId env (JStr clubId) st2)
            (AppState.enhancedClubData st shared) = negb (truthy (r_user_id row))) as Hown.
  { rewrite (isOwner_same_user st) by congruence.
    unfold UserManager.isOwner, AppState.enhancedClubData, JS.or, strict_eq. simpl.
    rewrite (bool_decide_eq_false_2 (r_user_id row = _)) by done. simpl.
    rewrite orb_false_r. destruct (truthy (r_user_id row)); simpl.
    - by rewrite bool_decide_eq_false_2.
    - by rewrite bool_decide_eq_true_2. }
  split_and!.
  - by rewrite (getBookClub_same st2).
  - done.
  - done.
  - done.
  - simpl. unfold strict_eq. by rewrite bool_decide_eq_false_2.
  - done.
  - intros Htruthy. unfold AppState.removeBookClub. rewrite Hb.
    apply getBookClub_Some in Hfound as [-> _]. by rewrite Hown, Htruthy.
Qed.

Lemma joined_club_is_shared_witness :
  let app := (run [EvInitialize true] (initial Scenario.me), NavigationManager.initial) in
  let row := Scenario.rowX ["A"; "B"] 5 in
  let '(joined, app', signals) :=
    BookClubManager.joinFromUrl Scenario.env0 "X" (Some row) app in
  joined = true
  ∧ signals = [Alerted JoinedClub]
  ∧ currentView app'.2 = bookClub
  ∧ currentClubId app'.1 = JStr "X"
  ∧ ∃ club,
      AppState.getBookClub app'.1 (JStr "X") = Some club
      ∧ c_name club = r_name row
      ∧ c_books club = RealtimeManager.books_or_empty row
      ∧ c_userId club = JS.or (r_user_id row) (JStr (currentUserId app.1))
      ∧ c_isOwner club = false
      ∧ UserManager.isOwner app'.1 club = negb (truthy (r_user_id row))
      ∧ (truthy (r_user_id row) = true →
         AppState.removeBookClub (JStr "X") app'.1 = (false, app'.1)).
Proof.
  intros app row.
  refine (joined_club_is_shared Scenario.env0 "X" row app eq_refl _).
  discriminate.
Defined.

(** ** The user id *)

(** X25. [getCurrentUserId] always returns a usable (truthy) id and, once
    it has returned one, returns the same on every later call without
    touching the identity again. With no id in the field, an id kept in
    [localStorage] is reused and a missing or empty one is replaced by a
    generated id, which is stored. An id set with [setUserId] is the one
    returned, unless it is the empty string, which is replaced like a missing
    one; [resetUserId] always returns a generated id. *)
Theorem user_id_is_stable (stamp stamp' : string) (i : Identity) :
  let '(userId, i') := UserId.getCurrentUserId stamp i in
  truthy userId = true
  ∧ UserId.getCurrentUserId stamp' i' = (userId, i')
  ∧ (truthy (id_field i) = true → userId = id_field i ∧ i' = i)
  ∧ (truthy (id_field i) = false →
     UserId.getItem (id_stored i') = userId
     ∧ userId = (if truthy (UserId.getItem (id_stored i)) then UserId.getItem (id_stored i)
                 else JStr (UserId.generateUserId stamp)))
  ∧ (∀ userId',
       (UserId.getCurrentUserId stamp (UserId.setUserId userId' i)).1
       = if decide (userId' = "") then JStr (UserId.generateUserId stamp) else JStr userId')
  ∧ (UserId.resetUserId stamp i).1 = JStr (UserId.generateUserId stamp).
Proof.
  assert (∀ userId',
            (UserId.getCurrentUserId stamp (UserId.setUserId userId' i)).1
            = if decide (userId' = "") then JStr (UserId.generateUserId stamp)
              else JStr userId') as Hset.
  { intros userId'. unfold UserId.getCurrentUserId, UserId.setUserId.
    cbn [id_field id_stored UserId.getItem].
    destruct (decide (userId' = "")) as [->|Hne]; [done|].
    apply truthy_JStr in Hne. by rewrite Hne. }
  assert ((UserId.resetUserId stamp i).1 = JStr (UserId.generateUserId stamp)) as Hreset
    by done.
  unfold UserId.getCurrentUserId at 1.
  destruct (truthy (id_field i)) eqn:Hfield; cbn [negb].
  { split_and!; try done. all: unfold UserId.getCurrentUserId; by rewrite Hfield. }
  destruct (truthy (UserId.getItem (id_stored i))) eqn:Hstored; cbn [negb].
  - split_and!; try done.
    all: try (intros _); unfold UserId.getCurrentUserId; cbn [id_field]; by rewrite Hstored.
  - split_and!; try done.
    all: try (intros _); by rewrite Hstored.
Qed.

(** ** Saving and loading *)

(** X26. A club of the store that the viewer owns, stored under an id
    other than ['__proto__'] (which [Object.entries] never lists), is among
    the rows [saveToSupabase] upserts in collaborative mode, and loading that
    row back with [loadFromSupabase] stores a club with the same id, name,
    items, selection and creation time, and leaves the other clubs alone. The
    club loaded back is the viewer's exactly when the stored club carried the
    viewer's id or no id: a club owned only through its [isOwner] flag, under
    another user's id, comes back as a shared club. *)
Theorem saved_club_loads_back (tnow : Z) (key : string) (club : Club) (st : State) :
  collaborative st = true →
  key ≠ "__proto__" →
  bookClubs st !! key = Some club →
  UserManager.isOwner st club = true →
  let row := StorageManager.upsert_row tnow st key club in
  let st' := StorageManager.loadFromSupabase (Some [row]) st in
  row ∈ StorageManager.saveToSupabase tnow st
  ∧ (∀ other, other ≠ key → bookClubs st' !! other = bookClubs st !! other)
  ∧ ∃ club',
      AppState.getBookClub st' (JStr key) = Some club'
      ∧ (c_id club', c_name club', c_books club', c_currentSelection club', c_createdAt club')
        = (JStr key, c_name club, c_books club, c_currentSelection club, c_createdAt club)
      ∧ c_userId club' = JS.or (c_userId club) (JStr (currentUserId st))
      ∧ (UserManager.isOwner st' club' = true
         ↔ c_userId club = JStr (currentUserId st) ∨ truthy (c_userId club) = false)
      ∧ c_isShared club' = negb (UserManager.isOwner st' club').
Proof.
  intros Hon Hkey Hlook Hown row st'. split_and!.
  - unfold StorageManager.saveToSupabase, SupabaseManager.isCollaborativeMode.
    rewrite Hon. cbn [negb]. apply list_elem_of_omap. exists (key, club). split.
    + apply elem_of_map_to_list. unfold Store.getBookClubs.
      apply map_lookup_filter_Some. split; [done|]. simpl. split; [done|].
      unfold UserManager.hasAccess. by rewrite Hown.
    + simpl. by rewrite Hown.
  - intros other Hne. subst st'.
    unfold StorageManager.loadFromSupabase, SupabaseManager.isCollaborativeMode.
    rewrite Hon. simpl. rewrite setBookClub_bookClubs. by rewrite lookup_insert_ne.
  - subst st'.
    unfold StorageManager.loadFromSupabase, SupabaseManager.isCollaborativeMode.
    rewrite Hon. cbn [negb foldl].
    eexists. split; [apply (getBookClub_setBookClub (JStr key))|].
    split; [done|].
    assert (∀ v, JS.or (JS.or v (JStr (currentUserId st))) (JStr (currentUserId st))
                 = JS.or v (JStr (currentUserId st))) as Hor.
    { intros v. unfold JS.or. destruct (truthy v) eqn:Hv; [by rewrite Hv|].
      by destruct (truthy (JStr (currentUserId st))). }
    split; [apply Hor|].
    rewrite (isOwner_same_user st) by apply setBookClub_currentUserId.
    unfold UserManager.isOwner, AppState.enhancedClubData, StorageManager.loaded_club.
    simpl. rewrite Hor, orb_diag.
    set (owned := strict_eq (JS.or (c_userId club) (JStr (currentUserId st)))
                            (JStr (currentUserId st))).
    split.
    + rewrite orb_diag. unfold owned, JS.or, strict_eq.
      destruct (truthy (c_userId club)) eqn:Hv.
      * split; [intros Heq%bool_decide_eq_true; by left|].
        intros [?|?]; [by apply bool_decide_eq_true|done].
      * split; [by right|]. intros _. by apply bool_decide_eq_true.
    + rewrite orb_diag. destruct owned eqn:Howned; simpl; [done|].
      unfold strict_eq. rewrite bool_decide_eq_false_2; [done|].
      unfold JS.or. destruct (truthy (c_userId club)) eqn:Hv; [|done].
      intros Hundef. by rewrite Hundef in Hv.
Qed.

Lemma saved_club_loads_back_witness :
  let club := mkClub (JStr "M") (JStr "Morning readers") ["A"] JNull (JStr "2024-02-02")
                     (JStr Scenario.owner) true false in
  let st := Store.write (JStr "M") club (Scenario.viewing [] ∅) in
  let row := StorageManager.upsert_row 7 st "M" club in
  let st' := StorageManager.loadFromSupabase (Some [row]) st in
  row ∈ StorageManager.saveToSupabase 7 st
  ∧ (∀ other, other ≠ "M" → bookClubs st' !! other = bookClubs st !! other)
  ∧ ∃ club',
      AppState.getBookClub st' (JStr "M") = Some club'
      ∧ (c_id club', c_name club', c_books club', c_currentSelection club', c_createdAt club')
        = (JStr "M", c_name club, c_books club, c_currentSelection club, c_createdAt club)
      ∧ c_userId club' = JS.or (c_userId club) (JStr (currentUserId st))
      ∧ (UserManager.isOwner st' club' = true
         ↔ c_userId club = JStr (currentUserId st) ∨ truthy (c_userId club) = false)
      ∧ c_isShared club' = negb (UserManager.isOwner st' club').
Proof.
  intros club st.
  refine (saved_club_loads_back 7 "M" club st eq_refl _ eq_refl eq_refl).
  discriminate.
Defined.

(** ** The heartbeat *)

(** X27. [startHeartbeat] replaces the heartbeat instead of adding one: the
    new interval runs and is the one the manager remembers, the one it
    remembered before runs no longer, and the other intervals of the page are
    not touched. When the intervals running are those the manager remembers,
    exactly one runs afterwards, however often the heartbeat is started. *)
Theorem startHeartbeat_replaces (fresh : nat) (m : Manager) :
  let m' := Realtime.startHeartbeat fresh m in
  heartbeatInterval m' = Some fresh
  ∧ base m' = base m
  ∧ (∀ id, id ∈ runningIntervals m' ↔
           id = fresh ∨ (id ∈ runningIntervals m ∧ heartbeatInterval m ≠ Some id))
  ∧ (runningIntervals m = option_list (heartbeatInterval m) →
     runningIntervals m' = option_list (heartbeatInterval m'))
  ∧ (∀ starts,
       runningIntervals m = option_list (heartbeatInterval m) →
       runningIntervals (foldl (fun m id => Realtime.startHeartbeat id m) m' starts)
       = [default fresh (last starts)]).
Proof.
  assert (∀ id, Realtime.clearInterval id [id] = []) as Hclear.
  { intros id. unfold Realtime.clearInterval.
    by rewrite filter_cons_False by (by intros ?). }
  assert (∀ fresh' m0, runningIntervals m0 = option_list (heartbeatInterval m0) →
            runningIntervals (Realtime.startHeartbeat fresh' m0) = [fresh']) as Hone.
  { intros fresh' m0 Hrun. unfold Realtime.startHeartbeat. simpl. rewrite Hrun.
    destruct (heartbeatInterval m0) as [id|]; simpl; [|done]. by rewrite Hclear. }
  intros m'. split; [done|]. split; [done|]. split; [|split].
  - intros id. subst m'. unfold Realtime.startHeartbeat, Realtime.clearInterval. simpl.
    rewrite elem_of_app, list_elem_of_singleton.
    destruct (heartbeatInterval m) as [old|].
    + rewrite list_elem_of_filter. split.
      * intros [[Hne Hin]|Heq]; [right|by left]. split; [done|]. by intros [= Heq].
      * intros [Heq|[Hin Hne]]; [by right|left]. split; [|done]. by intros Heq; subst.
    + split.
      * intros [Hin|Heq]; [by right|by left].
      * intros [Heq|[Hin _]]; [by right|by left].
  - intros Hrun. subst m'. by rewrite Hone.
  - intros starts Hrun. subst m'.
    assert (runningIntervals (Realtime.startHeartbeat fresh m)
            = option_list (heartbeatInterval (Realtime.startHeartbeat fresh m))) as Hrun'
      by by rewrite Hone.
    assert (heartbeatInterval (Realtime.startHeartbeat fresh m) = Some fresh) as Hbeat
      by done.
    revert Hrun' Hbeat. generalize (Realtime.startHeartbeat fresh m) as m0.
    revert fresh. induction starts as [|id starts IH]; intros fresh m0 Hrun' Hbeat.
    + simpl. by rewrite Hrun', Hbeat.
    + simpl. rewrite (IH id) by (done || by rewrite Hone).
      f_equal. rewrite last_cons. by destruct (last starts).
Qed.

(** ** Clearing a club *)

(** X28. [clearAllBooks] on a club that [getBookClub] finds empties its
    items, resets its selection and reports how many items it held; after it
    [confirmSelection] finds nothing to confirm, and clearing again reports
    zero items and changes nothing. On a club that is not found it fails and
    changes nothing. *)
Theorem clearAllBooks_resets (clubId : jsval) (st : State) :
  let '(cleared, st', events) := Store.clearAllBooks clubId st in
  match AppState.getBookClub st clubId with
  | Some club =>
      cleared = true
      ∧ events = [allBooksCleared clubId (length (c_books club))]
      ∧ AppState.getBookClub st' clubId
        = Some (set_currentSelection JNull (set_books [] club))
      ∧ (∀ other, to_key other ≠ to_key clubId →
           AppState.getBookClub st' other = AppState.getBookClub st other)
      ∧ Store.confirmSelection clubId st' = (None, st', [])
      ∧ Store.clearAllBooks clubId st' = (true, st', [allBooksCleared clubId 0])
  | None => cleared = false ∧ st' = st ∧ events = []
  end.
Proof.
  unfold Store.clearAllBooks at 1.
  destruct (AppState.getBookClub st clubId) as [club|] eqn:Hclub; [|done].
  assert (AppState.getBookClub
            (Store.write clubId (set_currentSelection JNull (set_books [] club)) st) clubId
          = Some (set_currentSelection JNull (set_books [] club))) as Hfound.
  { eapply getBookClub_write; [done|]. by apply getBookClub_Some in Hclub as [_ ?]. }
  split; [done|]. split; [done|]. split; [done|]. split_and!.
  - intros other Hne. unfold AppState.getBookClub. simpl.
    by rewrite lookup_insert_ne.
  - unfold Store.confirmSelection. by rewrite Hfound.
  - unfold Store.clearAllBooks. rewrite Hfound. simpl. f_equal. f_equal.
    by rewrite write_write.
Qed.

(** ** Local edits and the no-duplicate invariant *)

Section LocalEditLemmas.

Implicit Types (st : State) (club : Club) (clubId : jsval).

Lemma items_unique_found st clubId club :
  items_unique st → AppState.getBookClub st clubId = Some club → NoDup (c_books club).
Proof.
  intros Hinv [Hlook _]%getBookClub_Some. by eapply Hinv.
Qed.

Lemma items_unique_write st clubId club :
  NoDup (c_books club) → items_unique st → items_unique (Store.write clubId club st).
Proof. intros Hnd. by eapply items_unique_insert. Qed.

Lemma addBookToClub_items_unique clubId bookTitle st :
  items_unique st → items_unique (Store.addBookToClub clubId bookTitle st).1.2.
Proof.
  intros Hinv. unfold Store.addBookToClub.
  destruct (AppState.getBookClub st clubId) as [club|] eqn:Hclub; [|done].
  unfold JS.has. case_bool_decide as Hin; [done|]. simpl.
  apply items_unique_write; [|done]. simpl.
  apply NoDup_app. split; [by eapply items_unique_found|].
  split; [|apply NoDup_singleton].
  intros x Hx Hx'. by apply list_elem_of_singleton in Hx' as ->.
Qed.

End LocalEditLemmas.

(** X29. The local edits keep the items of every stored club free of
    duplicates: adding, removing by title or by index, clearing, confirming
    the selection and moving an item, through the store or through the book
    manager, all lead from a store without duplicate items to one without. *)
Theorem local_edits_keep_items_unique
    (clubId : jsval) (bookTitle : string) (index fromIndex toIndex : Z)
    (title typed : jsval) (st : State) :
  items_unique st →
  items_unique (Store.addBookToClub clubId bookTitle st).1.2
  ∧ items_unique (Store.removeBookFromClub clubId bookTitle st).1.2
  ∧ items_unique (Store.removeBookByIndex clubId index st).1.2
  ∧ items_unique (Store.clearAllBooks clubId st).1.2
  ∧ items_unique (Store.confirmSelection clubId st).1.2
  ∧ items_unique (BookManager.moveBook fromIndex toIndex st).2
  ∧ items_unique (BookManager.addBook title typed st).1.2.
Proof.
  intros Hinv. split_and!.
  - by apply addBookToClub_items_unique.
  - unfold Store.removeBookFromClub.
    destruct (AppState.getBookClub st clubId) as [club|] eqn:Hclub; [|done]. simpl.
    apply items_unique_write; [|done]. simpl.
    apply NoDup_filter. by eapply items_unique_found.
  - unfold Store.removeBookByIndex.
    destruct (AppState.getBookClub st clubId) as [club|] eqn:Hclub; [|done].
    destruct (_ && _); [|done].
    destruct (c_books club !! Z.to_nat index) as [removedBook|]; [|done]. simpl.
    apply items_unique_write; [|done]. simpl.
    eapply sublist_NoDup; [by eapply items_unique_found|apply sublist_delete].
  - unfold Store.clearAllBooks.
    destruct (AppState.getBookClub st clubId) as [club|] eqn:Hclub; [|done]. simpl.
    apply items_unique_write; [|done]. apply NoDup_nil_2.
  - unfold Store.confirmSelection.
    destruct (AppState.getBookClub st clubId) as [club|] eqn:Hclub; [|done].
    destruct (c_currentSelection club) as [| |selection]; [done|done|].
    destruct (truthy (JStr selection)); [|done]. simpl.
    apply items_unique_write; [|done]. simpl.
    apply NoDup_filter. by eapply items_unique_found.
  - unfold BookManager.moveBook.
    destruct (Store.getCurrentClub st) as [club|] eqn:Hcur; [|done].
    destruct (_ || _); [done|].
    destruct (c_books club !! Z.to_nat fromIndex) as [movedBook|] eqn:Hmoved; [|done].
    simpl. apply getCurrentClub_Some in Hcur as [_ Hclub].
    eapply items_unique_insert; [done| |done]. simpl.
    rewrite insert_at_Permutation, <- delete_Permutation by done.
    by eapply items_unique_found.
  - unfold BookManager.addBook.
    destruct (Store.getCurrentClub st) as [club|] eqn:Hcur; [|done].
    destruct (if truthy title then title else typed) as [| |t]; [done|done|].
    destruct (negb (truthy (JStr t))); [done|].
    destruct (JS.has (c_books club) t); [done|].
    case_bool_decide; [done|].
    pose proof (addBookToClub_items_unique (c_id club) t st Hinv) as Hadded.
    destruct (Store.addBookToClub (c_id club) t st) as [[success st1] events].
    simpl in *. by destruct success.
Qed.

Lemma local_edits_keep_items_unique_witness :
  let st := Scenario.viewing ["A"; "B"; "C"] ∅ in
  items_unique (Store.addBookToClub (JStr "X") "B" st).1.2
  ∧ items_unique (Store.removeBookFromClub (JStr "X") "B" st).1.2
  ∧ items_unique (Store.removeBookByIndex (JStr "X") 1 st).1.2
  ∧ items_unique (Store.clearAllBooks (JStr "X") st).1.2
  ∧ items_unique (Store.confirmSelection (JStr "X") st).1.2
  ∧ items_unique (BookManager.moveBook 0 2 st).2
  ∧ items_unique (BookManager.addBook JNull (JStr "D") st).1.2.
Proof.
  intros st.
  apply (local_edits_keep_items_unique (JStr "X") "B" 1 0 2 JNull (JStr "D") st).
  intros key club Hlook.
  change (({[ "X" := Scenario.clubX ["A"; "B"; "C"] ]} : gmap string Club) !! key
          = Some club) in Hlook.
  apply lookup_singleton_Some in Hlook as [_ <-].
  apply (bool_decide_unpack _). by vm_compute.
Defined.
